(** * calipso.py: averaging, regridding, calibration and time decoding

    A shallow embedding of [calipso.py] (CALIPSO level 1 and level 2
    readers) and the properties of its numerical core.

    Conventions of the embedding.
    - A numpy float is an exact rational extended with [nan] and the two
      infinities: comparisons, [nan] propagation and division by zero
      follow IEEE 754, rounding is not modelled.
    - A numpy array is a 0-d, 1-d or 2-d value ([ndarray]); [squeeze]
      removes the axes of length one as numpy does.
    - A Python exception is the [Raise] branch of [result].
    - Arrays that the source mutates in place live in a store of objects
      ([heap]) and are passed by reference. *)

From Stdlib Require Import ZArith QArith Qcanon Qround Lia Lqa Sorted.
From stdpp Require Import base option list gmap strings.

Local Open Scope Z_scope.

(** ** Numbers *)

Module Num.

Inductive f64 : Type :=
| Fin (q : Qc)
| PInf
| NInf
| NaN.

Definition of_Q (q : Q) : f64 := Fin (Q2Qc q).
Definition of_Z (z : Z) : f64 := of_Q (inject_Z z).
Definition of_nat (n : nat) : f64 := of_Z (Z.of_nat n).

Definition zero : f64 := of_Z 0.
Definition one : f64 := of_Z 1.

Definition qc_ltb (a b : Qc) : bool :=
  match Qccompare a b with Lt => true | _ => false end.
Definition qc_eqb (a b : Qc) : bool :=
  match Qccompare a b with Eq => true | _ => false end.

(** [x < y]; every comparison with [nan] is false. *)
Definition ltb (x y : f64) : bool :=
  match x, y with
  | NaN, _ | _, NaN => false
  | Fin a, Fin b => qc_ltb a b
  | NInf, Fin _ | NInf, PInf | Fin _, PInf => true
  | _, _ => false
  end.

(** [x == y]; [nan] is equal to nothing. *)
Definition eqb (x y : f64) : bool :=
  match x, y with
  | Fin a, Fin b => qc_eqb a b
  | PInf, PInf | NInf, NInf => true
  | _, _ => false
  end.

Definition gtb (x y : f64) : bool := ltb y x.
Definition leb (x y : f64) : bool := ltb x y || eqb x y.
Definition geb (x y : f64) : bool := leb y x.
(** [x != y] is the negation of [==], so it is true on [nan]. *)
Definition neb (x y : f64) : bool := negb (eqb x y).

Definition isnan (x : f64) : bool :=
  match x with NaN => true | _ => false end.
Definition isfinite (x : f64) : bool :=
  match x with Fin _ => true | _ => false end.

Definition opp (x : f64) : f64 :=
  match x with
  | Fin a => Fin (- a)%Qc
  | PInf => NInf
  | NInf => PInf
  | NaN => NaN
  end.

Definition abs (x : f64) : f64 :=
  match x with
  | Fin a => if qc_ltb a 0%Qc then Fin (- a)%Qc else Fin a
  | PInf | NInf => PInf
  | NaN => NaN
  end.

Definition add (x y : f64) : f64 :=
  match x, y with
  | NaN, _ | _, NaN => NaN
  | Fin a, Fin b => Fin (a + b)%Qc
  | PInf, NInf | NInf, PInf => NaN
  | PInf, _ | _, PInf => PInf
  | NInf, _ | _, NInf => NInf
  end.

Definition sub (x y : f64) : f64 := add x (opp y).

(** Sign of a number that is not [nan]: [Lt] negative, [Eq] zero. *)
Definition sign (x : f64) : comparison :=
  match x with
  | Fin a => Qccompare a 0%Qc
  | PInf => Gt
  | NInf => Lt
  | NaN => Eq
  end.

Definition inf_of_sign (s t : comparison) : f64 :=
  match s, t with
  | Eq, _ | _, Eq => NaN
  | Lt, Lt | Gt, Gt => PInf
  | _, _ => NInf
  end.

Definition mul (x y : f64) : f64 :=
  match x, y with
  | NaN, _ | _, NaN => NaN
  | Fin a, Fin b => Fin (a * b)%Qc
  | _, _ => inf_of_sign (sign x) (sign y)
  end.

(** Division of numpy floats: a finite number over zero is an infinity
    (or [nan] for [0/0]) and never an exception. *)
Definition div (x y : f64) : f64 :=
  match x, y with
  | NaN, _ | _, NaN => NaN
  | Fin a, Fin b =>
      if qc_eqb b 0%Qc then
        match Qccompare a 0%Qc with
        | Eq => NaN
        | Gt => PInf
        | Lt => NInf
        end
      else Fin (a / b)%Qc
  | Fin _, _ => zero
  | _, Fin b =>
      match Qccompare b 0%Qc with
      | Lt => opp x
      | _ => x
      end
  | _, _ => NaN
  end.

(** [np.floor] keeps [nan] and the infinities. *)
Definition floor (x : f64) : f64 :=
  match x with
  | Fin a => of_Z (Qfloor a)
  | _ => x
  end.

Definition sum (l : list f64) : f64 := fold_left add l zero.

(** [np.mean] of a 1-d array: the sum over the number of elements. *)
Definition mean (l : list f64) : f64 := div (sum l) (of_nat (length l)).

End Num.

Import Num.

(** ** Exceptions and results *)

Inductive exn : Type :=
| AssertionError
| ZeroDivisionError
| ValueError
| IndexError
| TypeError
| AttributeError
| UnboundLocalError
| OverflowError
| HDF4Error.

Inductive result (A : Type) : Type :=
| Ok (a : A)
| Raise (e : exn).
Arguments Ok {A} a.
Arguments Raise {A} e.

Global Instance result_ret : MRet result := fun A a => Ok a.
Global Instance result_bind : MBind result := fun A B f m =>
  match m with
  | Ok a => f a
  | Raise e => Raise e
  end.

(** [for i in idxs: s = body(i, s)], stopping at the first exception. *)
Fixpoint for_in {S : Type} (idxs : list nat) (body : nat -> S -> result S)
    (s : S) : result S :=
  match idxs with
  | [] => Ok s
  | i :: rest => s' ← body i s; for_in rest body s'
  end.

(** ** Arrays *)

Inductive ndarray : Type :=
| Arr0 (x : f64)
| Arr1 (v : list f64)
| Arr2 (rows : list (list f64)).

Definition ndim (a : ndarray) : nat :=
  match a with
  | Arr0 _ => 0
  | Arr1 _ => 1
  | Arr2 _ => 2
  end.

(** Number of columns of a 2-d array, read on its first row. *)
Definition ncols (rows : list (list f64)) : nat :=
  match rows with
  | [] => 0
  | r :: _ => length r
  end.

(** [a.squeeze()]: the axes of length one are dropped. *)
Definition squeeze (a : ndarray) : ndarray :=
  match a with
  | Arr0 x => Arr0 x
  | Arr1 [x] => Arr0 x
  | Arr1 v => Arr1 v
  | Arr2 [[x]] => Arr0 x
  | Arr2 [r] => Arr1 r
  | Arr2 rows =>
      if Nat.eqb (ncols rows) 1 then Arr1 (concat rows) else Arr2 rows
  end.

(** [np.size(a, 0)] and [np.size(a, 1)]; a missing axis is an
    [IndexError]. *)
Definition size0 (a : ndarray) : result nat :=
  match a with
  | Arr0 _ => Raise IndexError
  | Arr1 v => Ok (length v)
  | Arr2 rows => Ok (length rows)
  end.

Definition size1 (a : ndarray) : result nat :=
  match a with
  | Arr2 rows => Ok (ncols rows)
  | _ => Raise IndexError
  end.

(** Python's normalisation of a slice bound against a length. *)
Definition slice_bound (len i : Z) : Z :=
  let i := if i <? 0 then i + len else i in
  Z.max 0 (Z.min len i).

(** [l[a:b]] *)
Definition py_slice {A : Type} (l : list A) (a b : Z) : list A :=
  let len := Z.of_nat (length l) in
  let s := slice_bound len a in
  let e := slice_bound len b in
  firstn (Z.to_nat (e - s)) (skipn (Z.to_nat s) l).

(** Elementwise operation on two 1-d arrays, with numpy's broadcasting of
    an operand of length one. *)
Definition broadcast2 {A B C : Type} (f : A -> B -> C)
    (a : list A) (b : list B) : result (list C) :=
  if Nat.eqb (length a) (length b) then Ok (zip_with f a b)
  else match a, b with
       | [x], _ => Ok (map (f x) b)
       | _, [y] => Ok (map (fun x => f x y) a)
       | _, _ => Raise ValueError
       end.

(** [l[idx]] for a boolean array [idx]: the elements under a [True]; the
    lengths have to agree. *)
Fixpoint select {A : Type} (l : list A) (idx : list bool) : list A :=
  match l, idx with
  | x :: l', b :: idx' => if b then x :: select l' idx' else select l' idx'
  | _, _ => []
  end.

Definition mask_index {A : Type} (l : list A) (idx : list bool)
    : result (list A) :=
  if Nat.eqb (length l) (length idx) then Ok (select l idx)
  else Raise IndexError.

(** [idx.sum()] of a boolean array *)
Definition count_true (idx : list bool) : nat :=
  length (List.filter (fun b : bool => b) idx).

Definition flag_invalid : f64 := of_Z (-9999).
Definition threshold_invalid : f64 := of_Z (-999).

(** Storing Python's [None] in a float array stores [nan]. *)
Definition float_of_None : f64 := NaN.

(** ** Block averages (Useful maths) *)

(** The body of the loop of [_vector_average] for block [i]. *)
Definition _vector_average_body (v0 valid : list f64) (navg : Z)
    (missing : option f64) (i : nat) (v : list f64) : result (list f64) :=
  let n0 := Z.of_nat i * navg in
  let vslice := py_slice v0 n0 (n0 + navg - 1) in
  let validslice := py_slice valid n0 (n0 + navg - 1) in
  match missing with
  | None =>
      idx ← broadcast2 andb (map (fun x => neb x zero) validslice)
                            (map (fun x => gtb x threshold_invalid) vslice);
      if Nat.eqb (count_true idx) 0 then Ok (<[i := flag_invalid]> v)
      else
        kept ← mask_index vslice idx;
        Ok (<[i := mean kept]> v)
  | Some missing =>
      idx0 ← broadcast2 andb (map (fun x => neb x missing) vslice)
                             (map (fun x => neb x zero) validslice);
      idx ← broadcast2 andb idx0
                            (map (fun x => gtb x threshold_invalid) vslice);
      if Nat.eqb (count_true idx) 0 then Ok (<[i := float_of_None]> v)
      else
        kept ← mask_index vslice idx;
        Ok (<[i := mean kept]> v)
  end.

Definition _vector_average (v0 : ndarray) (navg : Z)
    (missing : option f64) (valid : option (list f64)) : result ndarray :=
  let v0 := squeeze v0 in
  match v0 with
  | Arr1 l =>
      if navg =? 1 then Ok v0
      else if navg =? 0 then Raise ZeroDivisionError
      else
        let n := Z.of_nat (length l) / navg in
        if n <? 0 then Raise ValueError
        else
          let n := Z.to_nat n in
          let v := replicate n zero in
          let valid := default (replicate (length l) one) valid in
          v ← for_in (seq 0 n) (_vector_average_body l valid navg missing) v;
          Ok (Arr1 v)
  | _ => Raise AssertionError
  end.

(** [np.sum(rows, axis=0)] of an array with [width] columns *)
Definition sum_axis0 (width : nat) (rows : list (list f64)) : list f64 :=
  fold_left (zip_with add) rows (replicate width zero).

(** [np.sum(rows > -999., axis=0)]: the valid points of each column *)
Definition npts_axis0 (width : nat) (rows : list (list f64)) : list nat :=
  fold_left
    (fun acc r =>
       zip_with (fun c x => if gtb x threshold_invalid then S c else c) acc r)
    rows (replicate width 0%nat).

(** [aslice[aslice < -999.] = 0] *)
Definition zero_invalid (rows : list (list f64)) : list (list f64) :=
  map (map (fun x => if ltb x threshold_invalid then zero else x)) rows.

(** [a[i, :] = row] *)
Definition set_row (i : nat) (row : list f64) (a : list (list f64))
    : list (list f64) :=
  <[i := row]> a.

Section Std.

(** The square root of numpy, which the rationals do not have. *)
Variable f_sqrt : f64 -> f64.

(** [np.std(rows, axis=0)]: for each column, the square root of the mean
    of the squared deviations from the column's mean. *)
Definition std_axis0 (width : nat) (rows : list (list f64)) : list f64 :=
  let k := of_nat (length rows) in
  let mu := map (fun s => div s k) (sum_axis0 width rows) in
  let dev2 := map (fun r => zip_with (fun x m => mul (sub x m) (sub x m)) r mu)
                  rows in
  map (fun s => f_sqrt (div s k)) (sum_axis0 width dev2).

Definition _array_std_body (a0 : list (list f64)) (valid : list f64)
    (navg : Z) (i : nat) (a : list (list f64)) : result (list (list f64)) :=
  let n0 := Z.of_nat i * navg in
  let aslice := py_slice a0 n0 (n0 + navg - 1) in
  let validslice := py_slice valid n0 (n0 + navg - 1) in
  let idx := map (fun x => gtb x zero) validslice in
  if Nat.eqb (count_true idx) 0 then
    Ok (set_row i (replicate (ncols a0) flag_invalid) a)
  else
    kept ← mask_index aslice idx;
    Ok (set_row i (std_axis0 (ncols a0) kept) a).

Definition _array_std (a0 : ndarray) (navg : Z) (valid : option (list f64))
    : result ndarray :=
  let a0 := squeeze a0 in
  match a0 with
  | Arr2 rows =>
      if navg =? 1 then Ok (Arr2 (map (map (fun _ => zero)) rows))
      else if navg =? 0 then Raise ZeroDivisionError
      else
        let n := Z.of_nat (length rows) / navg in
        if n <? 0 then Raise ValueError
        else
          let n := Z.to_nat n in
          let a := replicate n (replicate (ncols rows) zero) in
          let valid := default (replicate (length rows) one) valid in
          a ← for_in (seq 0 n) (_array_std_body rows valid navg) a;
          Ok (Arr2 a)
  | _ => Raise AssertionError
  end.

End Std.

(** The triangle-shaped weights of [_array_average] for an odd [navg]:
    [1 .. navg/2+1] followed by [navg/2 .. 1]. *)
Definition triangle_weights (navg : Z) : result (list f64) :=
  if navg <? 0 then Raise ValueError
  else
    let k := Z.to_nat (navg / 2) in
    Ok (map (fun j => of_nat (S j)) (seq 0 (S k))
        ++ map (fun j => of_nat (k - j)) (seq 0 k)).

Definition _array_average_body (a0 : list (list f64)) (valid : list f64)
    (navg : Z) (w : option (list f64)) (missing : option f64)
    (i : nat) (a : list (list f64)) : result (list (list f64)) :=
  let n0 := Z.of_nat i * navg in
  let aslice := py_slice a0 n0 (n0 + navg - 1) in
  let validslice := py_slice valid n0 (n0 + navg - 1) in
  match missing with
  | None =>
      let idx := map (fun x => neb x zero) validslice in
      if Nat.eqb (count_true idx) 0 then
        (* no valid profiles in the slice according to valid profiles data *)
        Ok (set_row i (replicate (ncols a0) flag_invalid) a)
      else
        aslice ← mask_index aslice idx;
        (* number of valid points along the vertical *)
        let npts := npts_axis0 (ncols a0) aslice in
        (* sum only the valid points along the vertical *)
        let aslice := zero_invalid aslice in
        let asliceavg :=
          zip_with (fun s c => div s (of_nat c))
                   (sum_axis0 (ncols a0) aslice) npts in
        (* mark averaged points with no valid raw points as invalid *)
        let asliceavg :=
          zip_with (fun x c => if Nat.eqb c 0 then flag_invalid else x)
                   asliceavg npts in
        Ok (set_row i asliceavg a)
  | Some _ =>
      (* [np.ma.mean(aslice, axis=0, weights=w)]: the mean of a masked
         array takes no [weights] argument *)
      Raise TypeError
  end.

Definition _array_average (a0 : ndarray) (navg : Z) (weighted : bool)
    (valid : option (list f64)) (missing : option f64) : result ndarray :=
  let a0 := squeeze a0 in
  match a0 with
  | Arr2 rows =>
      if navg =? 1 then Ok a0
      else
        let weighted := weighted && (navg mod 2 =? 1) in
        w ← (if weighted then w ← triangle_weights navg; Ok (Some w)
             else Ok None);
        if navg =? 0 then Raise ZeroDivisionError
        else
          let n := Z.of_nat (length rows) / navg in
          if n <? 0 then Raise ValueError
          else
            let n := Z.to_nat n in
            let a := replicate n (replicate (ncols rows) zero) in
            let valid := default (replicate (length rows) one) valid in
            a ← for_in (seq 0 n)
                  (_array_average_body rows valid navg w missing) a;
            Ok (Arr2 a)
  | _ => Raise AssertionError
  end.

(** ** Vertical regridding *)

(** What a Python variable of the accessors can hold: [None], the empty
    list [[]] or an array. *)
Inductive pyval : Type :=
| PyNone
| PyEmptyList
| PyArr (a : ndarray).

(** The interior of [np.interp]: [x] lies between the first and the last
    sample point; the segment [xp[j] <= x < xp[j+1]] is looked for from
    the left. *)
Fixpoint interp_inside (xp fp : list f64) (x : f64) : f64 :=
  match xp, fp with
  | x0 :: ((x1 :: _) as xp'), f0 :: ((f1 :: _) as fp') =>
      if ltb x x1 then
        if eqb x0 x then f0
        else add (mul (div (sub f1 f0) (sub x1 x0)) (sub x x0)) f0
      else interp_inside xp' fp' x
  | _, f0 :: _ => f0
  | _, [] => NaN
  end.

(** [np.interp(x, xp, fp)] at one point, with the default [left] and
    [right]: the first and the last value of [fp]. *)
Definition interp1 (xp fp : list f64) (x : f64) : f64 :=
  if isnan x then x
  else if gtb x (List.last xp NaN) then List.last fp NaN
  else if ltb x (hd NaN xp) then hd NaN fp
  else interp_inside xp fp x.

(** [np.interp(y, xp, fp)] *)
Definition np_interp (y xp fp : list f64) : result (list f64) :=
  if Nat.eqb (length xp) 0 then Raise ValueError
  else if negb (Nat.eqb (length fp) (length xp)) then Raise ValueError
  else Ok (map (interp1 xp fp) y).

(** [np.flipud] of a 1-d array *)
Definition flipud {A : Type} (l : list A) : list A := rev l.

Definition _remap_y_body (z0 : ndarray) (y0 y : list f64) (i : nat)
    (z : list (list f64)) : result (list (list f64)) :=
  match z0 with
  | Arr2 rows =>
      match rows !! i with
      | Some row =>
          zi ← np_interp y (flipud y0) (flipud row);
          Ok (set_row i zi z)
      | None => Raise IndexError
      end
  | _ => Raise IndexError
  end.

Definition _remap_y (z0 : pyval) (y0 y : list f64) : result ndarray :=
  match z0 with
  | PyNone => Raise IndexError
  | PyEmptyList => Ok (Arr2 [])
  | PyArr z0 =>
      n ← size0 z0;
      let z := replicate n (replicate (length y) zero) in
      z ← for_in (seq 0 n) (_remap_y_body z0 y0 y) z;
      Ok (Arr2 z)
  end.

(** ** The file classes *)

(** The two kinds of orbit, read from the name of the file: night ([ZN])
    and day ([ZD]). *)
Inductive orbit_type : Type := ZN | ZD.

(** The float literals of the source are binary doubles: [1e-4] is
    7378697629483821 / 2^66, [1e-5] is 5902958103587057 / 2^69, [8e-5]
    is 5902958103587057 / 2^66 and [8e-3] is 1152921504606847 / 2^57, each
    a little above the decimal fraction it is written as. *)

(** maximum molecular atb for normalization *)
Definition atb_max (z : orbit_type) : f64 :=
  match z with
  | ZN => of_Q (7378697629483821 # 73786976294838206464)
  | ZD => of_Z 1
  end.

(** maximum integrated atb for calibration in the 26-28 km range *)
Definition iatb_bounds (z : orbit_type) : f64 * f64 :=
  match z with
  | ZN => (of_Q (5902958103587057 # 590295810358705651712),
           of_Q (5902958103587057 # 73786976294838206464))
  | ZD => (of_Q (-1152921504606847 # 144115188075855872),
           of_Q (1152921504606847 # 144115188075855872))
  end.

(** A scientific data set file: its variables by name. *)
Abbreviation SD := (gmap string ndarray).

(** An object of class [_Cal] ([Cal1] and [Cal2] inherit from it): the
    handle on the file, [None] once closed, the orbit type and, for
    [Cal1], the profiles with a valid RMS. *)
Record Cal : Type := {
  hdf : option SD;
  z : orbit_type;
  valid_rms_profiles : option (list f64);
}.

(** [_Cal.close]: [self.hdf.end()] then [self.hdf = None]. On a closed
    object [self.hdf] is [None], which has no [end]. *)
Definition close (self : Cal) : result Cal :=
  match hdf self with
  | Some _ =>
      Ok {| hdf := None; z := z self;
            valid_rms_profiles := valid_rms_profiles self |}
  | None => Raise AttributeError
  end.

(** ** Objects mutated in place *)

(** The store of array objects; a location is the identity of an
    object. *)
Abbreviation loc := nat (only parsing).
Abbreviation heap := (gmap nat ndarray).

(** A computation over the store. An exception leaves the store as the
    statements before it made it. *)
Definition M (A : Type) : Type := heap -> result A * heap.

Global Instance M_ret : MRet M := fun A a h => (Ok a, h).
Global Instance M_bind : MBind M := fun A B f m h =>
  match m h with
  | (Ok a, h') => f a h'
  | (Raise e, h') => (Raise e, h')
  end.

Definition lift {A : Type} (r : result A) : M A := fun h => (r, h).
Definition raise {A : Type} (e : exn) : M A := fun h => (Raise e, h).

(** A new object *)
Definition alloc (a : ndarray) : M nat := fun h =>
  let l := fresh (dom h) in (Ok l, <[l := a]> h).

(** The object at [l]. A reference always has its object in Python; the
    second branch is there to make the function total. *)
Definition load (l : nat) : M ndarray := fun h =>
  match h !! l with
  | Some a => (Ok a, h)
  | None => (Raise AttributeError, h)
  end.

Definition store (l : nat) (a : ndarray) : M unit := fun h =>
  (Ok tt, <[l := a]> h).

(** A Python variable that refers to [None], to [[]] or to an array
    object. *)
Inductive pyref : Type :=
| RNone
| REmptyList
| RArr (l : nat).

(** The value returned by a read becomes an object of its own. *)
Definition new_object (v : pyval) : M pyref :=
  match v with
  | PyNone => mret RNone
  | PyEmptyList => mret REmptyList
  | PyArr a => l ← alloc a; mret (RArr l)
  end.

Definition nd_map (f : f64 -> f64) (a : ndarray) : ndarray :=
  match a with
  | Arr0 x => Arr0 (f x)
  | Arr1 v => Arr1 (map f v)
  | Arr2 rows => Arr2 (map (map f) rows)
  end.

(** ** Calibration *)

(** [atb[np.abs(atb) > atb_max[self.z]] = np.nan], on the values *)
Definition screen_atb (z : orbit_type) : ndarray -> ndarray :=
  nd_map (fun x => if gtb (abs x) (atb_max z) then NaN else x).

(** [mol[mol < 0] = np.nan], on the values *)
Definition screen_mol : ndarray -> ndarray :=
  nd_map (fun x => if ltb x zero then NaN else x).

(** [a[cond(a)] = np.nan] on the object that [r] refers to; [None] and
    [[]] take no such assignment. *)
Definition assign_nan_where (r : pyref) (screen : ndarray -> ndarray)
    (on_list : exn) : M unit :=
  match r with
  | RArr l => a ← load l; store l (screen a)
  | RNone => raise TypeError
  | REmptyList => raise on_list
  end.

(** A masked array: [None] is a masked entry. *)
Abbreviation masked := (option f64) (only parsing).

(** [ma.masked_invalid]: [nan] and the infinities are masked. The result
    is a new array. *)
Definition masked_invalid (x : f64) : option f64 :=
  if isfinite x then Some x else None.

(** [ma.mean] of a 1-d masked array: the mean of the entries that are not
    masked, and [masked] when there is none. *)
Definition ma_mean (l : list (option f64)) : option f64 :=
  let data := omap id l in
  if Nat.eqb (length data) 0 then None
  else Some (div (sum data) (of_nat (length data))).

(** [ma.mean(a[:, idx], axis=1)] of the masked view of a 2-d array *)
Fixpoint ma_mean_band (rows : list (list f64)) (idx : list bool)
    : result (list (option f64)) :=
  match rows with
  | [] => Ok []
  | row :: rest =>
      band ← mask_index row idx;
      means ← ma_mean_band rest idx;
      Ok (ma_mean (map masked_invalid band) :: means)
  end.

Definition calib_profile (a : ndarray) (idx : list bool)
    : result (list (option f64)) :=
  match a with
  | Arr2 rows => ma_mean_band rows idx
  | _ => Raise IndexError
  end.

(** [np.r_[np.max([0, i - navgh]):np.min([nprof - 1, i + navgh])]] *)
Definition idxh (nprof i : nat) (navgh : Z) : list nat :=
  let lo := Z.max 0 (Z.of_nat i - navgh) in
  let hi := Z.min (Z.of_nat nprof - 1) (Z.of_nat i + navgh) in
  map Z.to_nat (seqZ lo (hi - lo)).

(** [l[idxh]] for an array of indices *)
Fixpoint take_indices {A : Type} (l : list A) (idxh : list nat)
    : result (list A) :=
  match idxh with
  | [] => Ok []
  | j :: rest =>
      match l !! j with
      | Some x => xs ← take_indices l rest; Ok (x :: xs)
      | None => Raise IndexError
      end
  end.

(** [(atbslice > atbbounds[0]) & (atbslice < atbbounds[1])]: a masked
    entry is never counted, selected or not. *)
Definition in_bounds (bounds : f64 * f64) (x : option f64) : bool :=
  match x with
  | Some v => gtb v bounds.1 && ltb v bounds.2
  | None => false
  end.

(** The quotient of two results of [ma.mean], stored in a float array:
    what is masked is stored as [nan]. *)
Definition ma_div_stored (a b : option f64) : f64 :=
  match a, b with
  | Some x, Some y => div x y
  | _, _ => NaN
  end.

(** The body of the moving average of [mol_calibration_coef] *)
Definition moving_average_body (z : orbit_type) (navgh : Z) (nprof : nat)
    (atb_calib_profile mol_calib_profile : list (option f64))
    (i : nat) (coef : list f64) : result (list f64) :=
  let atbbounds := iatb_bounds z in
  let idxh := idxh nprof i navgh in
  atbslice ← take_indices atb_calib_profile idxh;
  molslice ← take_indices mol_calib_profile idxh;
  let kept := List.filter (in_bounds atbbounds) atbslice in
  Ok (<[i := ma_div_stored (ma_mean kept) (ma_mean molslice)]> coef).

(** now do a moving average, weeding out bad profiles *)
Definition moving_average (z : orbit_type) (navgh : Z) (nprof : nat)
    (atb_calib_profile mol_calib_profile : list (option f64))
    : result (list f64) :=
  for_in (seq 0 nprof)
    (moving_average_body z navgh nprof atb_calib_profile mol_calib_profile)
    (replicate nprof zero).

(** ** Level 1 files *)

Module Cal1.

(** [Cal1._read_sds]: any failure to select the variable is caught and
    gives [None]. *)
Definition _read_sds (self : Cal) (varname : string) : option ndarray :=
  match hdf self with
  | Some sd => squeeze <$> sd !! varname
  | None => None
  end.

(** [np.size(var, 0)] for what [_read_sds] returns. *)
Definition size0_opt (var : option ndarray) : result nat :=
  match var with
  | Some a => size0 a
  | None => Raise IndexError
  end.

(** [var[i0:i1]] and [var[i0:i1, :]] *)
Definition slice_rows (var : ndarray) (idx : Z * Z) : result ndarray :=
  match var with
  | Arr1 v => Ok (Arr1 (py_slice v idx.1 idx.2))
  | Arr2 rows => Ok (Arr2 (py_slice rows idx.1 idx.2))
  | Arr0 _ => Raise UnboundLocalError
  end.

(** [Cal1._read_var] *)
Definition _read_var (self : Cal) (varname : string) (navg : Z)
    (idx : option (Z * Z)) (missing : option f64) : result pyval :=
  if navg =? 0 then Ok PyEmptyList
  else
    let var := _read_sds self varname in
    n ← size0_opt var;
    if Z.of_nat n <? navg then Ok PyNone
    else
      match var with
      | None => Raise IndexError
      | Some var =>
          data ← match idx with
                 | None => Ok var
                 | Some idx => slice_rows var idx
                 end;
          if 1 <? navg then
            data ← match var with
                   | Arr1 _ =>
                       _vector_average data navg missing
                         (valid_rms_profiles self)
                   | Arr2 _ =>
                       _array_average data navg false
                         (valid_rms_profiles self) missing
                   | Arr0 _ => Raise IndexError
                   end;
            Ok (PyArr data)
          else Ok (PyArr data)
      end.

(** The loop that [utc_time] and [time] share: [time2[i] = time[i * navg]]
    for the [n] blocks of [time]. *)
Definition first_of_block_body (time : ndarray) (navg : Z) (i : nat)
    (time2 : list f64) : result (list f64) :=
  match time with
  | Arr1 l =>
      match l !! Z.to_nat (Z.of_nat i * navg) with
      | Some t => Ok (<[i := t]> time2)
      | None => Raise IndexError
      end
  | Arr2 _ => Raise ValueError
  | Arr0 _ => Raise IndexError
  end.

Definition first_of_blocks (time : ndarray) (navg : Z) : result ndarray :=
  len ← size0 time;
  let n := Z.to_nat (Z.of_nat len / navg) in
  time2 ← for_in (seq 0 n) (first_of_block_body time navg)
             (replicate n zero);
  Ok (Arr1 time2).

(** [Cal1.utc_time] *)
Definition utc_time (self : Cal) (navg : Z) (idx : option (Z * Z))
    : result pyval :=
  if navg =? 0 then Ok PyEmptyList
  else
    time ← _read_var self "Profile_UTC_Time" 1 None None;
    len ← match time with
          | PyArr a => size0 a
          | PyEmptyList => Ok 0%nat
          | PyNone => Raise IndexError
          end;
    if Z.of_nat len <? navg then Ok PyNone
    else
      time ← match idx, time with
             | Some idx, PyArr a => a ← slice_rows a idx; Ok (PyArr a)
             | Some _, _ => Raise TypeError
             | None, _ => Ok time
             end;
      match time with
      | PyArr a =>
          if 1 <? navg then a ← first_of_blocks a navg; Ok (PyArr a)
          else Ok time
      | _ => Ok time
      end.

(** [Cal1.time] *)
Definition time (self : Cal) (navg : Z) (idx : option (Z * Z))
    : result pyval :=
  if navg =? 0 then Ok PyEmptyList
  else
    time ← _read_var self "Profile_Time" 1 idx None;
    len ← match time with
          | PyArr (Arr1 l) => Ok (length l)
          | PyArr (Arr2 rows) => Ok (length rows)
          | PyEmptyList => Ok 0%nat
          | _ => Raise TypeError
          end;
    if Z.of_nat len <? navg then Ok PyNone
    else
      match time with
      | PyArr a =>
          if 1 <? navg then a ← first_of_blocks a navg; Ok (PyArr a)
          else Ok time
      | _ => Ok time
      end.

(** [Cal1.valid_profiles]: the percentage of valid profiles of each
    block. *)
Definition valid_profiles_body (valid : list f64) (navg : Z) (i : nat)
    (nprof : list f64) : result (list f64) :=
  let validslice :=
    py_slice valid (Z.of_nat i * navg) (Z.of_nat i * navg + navg - 1) in
  Ok (<[i := sum validslice]> nprof).

Definition valid_profiles (self : Cal) (navg : Z) : result pyval :=
  if navg <? 2 then
    Ok match valid_rms_profiles self with
       | Some valid => PyArr (Arr1 valid)
       | None => PyNone
       end
  else
    match valid_rms_profiles self with
    | None => Raise IndexError
    | Some valid =>
        let n := Z.to_nat (Z.of_nat (length valid) / navg) in
        nprof ← for_in (seq 0 n) (valid_profiles_body valid navg)
                   (replicate n zero);
        Ok (PyArr (Arr1 (map (fun x => div (mul (of_Z 100) x)
                                           (of_Z (navg - 1))) nprof)))
    end.

(** [Cal1.pressure], [Cal1.temperature] and [Cal1.rh] *)
Definition pressure (self : Cal) (navg : Z) (idx : option (Z * Z))
    : result pyval :=
  _read_var self "Pressure" navg idx None.

Definition temperature (self : Cal) (navg : Z) (idx : option (Z * Z))
    : result pyval :=
  _read_var self "Temperature" navg idx None.

Definition rh (self : Cal) (navg : Z) (idx : option (Z * Z)) : result pyval :=
  _read_var self "Relative_Humidity" navg idx None.

(** [Cal1.pressure_on_lidar_alt], [Cal1.temperature_on_lidar_alt] and
    [Cal1.rh_on_lidar_alt] with [prof=None], for the grids [alt] and
    [metalt] *)
Definition pressure_on_lidar_alt (self : Cal) (navg : Z)
    (alt metalt : list f64) (idx : option (Z * Z)) : result ndarray :=
  p0 ← pressure self navg idx;
  _remap_y p0 metalt alt.

Definition temperature_on_lidar_alt (self : Cal) (navg : Z)
    (alt metalt : list f64) (idx : option (Z * Z)) : result ndarray :=
  t0 ← temperature self navg idx;
  _remap_y t0 metalt alt.

Definition rh_on_lidar_alt (self : Cal) (navg : Z)
    (alt metalt : list f64) (idx : option (Z * Z)) : result ndarray :=
  rh0 ← rh self navg idx;
  _remap_y rh0 metalt alt.

(** [Cal1._read_std]: the standard deviation of a 2-d variable over
    [navg] profiles; [None] has no [ndim]. *)
Definition _read_std (f_sqrt : f64 -> f64) (self : Cal) (varname : string)
    (navg : Z) : result pyval :=
  match _read_sds self varname with
  | None => Raise AttributeError
  | Some var =>
      match var with
      | Arr1 _ => Ok PyNone
      | _ =>
          data ← _array_std f_sqrt var navg (valid_rms_profiles self);
          Ok (PyArr data)
      end
  end.

(** [Cal1.atb_std] with [prof=None] *)
Definition atb_std (f_sqrt : f64 -> f64) (self : Cal) (navg : Z)
    : result pyval :=
  _read_std f_sqrt self "Total_Attenuated_Backscatter_532" navg.

Section Grids.

(** The altitude grids of [staticdata/lidaralt.asc] and
    [staticdata/metalt.asc], loaded when the module is imported. *)
Variable lidar_alt : list f64.
Variable met_alt : list f64.

(** [mol] and [atb] with [prof=None]: each read gives a new
    array object. *)
Definition mol (self : Cal) (navg : Z) (idx : option (Z * Z)) : result pyval :=
  _read_var self "Molecular_Number_Density" navg idx None.

Definition atb (self : Cal) (navg : Z) (idx : option (Z * Z)) : M pyref :=
  v ← lift (_read_var self "Total_Attenuated_Backscatter_532" navg idx None);
  new_object v.

(** [self.atb], where a local variable is named [atb] too *)
Local Abbreviation self_atb := atb (only parsing).

(** [Cal1.mol_on_lidar_alt] *)
Definition mol_on_lidar_alt (self : Cal) (navg : Z) (alt metalt : list f64)
    (idx : option (Z * Z)) : M pyref :=
  mol0 ← lift (mol self navg idx);
  mol ← lift (_remap_y mol0 metalt alt);
  l ← alloc mol;
  mret (RArr l).

(** [Cal1.mol_calibration_coef]. [mol] and [atb] are references to the
    caller's arrays ([RNone] when the argument is left out). *)
Definition mol_calibration_coef (self : Cal) (mol atb : pyref) (navg : Z)
    (alt metalt : list f64) (idx : option (Z * Z)) (navgh : Z)
    (zmin zmax : f64) : M (list f64) :=
  '(mol, atb) ← match mol, atb with
                | RNone, RNone =>
                    mol ← mol_on_lidar_alt self navg alt metalt idx;
                    atb ← self_atb self navg idx;
                    mret (mol, atb)
                | _, _ => mret (mol, atb)
                end;
  (* remove atb and molecular unfit for calibration purposes *)
  _ ← assign_nan_where atb (screen_atb (z self)) TypeError;
  _ ← assign_nan_where mol screen_mol IndexError;
  atb ← match atb with RArr l => load l | _ => raise TypeError end;
  mol ← match mol with RArr l => load l | _ => raise TypeError end;
  let idx := map (fun a => geb a zmin && leb a zmax) alt in
  atb_calib_profile ← lift (calib_profile atb idx);
  mol_calib_profile ← lift (calib_profile mol idx);
  nprof ← lift (size0 mol);
  lift (moving_average (z self) navgh nprof
          atb_calib_profile mol_calib_profile).

(** [mol = mol.T; mol *= coef; mol = mol.T]: row [i] of the object is
    multiplied by [coef[i]], in place. *)
Definition scale_rows (l : nat) (coef : list f64) : M unit :=
  a ← load l;
  match a with
  | Arr2 rows =>
      if Nat.eqb (length rows) (length coef) then
        store l (Arr2 (zip_with (fun r c => map (fun x => mul x c) r)
                                rows coef))
      else raise ValueError
  | _ => raise ValueError
  end.

(** [Cal1.mol_on_lidar_alt_calibrated]. [atb] can be passed as an argument
    if it's been read and averaged already. *)
Definition mol_on_lidar_alt_calibrated (self : Cal) (navg : Z)
    (alt : list f64) (navgh : Z) (metalt : list f64) (idx : option (Z * Z))
    (zcal : f64 * f64) (atb : pyref) : M pyref :=
  mol ← mol_on_lidar_alt self navg alt metalt idx;
  atb ← match atb with
        | RNone => self_atb self navg idx
        | _ => mret atb
        end;
  coef ← mol_calibration_coef self mol atb 30 lidar_alt met_alt None navgh
           zcal.1 zcal.2;
  match mol with
  | RArr l => _ ← scale_rows l coef; mret mol
  | _ => raise TypeError
  end.

End Grids.

End Cal1.

(** ** Python's [datetime] *)

(** A [datetime.datetime] with whole seconds: the proleptic Gregorian
    ordinal of its date (1 is 0001-01-01) and the seconds into that day.
    Two [datetime] objects are equal exactly when both agree. *)
Record pydatetime : Type := {
  ordinal : Z;
  second : Z;
}.

Definition is_leap (year : Z) : bool :=
  (year mod 4 =? 0) && (negb (year mod 100 =? 0) || (year mod 400 =? 0)).

Definition days_in_month (year month : Z) : Z :=
  if month =? 2 then (if is_leap year then 29 else 28)
  else if (month =? 4) || (month =? 6) || (month =? 9) || (month =? 11)
       then 30
       else 31.

Definition days_before_year (year : Z) : Z :=
  let y := year - 1 in
  y * 365 + y / 4 - y / 100 + y / 400.

Definition days_before_month (year month : Z) : Z :=
  fold_left Z.add
    (map (days_in_month year) (seqZ 1 (month - 1))) 0.

Definition ymd2ord (year month day : Z) : Z :=
  days_before_year year + days_before_month year month + day.

(** An argument of [datetime.datetime] is converted to a C [int]. *)
Definition fits_c_int (v : Z) : bool :=
  (-2147483648 <=? v) && (v <=? 2147483647).

(** [datetime.datetime(year, month, day, 0, 0, 0)]: [OverflowError] for
    an argument that is no C [int], [ValueError] for one out of range. *)
Definition new_datetime (year month day : Z) : result pydatetime :=
  if negb (fits_c_int year && fits_c_int month && fits_c_int day)
  then Raise OverflowError
  else
    if (1 <=? year) && (year <=? 9999) && (1 <=? month) && (month <=? 12)
       && (1 <=? day) && (day <=? days_in_month year month)
    then Ok {| ordinal := ymd2ord year month day; second := 0 |}
    else Raise ValueError.

(** [dt + datetime.timedelta(seconds=s)] *)
Definition add_seconds (dt : pydatetime) (s : Z) : result pydatetime :=
  let t := second dt + s in
  let o := ordinal dt + t / 86400 in
  if (0 <? o) && (o <=? 3652059)
  then Ok {| ordinal := o; second := t mod 86400 |}
  else Raise OverflowError.

(** [int(x)] of a float: towards zero; [nan] and the infinities have no
    integer. *)
Definition to_int (x : f64) : result Z :=
  match x with
  | Fin q => Ok (if qc_ltb q 0%Qc then Qceiling q else Qfloor q)
  | NaN => Raise ValueError
  | PInf | NInf => Raise OverflowError
  end.

(** [f] on every element, left to right, until one raises *)
Fixpoint traverse {A B : Type} (f : A -> result B) (l : list A)
    : result (list B) :=
  match l with
  | [] => Ok []
  | x :: rest => y ← f x; ys ← traverse f rest; Ok (y :: ys)
  end.

(** ** Level 2 files *)

Module Cal2.

(** What pyhdf reads along an axis of length [len] for the slice
    [start:stop] ([None]: a bound that is not given): the first index and
    the count.  A bound that is 0 counts as not given, a negative bound
    is taken from the end and the stop is clipped to [len]; the library
    refuses a read that starts before the axis or ends beyond it.  A
    count that is not positive, of an empty or a reversed range, is taken
    to be refused as well. *)
Definition sds_axis (len : Z) (start stop : option Z) : result (nat * nat) :=
  let beg := match start with
             | Some b => if b =? 0 then 0 else if b <? 0 then b + len else b
             | None => 0
             end in
  let en := match stop with
            | Some e => if e =? 0 then len else if e <? 0 then e + len else e
            | None => len
            end in
  let en := Z.min en len in
  let cnt := en - beg in
  if (beg <? 0) || (len <=? beg + (Z.abs cnt - 1)) || (cnt <=? 0)
  then Raise HDF4Error
  else Ok (Z.to_nat beg, Z.to_nat cnt).

(** [hdfvar[start:stop]] and [hdfvar[start:stop, :]] of a data set *)
Definition sds_getitem (hdfvar : ndarray) (start stop : option Z)
    : result ndarray :=
  match hdfvar with
  | Arr1 v =>
      '(beg, cnt) ← sds_axis (Z.of_nat (length v)) start stop;
      Ok (Arr1 (take cnt (drop beg v)))
  | Arr2 rows =>
      '(beg, cnt) ← sds_axis (Z.of_nat (length rows)) start stop;
      _ ← sds_axis (Z.of_nat (ncols rows)) None None;
      Ok (Arr2 (take cnt (drop beg rows)))
  | Arr0 _ => Raise IndexError
  end.

(** internal helping func to read a variable (1D or 2D) in HDF file *)
Definition _read_var (self : Cal) (var : string) (idx : option (Z * Z))
    : result ndarray :=
  match hdf self with
  | None => Raise AttributeError
  | Some sd =>
      match sd !! var with
      | None => Raise HDF4Error
      | Some hdfvar =>
          match idx with
          | None => Raise TypeError
          | Some (i0, i1) =>
              if (i0 =? 0) && (i1 =? -1) then sds_getitem hdfvar None None
              else sds_getitem hdfvar (Some i0) (Some i1)
          end
      end
  end.

(** [a[:, j]] *)
Definition column (a : ndarray) (j : nat) : result (list f64) :=
  match a with
  | Arr2 rows =>
      traverse (fun r : list f64 =>
                  match r !! j with
                  | Some x => Ok x
                  | None => Raise IndexError
                  end) rows
  | _ => Raise IndexError
  end.

(** Returns utc time value (decimal time) *)
Definition utc_time (self : Cal) (idx : option (Z * Z))
    : result (list f64) :=
  a ← _read_var self "Profile_UTC_Time" idx;
  column a 1.

(** [(u - np.floor(u)) * 24. * 3600.] *)
Definition seconds_into_day (u : f64) : f64 :=
  mul (mul (sub u (floor u)) (of_Z 24)) (of_Z 3600).

(** The body of the loop of [datetime] *)
Definition datetime_body (u : f64) : result pydatetime :=
  let y := floor (div u (of_Z 10000)) in
  let m := floor (div (sub u (mul y (of_Z 10000))) (of_Z 100)) in
  let d := floor (sub (sub u (mul y (of_Z 10000))) (mul m (of_Z 100))) in
  y ← to_int y;
  let y := y + 2000 in
  m ← to_int m;
  d ← to_int d;
  seconds_into_day ← to_int (seconds_into_day u);
  date ← new_datetime y m d;
  add_seconds date seconds_into_day.

(** Returns an array of datetime objects based on utc_time values *)
Definition datetime_of_utc (utc : list f64) : result (list pydatetime) :=
  traverse datetime_body utc.

Definition datetime (self : Cal) (idx : option (Z * Z))
    : result (list pydatetime) :=
  utc ← utc_time self idx;
  datetime_of_utc utc.

Definition _decdate_to_ymd (decdate : f64) : f64 * f64 * f64 :=
  let year := floor (div decdate (of_Z 10000)) in
  let remainder := sub decdate (mul year (of_Z 10000)) in
  let month := floor (div remainder (of_Z 100)) in
  let day := floor (sub remainder (mul month (of_Z 100))) in
  (add year (of_Z 2000), month, day).

(** [datetime.datetime(int(y), int(m), int(d), 0, 0, 0)] *)
Definition datetime_of_ymd (ymd : f64 * f64 * f64) : result pydatetime :=
  let '(y, m, d) := ymd in
  y ← to_int y;
  m ← to_int m;
  d ← to_int d;
  new_datetime y m d.

(** orbit spans a single date, we can be a little faster *)
Definition datetime2_single_date (ymd0 : f64 * f64 * f64)
    (seconds_into_day : list f64) : result (list pydatetime) :=
  date ← datetime_of_ymd ymd0;
  deltas ← traverse to_int seconds_into_day;
  traverse (add_seconds date) deltas.

(** orbits spans more than a day, we have to compute everything *)
Definition datetime2_multi_date (utc seconds_into_day : list f64)
    : result (list pydatetime) :=
  traverse (fun '(ymd, ss) =>
              date ← datetime_of_ymd ymd;
              ss ← to_int ss;
              add_seconds date ss)
           (zip (map _decdate_to_ymd utc) seconds_into_day).

(** Which branch [datetime2] takes: [d0 == d1] on the first and the last
    sample. *)
Definition single_date (first last : f64) : bool :=
  eqb (_decdate_to_ymd first).2 (_decdate_to_ymd last).2.

Definition datetime2_of_utc (utc : list f64) : result (list pydatetime) :=
  let seconds_into_day := map seconds_into_day utc in
  (* first let's check if the orbit spans more than a single date *)
  match utc !! 0%nat, last utc with
  | Some first, Some last =>
      if single_date first last then
        datetime2_single_date (_decdate_to_ymd first) seconds_into_day
      else
        datetime2_multi_date utc seconds_into_day
  | _, _ => Raise IndexError
  end.

Definition datetime2 (self : Cal) (idx : option (Z * Z))
    : result (list pydatetime) :=
  utc ← utc_time self idx;
  datetime2_of_utc utc.

(** Returns latitude for profiles: the middle one of the three values of
    a level 2 vector. *)
Definition lat (self : Cal) (idx : option (Z * Z)) : result (list f64) :=
  a ← _read_var self "Latitude" idx;
  column a 1.

(** Returns longitude for profiles. *)
Definition lon (self : Cal) (idx : option (Z * Z)) : result (list f64) :=
  a ← _read_var self "Longitude" idx;
  column a 1.

(** Returns longitude and latitude for profiles. *)
Definition coords (self : Cal) (idx : option (Z * Z))
    : result (list f64 * list f64) :=
  lat ← (a ← _read_var self "Latitude" idx; column a 1);
  lon ← (a ← _read_var self "Longitude" idx; column a 1);
  Ok (lon, lat).

(** returns profile time (TAI) *)
Definition time (self : Cal) (idx : option (Z * Z)) : result ndarray :=
  _read_var self "Profile_Time" idx.

(** Returns the ancillary tropopause height, in km, for profiles. *)
Definition tropopause_height (self : Cal) (idx : option (Z * Z))
    : result (list f64) :=
  a ← _read_var self "Tropopause_Height" idx;
  column a 0.

(** Returns the number of layer found by profile *)
Definition layers_number (self : Cal) (idx : option (Z * Z))
    : result (list f64) :=
  a ← _read_var self "Number_Layers_Found" idx;
  column a 0.

(** [row[k::6]] *)
Fixpoint every_sixth (k : nat) (row : list f64) : list f64 :=
  match row with
  | [] => []
  | x :: rest =>
      match k with
      | O => x :: every_sixth 5 rest
      | S k' => every_sixth k' rest
      end
  end.

(** [var[:, k::6]] *)
Definition columns_from (k : nat) (var : ndarray)
    : result (list (list f64)) :=
  match var with
  | Arr2 rows => Ok (map (every_sixth k) rows)
  | _ => Raise IndexError
  end.

(** [Cal2.statistics_532]: [_read_var] is called without [idx]. *)
Definition statistics_532 (self : Cal)
    : result (gmap string (list (list f64))) :=
  var ← _read_var self "Attenuated_Backscatter_Statistics_532" None;
  vmin ← columns_from 0 var;
  vmax ← columns_from 1 var;
  vmean ← columns_from 2 var;
  vstd ← columns_from 3 var;
  centroid ← columns_from 4 var;
  skewness ← columns_from 5 var;
  Ok (<["skewness" := skewness]>
        (<["centroid" := centroid]>
           (<["std" := vstd]>
              (<["mean" := vmean]>
                 (<["max" := vmax]> (<["min" := vmin]> ∅)))))).

(** The feature classification flags of an array of layers, after
    [f = self.flag(idx=idx)]: 16-bit unsigned integers. *)

(** type flag : bits 1 to 3 *)
Definition layer_type (f : list (list Z)) : list (list Z) :=
  map (map (fun x => Z.land x 7)) f.

(** subtype flag : bits 10 to 12 *)
Definition layer_subtype (f : list (list Z)) : list (list Z) :=
  map (map (fun x => Z.shiftr (Z.land x 3584) 9)) f.

Definition layer_type_qa (f : list (list Z)) : list (list Z) :=
  map (map (fun x => Z.shiftr (Z.land x 24) 3)) f.

(** 96 = 0b1100000, bits 6 to 7 *)
Definition phase (f : list (list Z)) : list (list Z) :=
  map (map (fun x => Z.shiftr (Z.land x 96) 5)) f.

Definition phase_qa (f : list (list Z)) : list (list Z) :=
  map (map (fun x => Z.shiftr (Z.land x 384) 7)) f.

End Cal2.

(** ** Level 1 timestamps *)

(** What [Cal1.datetimes] returns: [[]], [None] or an array of
    [datetime] objects. *)
Inductive pytimes : Type :=
| TEmptyList
| TNone
| TArr (l : list pydatetime).

(** [Cal1.datetimes]: the loop over [utc] has the body of the loop of
    [Cal2.datetime]. *)
Definition datetimes (self : Cal) (navg : Z) : result pytimes :=
  if navg =? 0 then Ok TEmptyList
  else
    utc ← Cal1.utc_time self navg None;
    match utc with
    | PyNone => Ok TNone
    | PyEmptyList => Ok (TArr [])
    | PyArr (Arr1 l) => l ← traverse Cal2.datetime_body l; Ok (TArr l)
    | PyArr (Arr2 []) => Ok (TArr [])
    | PyArr _ => Raise TypeError
    end.

(** * Notions of the specification *)

(** The samples of block [i]: the indices [i*navg .. i*navg + navg - 2]. *)
Definition block {A : Type} (l : list A) (navg i : nat) : list A :=
  take (navg - 1)%nat (drop (i * navg)%nat l).

(** A sample [x] of a block, with its entry [m] of the validity mask,
    survives when it is not the sentinel (if there is one), its shot is
    valid and it is [> -999]. *)
Definition survives (missing : option f64) (x m : f64) : bool :=
  match missing with
  | None => true
  | Some s => neb x s
  end && neb m zero && gtb x threshold_invalid.

Definition survivors (missing : option f64) (blk mask : list f64)
    : list f64 :=
  map fst (List.filter (fun xm => survives missing xm.1 xm.2) (zip blk mask)).

(** The value of a block of the vector reduction: the mean of its
    survivors; without survivors, the flag [-9999] when no sentinel is
    given and [nan] when one is. *)
Definition block_value (missing : option f64) (blk mask : list f64) : f64 :=
  match survivors missing blk mask with
  | [] => match missing with
          | None => flag_invalid
          | Some _ => NaN
          end
  | s => mean s
  end.

(** The mask when none is given: every shot is valid. *)
Definition all_valid (n : nat) : list f64 := replicate n one.

(** Number of mask-valid members of a block. *)
Definition valid_count (mask : list f64) : nat :=
  length (List.filter (fun m => neb m zero) mask).

(** The shots of a block that pass the mask. *)
Definition valid_shots {A : Type} (blk : list A) (mask : list f64) : list A :=
  select blk (map (fun m => neb m zero) mask).

(** Column [j] of a 2-d array. *)
Definition column_of (j : nat) (rows : list (list f64)) : list f64 :=
  omap (fun r : list f64 => r !! j) rows.

(** Number of samples [> -999] in column [j]. *)
Definition count_valid_col (j : nat) (rows : list (list f64)) : nat :=
  length (List.filter (fun x => gtb x threshold_invalid) (column_of j rows)).

(** Column [j] of the average of the shots of a block: the flag when no
    sample is [> -999]; else the sum of the column, the samples [< -999]
    counting for zero, over the number of samples [> -999]. *)
Definition column_value (shots : list (list f64)) (j : nat) : f64 :=
  if Nat.eqb (count_valid_col j shots) 0 then flag_invalid
  else div (sum (column_of j (zero_invalid shots)))
           (of_nat (count_valid_col j shots)).

(** The row of a block of the array reduction without sentinel. *)
Definition array_block_value (width : nat) (blk : list (list f64))
    (mask : list f64) : list f64 :=
  if Nat.eqb (valid_count mask) 0 then replicate width flag_invalid
  else map (column_value (valid_shots blk mask)) (seq 0 width).

(** A 2-d array whose rows all have [width] columns. *)
Definition rectangular (width : nat) (rows : list (list f64)) : Prop :=
  Forall (fun r => length r = width) rows.

(** The mask that a reduction uses: the one given, or every shot
    valid. *)
Definition mask_of (n : nat) (valid : option (list f64)) : list f64 :=
  default (all_valid n) valid.


(** The entries of an array, row after row. *)
Definition flat (a : ndarray) : list f64 :=
  match a with
  | Arr0 x => [x]
  | Arr1 v => v
  | Arr2 rows => concat rows
  end.

(** The moving window of profile [i]: the indices [j] with
    [max(0, i - navgh) <= j < min(nprof - 1, i + navgh)]. *)
Definition window (nprof : nat) (navgh : Z) (i : nat) : list nat :=
  List.filter
    (fun j => (Z.max 0 (Z.of_nat i - navgh) <=? Z.of_nat j)
              && (Z.of_nat j <? Z.min (Z.of_nat nprof - 1)
                                      (Z.of_nat i + navgh)))
    (seq 0 nprof).

(** The values of a reference-band profile at the indices of a window;
    a masked entry is no value. *)
Definition window_values (profile : list (option f64)) (w : list nat)
    : list f64 :=
  omap (fun j => mjoin (profile !! j)) w.

(** Inside the bound interval of the orbit type, ends excluded. *)
Definition inside_bounds (z : orbit_type) (v : f64) : bool :=
  gtb v (iatb_bounds z).1 && ltb v (iatb_bounds z).2.

(** The levels of the reference band: [(alt >= zmin) & (alt <= zmax)]. *)
Definition reference_band (alt : list f64) (zmin zmax : f64) : list bool :=
  map (fun a => geb a zmin && leb a zmax) alt.

(** The samples that are fit for the calibration: of atb, the finite
    ones that are not larger in magnitude than the maximum molecular atb
    of the orbit type; of mol, the finite ones that are not negative. *)
Definition atb_fit (z : orbit_type) (x : f64) : bool :=
  isfinite x && negb (gtb (abs x) (atb_max z)).

Definition mol_fit (x : f64) : bool :=
  isfinite x && negb (ltb x zero).

(** The reference-band value of a profile: the mean of its fit samples
    at the levels of the band, and no value when there is none. *)
Definition reference_mean (fit : f64 -> bool) (band : list bool)
    (row : list f64) : option f64 :=
  match List.filter fit (select row band) with
  | [] => None
  | kept => Some (mean kept)
  end.

(** The reference-band values of the profiles of a 2-d array, given by
    its rows. *)
Definition reference_profile (fit : f64 -> bool) (alt : list f64)
    (zmin zmax : f64) (rows : list (list f64)) : list (option f64) :=
  map (reference_mean fit (reference_band alt zmin zmax)) rows.

(** What [mol_calibration_coef] computes once its two arrays are
    screened. *)
Definition coef_of_screened (z : orbit_type) (alt : list f64)
    (zmin zmax : f64) (navgh : Z) (atb mol : ndarray) : result (list f64) :=
  atb_calib_profile ← calib_profile atb (reference_band alt zmin zmax);
  mol_calib_profile ← calib_profile mol (reference_band alt zmin zmax);
  nprof ← size0 mol;
  moving_average z navgh nprof atb_calib_profile mol_calib_profile.

(** The fields of a finite decimal date [YYMMDD.ffffff]: the year from
    2000, the month and the day of the month. *)
Definition year_of (q : Qc) : Z :=
  Qfloor (q / Q2Qc (inject_Z 10000))%Qc.

Definition remainder_of (q : Qc) : Qc :=
  (q + - (Q2Qc (inject_Z (year_of q)) * Q2Qc (inject_Z 10000)))%Qc.

Definition month_of (q : Qc) : Z :=
  Qfloor (remainder_of q / Q2Qc (inject_Z 100))%Qc.

Definition day_of (q : Qc) : Z :=
  Qfloor (remainder_of q
          + - (Q2Qc (inject_Z (month_of q)) * Q2Qc (inject_Z 100)))%Qc.

(** A date of the calendar of [datetime]: years 1 to 9999. *)
Definition calendar_date (y m d : Z) : Prop :=
  1 <= y <= 9999 /\ 1 <= m <= 12 /\ 1 <= d <= days_in_month y m.

(** A sequence in time order. *)
Definition ordered (utc : list f64) : Prop :=
  StronglySorted (fun x y => leb x y = true) utc.

(** What both functions compute for one sample: the date of its fields
    plus its seconds into the day. *)
Definition datetime_of_sample (u : f64) : result pydatetime :=
  date ← Cal2.datetime_of_ymd (Cal2._decdate_to_ymd u);
  ss ← to_int (Cal2.seconds_into_day u);
  add_seconds date ss.

(** The whole seconds into the day of a finite sample. *)
Definition whole_seconds (u : f64) : Z :=
  match to_int (Cal2.seconds_into_day u) with
  | Ok s => s
  | Raise _ => 0
  end.

(** The entry [a[i, j]] of a 2-d array given by its rows. *)
Definition entry {A : Type} (a : list (list A)) (i j : nat) : option A :=
  a !! i ≫= fun row => row !! j.

(** The exception of a level 2 read that is given no [idx]: the file is
    closed, or it has no such variable, or [idx[0]] is asked of [None]. *)
Definition no_idx_error (self : Cal) (var : string) : exn :=
  match hdf self with
  | None => AttributeError
  | Some sd =>
      match sd !! var with
      | None => HDF4Error
      | Some _ => TypeError
      end
  end.

(** * Properties *)

(** ** Loops that fill an array *)

Lemma bind_Ok {A B : Type} (f : A -> result B) (a : A) :
  (Ok a ≫= f) = f a.
Proof. reflexivity. Qed.

Lemma fold_insert_lookup {A : Type} (g : nat -> A) (m k : nat) (v : list A)
    (i : nat) :
  fold_left (fun v j => <[j := g j]> v) (seq k m) v !! i =
  if decide (k <= i < k + m /\ i < length v)%nat then Some (g i) else v !! i.
Proof.
  revert k v. induction m as [|m IH]; intros k v; simpl.
  - case_decide; [lia | done].
  - rewrite IH, length_insert.
    destruct (decide (i = k)) as [->|Hne].
    + repeat case_decide; try lia; try done.
      * rewrite list_lookup_insert_eq by lia. done.
      * rewrite list_insert_ge by lia. done.
    + rewrite list_lookup_insert_ne by done.
      repeat case_decide; try lia; done.
Qed.

(** A loop whose body stores [g i] at index [i] of an array of [n] cells
    computes [g] on [0 .. n-1]. *)
Lemma for_in_insert {A : Type} (g : nat -> A)
    (body : nat -> list A -> result (list A)) (n : nat) (d : A) :
  (forall i v, (i < n)%nat -> body i v = Ok (<[i := g i]> v)) ->
  for_in (seq 0 n) body (replicate n d) = Ok (map g (seq 0 n)).
Proof.
  intros Hbody.
  assert (Hgen : forall m k v, (k + m <= n)%nat ->
    for_in (seq k m) body v
    = Ok (fold_left (fun v j => <[j := g j]> v) (seq k m) v)).
  { induction m as [|m IH]; intros k v Hk; simpl; [done|].
    rewrite Hbody by lia. rewrite bind_Ok. apply IH. lia. }
  rewrite Hgen by lia. f_equal.
  apply list_eq. intros i.
  rewrite fold_insert_lookup, length_replicate.
  change (map g (seq 0 n)) with (g <$> seq 0 n).
  rewrite list_lookup_fmap.
  destruct (decide (i < n)%nat) as [Hi|Hi].
  - rewrite lookup_seq_lt by done. simpl.
    case_decide; [done | lia].
  - rewrite lookup_seq_ge by lia. simpl.
    case_decide; [lia |]. apply lookup_replicate_None. lia.
Qed.

Lemma map_seq_lookup {A : Type} (g : nat -> A) (n i : nat) :
  (i < n)%nat -> map g (seq 0 n) !! i = Some (g i).
Proof.
  intros Hi. change (map g (seq 0 n)) with (g <$> seq 0 n).
  rewrite list_lookup_fmap, lookup_seq_lt by done. reflexivity.
Qed.

(** ** Slices *)

Lemma py_slice_range {A : Type} (l : list A) (a b : nat) :
  (a <= b <= length l)%nat ->
  py_slice l (Z.of_nat a) (Z.of_nat b) = take (b - a) (drop a l).
Proof.
  intros H. unfold py_slice, slice_bound.
  destruct (Z.ltb_spec (Z.of_nat a) 0); [lia|].
  destruct (Z.ltb_spec (Z.of_nat b) 0); [lia|].
  rewrite !Z.min_r, !Z.max_r by lia.
  replace (Z.to_nat (Z.of_nat b - Z.of_nat a)) with (b - a)%nat by lia.
  rewrite Nat2Z.id. reflexivity.
Qed.

Lemma block_count_bound (len i : nat) (navg : Z) :
  2 <= navg -> (i < Z.to_nat (Z.of_nat len / navg))%nat ->
  (i * Z.to_nat navg + Z.to_nat navg <= len)%nat.
Proof.
  intros Hn Hi.
  assert (H0 : 0 <= Z.of_nat len / navg) by (apply Z.div_pos; lia).
  assert (H1 : navg * (Z.of_nat len / navg) <= Z.of_nat len)
    by (apply Z.mul_div_le; lia).
  nia.
Qed.

Lemma py_slice_block {A : Type} (l : list A) (navg : Z) (i : nat) :
  2 <= navg -> (i < Z.to_nat (Z.of_nat (length l) / navg))%nat ->
  py_slice l (Z.of_nat i * navg) (Z.of_nat i * navg + navg - 1)
  = block l (Z.to_nat navg) i.
Proof.
  intros Hn Hi. pose proof (block_count_bound _ _ _ Hn Hi) as Hb.
  replace (Z.of_nat i * navg) with (Z.of_nat (i * Z.to_nat navg)) by lia.
  replace (Z.of_nat (i * Z.to_nat navg) + navg - 1)
    with (Z.of_nat (i * Z.to_nat navg + (Z.to_nat navg - 1))) by lia.
  rewrite py_slice_range by lia. unfold block. f_equal. lia.
Qed.

Lemma block_length {A : Type} (l : list A) (navg : Z) (i : nat) :
  2 <= navg -> (i < Z.to_nat (Z.of_nat (length l) / navg))%nat ->
  length (block l (Z.to_nat navg) i) = (Z.to_nat navg - 1)%nat.
Proof.
  intros Hn Hi. pose proof (block_count_bound _ _ _ Hn Hi) as Hb.
  unfold block. rewrite length_take, length_drop. lia.
Qed.

Lemma block_lookup {A : Type} (l : list A) (navg i k : nat) :
  (k < navg - 1)%nat -> block l navg i !! k = l !! (i * navg + k)%nat.
Proof.
  intros Hk. unfold block. rewrite lookup_take_lt by done.
  apply lookup_drop.
Qed.

Lemma block_replicate {A : Type} (x : A) (len : nat) (navg : Z) (i : nat) :
  2 <= navg -> (i < Z.to_nat (Z.of_nat len / navg))%nat ->
  block (replicate len x) (Z.to_nat navg) i
  = replicate (Z.to_nat navg - 1) x.
Proof.
  intros Hn Hi. pose proof (block_count_bound _ _ _ Hn Hi) as Hb.
  unfold block. rewrite drop_replicate, take_replicate. f_equal. lia.
Qed.

(** ** Boolean masks *)

Lemma select_zip_with {A B : Type} (f : A -> B -> bool) (vs : list A)
    (ms : list B) :
  length vs = length ms ->
  select vs (zip_with f vs ms)
  = map fst (List.filter (fun xm => f xm.1 xm.2) (zip vs ms)).
Proof.
  revert ms. induction vs as [|x vs IH]; intros [|m ms] Hlen;
    simpl in *; try done.
  destruct (f x m); simpl; rewrite IH by lia; done.
Qed.

Lemma count_true_zip_with {A B : Type} (f : A -> B -> bool) (vs : list A)
    (ms : list B) :
  count_true (zip_with f vs ms)
  = length (List.filter (fun xm => f xm.1 xm.2) (zip vs ms)).
Proof.
  unfold count_true. revert ms.
  induction vs as [|x vs IH]; intros [|m ms]; simpl; try done.
  destruct (f x m); simpl; rewrite IH; done.
Qed.

Lemma zip_with_map_swap {A B C D E : Type} (f : C -> D -> E) (g : B -> C)
    (h : A -> D) (vs : list A) (ms : list B) :
  zip_with f (map g ms) (map h vs)
  = zip_with (fun x m => f (g m) (h x)) vs ms.
Proof.
  revert ms. induction vs as [|x vs IH]; intros [|m ms]; simpl; try done.
  by rewrite IH.
Qed.

Lemma zip_with_and3 {A B : Type} (ps pv : A -> bool) (pm : B -> bool)
    (vs : list A) (ms : list B) :
  zip_with andb (zip_with andb (map ps vs) (map pm ms)) (map pv vs)
  = zip_with (fun x m => ps x && pm m && pv x) vs ms.
Proof.
  revert ms. induction vs as [|x vs IH]; intros [|m ms]; simpl; try done.
  by rewrite IH.
Qed.

Lemma broadcast2_same_length {A B C : Type} (f : A -> B -> C) (a : list A)
    (b : list B) :
  length a = length b -> broadcast2 f a b = Ok (zip_with f a b).
Proof.
  intros H. unfold broadcast2. rewrite H, Nat.eqb_refl. done.
Qed.

Lemma mask_index_same_length {A : Type} (l : list A) (idx : list bool) :
  length l = length idx -> mask_index l idx = Ok (select l idx).
Proof.
  intros H. unfold mask_index. rewrite H, Nat.eqb_refl. done.
Qed.

(** ** The vector reduction, block by block *)

Lemma squeeze_vector (l : list f64) :
  length l <> 1%nat -> squeeze (Arr1 l) = Arr1 l.
Proof. destruct l as [|x [|y l]]; simpl; done. Qed.

Lemma _vector_average_body_value (l valid : list f64) (navg : Z)
    (missing : option f64) (i : nat) (v : list f64) :
  2 <= navg -> length valid = length l ->
  (i < Z.to_nat (Z.of_nat (length l) / navg))%nat ->
  _vector_average_body l valid navg missing i v
  = Ok (<[i := block_value missing (block l (Z.to_nat navg) i)
                           (block valid (Z.to_nat navg) i)]> v).
Proof.
  intros Hn Hlen Hi. unfold _vector_average_body.
  rewrite (py_slice_block l), (py_slice_block valid) by (rewrite ?Hlen; done).
  set (vs := block l (Z.to_nat navg) i).
  set (ms := block valid (Z.to_nat navg) i).
  assert (Hvm : length vs = length ms).
  { unfold vs, ms. rewrite !block_length by (rewrite ?Hlen; done). done. }
  unfold block_value, survivors.
  destruct missing as [s|].
  - rewrite broadcast2_same_length by (rewrite !length_map; lia).
    rewrite bind_Ok.
    rewrite broadcast2_same_length
      by (rewrite !length_zip_with, !length_map; lia).
    rewrite bind_Ok.
    rewrite zip_with_and3, count_true_zip_with.
    rewrite mask_index_same_length by (rewrite length_zip_with; lia).
    rewrite bind_Ok, select_zip_with by done.
    unfold survives. simpl.
    destruct (List.filter _ (zip vs ms)); simpl; done.
  - rewrite broadcast2_same_length by (rewrite !length_map; lia).
    rewrite bind_Ok, zip_with_map_swap, count_true_zip_with.
    rewrite mask_index_same_length by (rewrite length_zip_with; lia).
    rewrite bind_Ok, select_zip_with by done.
    unfold survives. simpl.
    destruct (List.filter _ (zip vs ms)); simpl; done.
Qed.

(** Number of blocks: [floor(N / navg)]. *)
Lemma _vector_average_blocks (l : list f64) (navg : Z)
    (missing : option f64) (valid : option (list f64)) :
  2 <= navg -> length l <> 1%nat ->
  length (default (all_valid (length l)) valid) = length l ->
  _vector_average (Arr1 l) navg missing valid
  = Ok (Arr1 (map (fun i => block_value missing
                               (block l (Z.to_nat navg) i)
                               (block (default (all_valid (length l)) valid)
                                      (Z.to_nat navg) i))
                  (seq 0 (Z.to_nat (Z.of_nat (length l) / navg))))).
Proof.
  intros Hn Hl Hv. unfold _vector_average.
  rewrite squeeze_vector by done.
  destruct (Z.eqb_spec navg 1); [lia|].
  destruct (Z.eqb_spec navg 0); [lia|].
  assert (H0 : 0 <= Z.of_nat (length l) / navg) by (apply Z.div_pos; lia).
  destruct (Z.ltb_spec (Z.of_nat (length l) / navg) 0); [lia|].
  fold (all_valid (length l)).
  erewrite for_in_insert; [reflexivity|].
  intros i v Hi. by apply _vector_average_body_value.
Qed.

Lemma block_all_valid (len : nat) (navg : Z) (i : nat) :
  2 <= navg -> (i < Z.to_nat (Z.of_nat len / navg))%nat ->
  block (all_valid len) (Z.to_nat navg) i = all_valid (Z.to_nat navg - 1).
Proof. apply block_replicate. Qed.

(** With every shot valid and no sentinel, the survivors are the samples
    [> -999]. *)
Lemma survivors_all_valid (blk : list f64) :
  survivors None blk (all_valid (length blk))
  = List.filter (fun x => gtb x threshold_invalid) blk.
Proof.
  unfold survivors, all_valid.
  induction blk as [|x blk IH]; [done|].
  cbn [length replicate zip_with List.filter].
  unfold survives at 1. cbn [fst snd].
  replace (neb one zero) with true by (vm_compute; reflexivity).
  cbn [andb].
  destruct (gtb x threshold_invalid); cbn [map fst]; rewrite IH; done.
Qed.

(** ** Arithmetic of means *)

Lemma of_nat_S (k : nat) :
  Q2Qc (inject_Z (Z.of_nat (S k)))
  = (Q2Qc (inject_Z (Z.of_nat k)) + Q2Qc (inject_Z 1))%Qc.
Proof.
  apply Qc_is_canon. rewrite Nat2Z.inj_succ. unfold Z.succ.
  unfold Qcplus, Q2Qc. cbn [this]. rewrite !Qred_correct.
  rewrite inject_Z_plus. reflexivity.
Qed.

(** ** Column sums *)

Lemma column_of_cons (j : nat) (r : list f64) (rows : list (list f64))
    (x : f64) :
  r !! j = Some x -> column_of j (r :: rows) = x :: column_of j rows.
Proof. intros H. unfold column_of. cbn [omap list_omap]. by rewrite H. Qed.

Lemma rectangular_lookup (w : nat) (r : list f64) (j : nat) :
  length r = w -> (j < w)%nat -> exists x, r !! j = Some x.
Proof.
  intros Hr Hj. destruct (r !! j) eqn:E; [eauto|].
  apply lookup_ge_None in E. lia.
Qed.

Lemma fold_zip_with_length {A B : Type} (f : A -> B -> A) (w : nat)
    (rows : list (list B)) (acc : list A) :
  Forall (fun r => length r = w) rows -> length acc = w ->
  length (fold_left (zip_with f) rows acc) = w.
Proof.
  intros Hrect. revert acc.
  induction Hrect as [|r rows Hr _ IH]; intros acc Hacc; simpl; [done|].
  apply IH. rewrite length_zip_with. lia.
Qed.

Lemma fold_zip_with_lookup {A : Type} (f : A -> f64 -> A) (w : nat)
    (rows : list (list f64)) (acc : list A) (j : nat) (a : A) :
  rectangular w rows -> length acc = w -> acc !! j = Some a ->
  fold_left (zip_with f) rows acc !! j
  = Some (fold_left f (column_of j rows) a).
Proof.
  intros Hrect. revert acc a.
  induction Hrect as [|r rows Hr _ IH]; intros acc a Hacc Hj; [done|].
  cbn [fold_left].
  assert (Hlt : (j < w)%nat) by (apply lookup_lt_Some in Hj; lia).
  destruct (rectangular_lookup w r j Hr Hlt) as [x Hx].
  rewrite (column_of_cons _ _ _ _ Hx). cbn [fold_left].
  apply IH.
  - rewrite length_zip_with. lia.
  - rewrite lookup_zip_with, Hj, Hx. done.
Qed.

Lemma sum_axis0_lookup (w : nat) (rows : list (list f64)) (j : nat) :
  rectangular w rows -> (j < w)%nat ->
  sum_axis0 w rows !! j = Some (sum (column_of j rows)).
Proof.
  intros Hrect Hj. unfold sum_axis0, sum.
  apply (fold_zip_with_lookup _ w); [done| by rewrite length_replicate |].
  by apply lookup_replicate_2.
Qed.

Lemma count_fold (l : list f64) (c : nat) :
  fold_left (fun c x => if gtb x threshold_invalid then S c else c) l c
  = (c + length (List.filter (fun x => gtb x threshold_invalid) l))%nat.
Proof.
  revert c. induction l as [|x l IH]; intros c; [simpl; lia|].
  cbn [fold_left List.filter].
  destruct (gtb x threshold_invalid); rewrite IH; cbn [length]; lia.
Qed.

Lemma npts_axis0_lookup (w : nat) (rows : list (list f64)) (j : nat) :
  rectangular w rows -> (j < w)%nat ->
  npts_axis0 w rows !! j = Some (count_valid_col j rows).
Proof.
  intros Hrect Hj. unfold npts_axis0, count_valid_col.
  erewrite (fold_zip_with_lookup
              (fun c x => if gtb x threshold_invalid then S c else c) w);
    [|done| by rewrite length_replicate | by apply lookup_replicate_2].
  by rewrite count_fold.
Qed.

Lemma zero_invalid_rectangular (w : nat) (rows : list (list f64)) :
  rectangular w rows -> rectangular w (zero_invalid rows).
Proof.
  unfold rectangular, zero_invalid. intros H.
  induction H as [|r rows Hr _ IH]; simpl; constructor; [|done].
  by rewrite length_map.
Qed.

Lemma select_Forall {A : Type} (P : A -> Prop) (l : list A)
    (idx : list bool) :
  Forall P l -> Forall P (select l idx).
Proof.
  intros H. revert idx. induction H as [|x l Hx _ IH]; intros [|b idx];
    simpl; try constructor.
  destruct b; [constructor|]; auto.
Qed.

Lemma block_Forall {A : Type} (P : A -> Prop) (l : list A) (navg i : nat) :
  Forall P l -> Forall P (block l navg i).
Proof. intros H. unfold block. by apply Forall_take, Forall_drop. Qed.

Lemma count_true_map (mask : list f64) :
  count_true (map (fun m => neb m zero) mask) = valid_count mask.
Proof.
  unfold count_true, valid_count.
  induction mask as [|m mask IH]; simpl; [done|].
  destruct (neb m zero); simpl; by rewrite IH.
Qed.

(** The row that the loop of [_array_average] computes for the surviving
    shots is, column by column, [column_value]. *)
Lemma array_row_columns (w : nat) (shots : list (list f64)) :
  rectangular w shots ->
  zip_with (fun x c => if Nat.eqb c 0 then flag_invalid else x)
    (zip_with (fun s c => div s (of_nat c))
       (sum_axis0 w (zero_invalid shots)) (npts_axis0 w shots))
    (npts_axis0 w shots)
  = map (column_value shots) (seq 0 w).
Proof.
  intros Hrect. apply list_eq. intros j.
  rewrite !lookup_zip_with.
  destruct (decide (j < w)%nat) as [Hj|Hj].
  - rewrite sum_axis0_lookup by (try apply zero_invalid_rectangular; done).
    rewrite npts_axis0_lookup by done.
    rewrite map_seq_lookup by done. reflexivity.
  - assert (Hn : npts_axis0 w shots !! j = None).
    { apply lookup_ge_None. unfold npts_axis0.
      rewrite (fold_zip_with_length _ w); [lia|done|].
      by rewrite length_replicate. }
    rewrite Hn.
    change (map (column_value shots) (seq 0 w)) with
      (column_value shots <$> seq 0 w).
    rewrite list_lookup_fmap, lookup_seq_ge by lia.
    destruct (sum_axis0 w (zero_invalid shots) !! j); reflexivity.
Qed.

Lemma _array_average_body_value (rows : list (list f64)) (valid : list f64)
    (navg : Z) (w : option (list f64)) (i : nat) (a : list (list f64)) :
  2 <= navg -> length valid = length rows ->
  rectangular (ncols rows) rows ->
  (i < Z.to_nat (Z.of_nat (length rows) / navg))%nat ->
  _array_average_body rows valid navg w None i a
  = Ok (<[i := array_block_value (ncols rows)
                 (block rows (Z.to_nat navg) i)
                 (block valid (Z.to_nat navg) i)]> a).
Proof.
  intros Hn Hlen Hrect Hi. unfold _array_average_body.
  rewrite (py_slice_block rows), (py_slice_block valid)
    by (rewrite ?Hlen; done).
  set (blk := block rows (Z.to_nat navg) i).
  set (mask := block valid (Z.to_nat navg) i).
  assert (Hbm : length blk = length mask).
  { unfold blk, mask. rewrite !block_length by (rewrite ?Hlen; done). done. }
  unfold array_block_value, set_row. rewrite count_true_map.
  destruct (Nat.eqb (valid_count mask) 0); [done|].
  rewrite mask_index_same_length by (rewrite length_map; done).
  rewrite bind_Ok. fold (valid_shots blk mask).
  rewrite array_row_columns; [done|].
  apply select_Forall, block_Forall, Hrect.
Qed.

Lemma triangle_weights_Ok (navg : Z) :
  0 <= navg -> exists w, triangle_weights navg = Ok w.
Proof.
  intros H. unfold triangle_weights.
  destruct (Z.ltb_spec navg 0); [lia|]. eauto.
Qed.

Lemma _array_average_blocks (rows : list (list f64)) (navg : Z)
    (weighted : bool) (valid : option (list f64)) :
  2 <= navg -> squeeze (Arr2 rows) = Arr2 rows ->
  rectangular (ncols rows) rows ->
  length (default (all_valid (length rows)) valid) = length rows ->
  _array_average (Arr2 rows) navg weighted valid None
  = Ok (Arr2 (map (fun i => array_block_value (ncols rows)
                      (block rows (Z.to_nat navg) i)
                      (block (default (all_valid (length rows)) valid)
                             (Z.to_nat navg) i))
                  (seq 0 (Z.to_nat (Z.of_nat (length rows) / navg))))).
Proof.
  intros Hn Hsq Hrect Hv. unfold _array_average. rewrite Hsq.
  destruct (Z.eqb_spec navg 1); [lia|].
  assert (Hw : exists w, (if weighted && (navg mod 2 =? 1)
                          then w ← triangle_weights navg; Ok (Some w)
                          else Ok None) = Ok w).
  { destruct (weighted && (navg mod 2 =? 1)); [|eauto].
    destruct (triangle_weights_Ok navg) as [w ->]; [lia|]. eauto. }
  destruct Hw as [w ->]. rewrite bind_Ok.
  destruct (Z.eqb_spec navg 0); [lia|].
  assert (H0 : 0 <= Z.of_nat (length rows) / navg) by (apply Z.div_pos; lia).
  destruct (Z.ltb_spec (Z.of_nat (length rows) / navg) 0); [lia|].
  fold (all_valid (length rows)).
  erewrite for_in_insert; [reflexivity|].
  intros i a Hi. by apply _array_average_body_value.
Qed.

(** ** Blocks without a valid member *)








(** ** Constant inputs *)

Lemma gtb_not_ltb (x t : f64) : gtb x t = true -> ltb x t = false.
Proof.
  unfold gtb. destruct x as [a| | |], t as [b| | |]; simpl; try done.
  unfold qc_ltb, Qccompare. rewrite <- (Qcompare_antisym b a).
  destruct (Qcompare b a); simpl; done.
Qed.

Lemma filter_replicate_true {A : Type} (p : A -> bool) (x : A) (k : nat) :
  p x = true -> List.filter p (replicate k x) = replicate k x.
Proof.
  intros H. induction k as [|k IH]; simpl; [done|]. by rewrite H, IH.
Qed.

Lemma filter_replicate_false {A : Type} (p : A -> bool) (x : A) (k : nat) :
  p x = false -> List.filter p (replicate k x) = [].
Proof.
  intros H. induction k as [|k IH]; [done|].
  cbn [replicate List.filter]. by rewrite H.
Qed.

(** The block of a constant vector whose value is [> -999], with every
    shot valid and no sentinel: the mean of the copies. *)
Lemma block_value_constant (v : f64) (k : nat) :
  (0 < k)%nat -> gtb v threshold_invalid = true ->
  block_value None (replicate k v) (all_valid k) = mean (replicate k v).
Proof.
  intros Hk Hv. unfold block_value.
  pose proof (survivors_all_valid (replicate k v)) as Hs.
  rewrite length_replicate in Hs. rewrite Hs.
  rewrite filter_replicate_true by done.
  destruct k as [|k]; [lia|]. reflexivity.
Qed.

(** The block of a constant vector whose value is not [> -999]: the
    flag. *)
Lemma block_value_constant_invalid (v : f64) (k : nat) :
  gtb v threshold_invalid = false ->
  block_value None (replicate k v) (all_valid k) = flag_invalid.
Proof.
  intros Hv. unfold block_value.
  pose proof (survivors_all_valid (replicate k v)) as Hs.
  rewrite length_replicate in Hs. rewrite Hs.
  by rewrite filter_replicate_false.
Qed.

Lemma valid_count_all_valid (k : nat) : valid_count (all_valid k) = k.
Proof.
  unfold valid_count, all_valid. rewrite filter_replicate_true.
  - apply length_replicate.
  - vm_compute. reflexivity.
Qed.

Lemma valid_shots_all_valid {A : Type} (blk : list A) :
  valid_shots blk (all_valid (length blk)) = blk.
Proof.
  unfold valid_shots, all_valid.
  induction blk as [|r blk IH]; [done|].
  cbn [length replicate map select].
  replace (neb one zero) with true by (vm_compute; reflexivity).
  by rewrite IH.
Qed.

Lemma column_of_constant (v : f64) (k w j : nat) :
  (j < w)%nat -> column_of j (replicate k (replicate w v)) = replicate k v.
Proof.
  intros Hj. unfold column_of. induction k as [|k IH]; [done|].
  cbn [replicate omap list_omap].
  rewrite lookup_replicate_2 by done. by rewrite IH.
Qed.

Lemma zero_invalid_constant (v : f64) (k w : nat) :
  gtb v threshold_invalid = true ->
  zero_invalid (replicate k (replicate w v)) = replicate k (replicate w v).
Proof.
  intros Hv. unfold zero_invalid.
  assert (Hr : map (fun x => if ltb x threshold_invalid then zero else x)
                   (replicate w v) = replicate w v).
  { induction w as [|w IH]; [done|]. cbn [replicate map].
    by rewrite (gtb_not_ltb _ _ Hv), IH. }
  induction k as [|k IH]; [done|]. cbn [replicate map]. by rewrite Hr, IH.
Qed.

(** The row of a block of a constant array whose value is [> -999]:
    the mean of the copies in every column. *)
Lemma array_block_value_constant (v : f64) (k w : nat) :
  (0 < k)%nat -> gtb v threshold_invalid = true ->
  array_block_value w (replicate k (replicate w v)) (all_valid k)
  = replicate w (mean (replicate k v)).
Proof.
  intros Hk Hv. unfold array_block_value.
  rewrite valid_count_all_valid.
  destruct (Nat.eqb_spec k 0); [lia|].
  pose proof (valid_shots_all_valid (replicate k (replicate w v))) as Hs.
  rewrite length_replicate in Hs. rewrite Hs.
  apply list_eq. intros j.
  destruct (decide (j < w)%nat) as [Hj|Hj].
  - rewrite map_seq_lookup, lookup_replicate_2 by done. f_equal.
    unfold column_value, count_valid_col.
    rewrite zero_invalid_constant, column_of_constant by done.
    rewrite filter_replicate_true, length_replicate by done.
    destruct (Nat.eqb_spec k 0); [lia|].
    unfold mean. by rewrite length_replicate.
  - assert (replicate w (mean (replicate k v)) !! j = None) as ->
      by (apply lookup_replicate_None; lia).
    change (map ?f (seq 0 w)) with (f <$> seq 0 w).
    rewrite list_lookup_fmap, lookup_seq_ge by lia. done.
Qed.

(** The row of a block of a constant array whose value is not [> -999]:
    the flag in every column. *)
Lemma array_block_value_constant_invalid (v : f64) (k w : nat) :
  gtb v threshold_invalid = false ->
  array_block_value w (replicate k (replicate w v)) (all_valid k)
  = replicate w flag_invalid.
Proof.
  intros Hv. unfold array_block_value.
  rewrite valid_count_all_valid.
  destruct (Nat.eqb_spec k 0); [done|].
  pose proof (valid_shots_all_valid (replicate k (replicate w v))) as Hs.
  rewrite length_replicate in Hs. rewrite Hs.
  apply list_eq. intros j.
  destruct (decide (j < w)%nat) as [Hj|Hj].
  - rewrite map_seq_lookup, lookup_replicate_2 by done. f_equal.
    unfold column_value, count_valid_col.
    rewrite column_of_constant by done.
    by rewrite filter_replicate_false.
  - assert (replicate w flag_invalid !! j = None) as ->
      by (apply lookup_replicate_None; lia).
    change (map ?f (seq 0 w)) with (f <$> seq 0 w).
    rewrite list_lookup_fmap, lookup_seq_ge by lia. done.
Qed.

Lemma ncols_replicate (v : f64) (n w : nat) :
  (0 < n)%nat -> ncols (replicate n (replicate w v)) = w.
Proof. destruct n; [lia|]. intros _. simpl. apply length_replicate. Qed.

Lemma rectangular_replicate (v : f64) (n w : nat) :
  rectangular w (replicate n (replicate w v)).
Proof.
  unfold rectangular. apply Forall_replicate, length_replicate.
Qed.

(** ** C2 *)

(** Counterexample to C2: a constant vector of [-1000] with every shot
    valid and no sentinel reduces to [-9999], not to [-1000]. *)
Lemma constant_invalid_vector_counterexample :
  _vector_average (Arr1 (replicate 4 (of_Z (-1000)))) 2 None None
  = Ok (Arr1 (replicate 2 flag_invalid))
  /\ _vector_average (Arr1 (replicate 4 (of_Z (-1000)))) 2 None None
     <> Ok (Arr1 (replicate 2 (of_Z (-1000)))).
Proof.
  split; [vm_compute; reflexivity|].
  intros H.
  apply (f_equal (fun r => match r with
                           | Ok (Arr1 (Fin q :: _)) => Qnum (this q)
                           | _ => 0
                           end)) in H.
  vm_compute in H. discriminate.
Qed.

Lemma map_seq_constant {A : Type} (g : nat -> A) (x : A) (n : nat) :
  (forall i, (i < n)%nat -> g i = x) -> map g (seq 0 n) = replicate n x.
Proof.
  intros H. apply list_eq. intros i.
  destruct (decide (i < n)%nat) as [Hi|Hi].
  - rewrite map_seq_lookup, lookup_replicate_2 by done. f_equal. auto.
  - assert (replicate n x !! i = None) as ->
      by (apply lookup_replicate_None; lia).
    change (map g (seq 0 n)) with (g <$> seq 0 n).
    rewrite list_lookup_fmap, lookup_seq_ge by lia. done.
Qed.

(** C2, amended: for [navg >= 2], every shot valid and no sentinel, block
    [i] of the vector reduction and of the array reduction is computed
    from the [navg - 1] samples of indices [i*navg .. i*navg + navg - 2]
    only, the last index of the block being left out.  A constant input
    reduces to a constant output: of the mean of [navg - 1] copies of its
    value when that value is [> -999], which is the value itself only up
    to the rounding of the sum and of the division, and of the flag
    [-9999] when it is not.  (An input with an axis of length one does not
    pass the assertion on the squeezed input.) *)
Theorem block_excludes_last_index (l : list f64) (rows : list (list f64))
    (navg : Z) (weighted : bool) :
  2 <= navg -> length l <> 1%nat ->
  squeeze (Arr2 rows) = Arr2 rows -> rectangular (ncols rows) rows ->
  (exists v,
      _vector_average (Arr1 l) navg None None = Ok (Arr1 v)
      /\ length v = Z.to_nat (Z.of_nat (length l) / navg)
      /\ (forall i, (i < length v)%nat ->
            length (block l (Z.to_nat navg) i) = (Z.to_nat navg - 1)%nat
            /\ (forall k, (k < Z.to_nat navg - 1)%nat ->
                  block l (Z.to_nat navg) i !! k
                  = l !! (i * Z.to_nat navg + k)%nat)
            /\ v !! i = Some (block_value None (block l (Z.to_nat navg) i)
                                (all_valid (Z.to_nat navg - 1))))
      /\ (forall c, l = replicate (length l) c ->
            v = replicate (length v)
                  (if gtb c threshold_invalid
                   then mean (replicate (Z.to_nat navg - 1) c)
                   else flag_invalid)))
  /\ (exists a,
      _array_average (Arr2 rows) navg weighted None None = Ok (Arr2 a)
      /\ length a = Z.to_nat (Z.of_nat (length rows) / navg)
      /\ (forall i, (i < length a)%nat ->
            length (block rows (Z.to_nat navg) i) = (Z.to_nat navg - 1)%nat
            /\ (forall k, (k < Z.to_nat navg - 1)%nat ->
                  block rows (Z.to_nat navg) i !! k
                  = rows !! (i * Z.to_nat navg + k)%nat)
            /\ a !! i = Some (array_block_value (ncols rows)
                                (block rows (Z.to_nat navg) i)
                                (all_valid (Z.to_nat navg - 1))))
      /\ (forall c,
            rows = replicate (length rows) (replicate (ncols rows) c) ->
            a = replicate (length a)
                  (replicate (ncols rows)
                     (if gtb c threshold_invalid
                      then mean (replicate (Z.to_nat navg - 1) c)
                      else flag_invalid)))).
Proof.
  intros Hn Hl Hsq Hrect. split.
  - eexists. split.
    { apply _vector_average_blocks; [done|done|].
      apply length_replicate. }
    rewrite length_map, length_seq. split; [done|]. split.
    + intros i Hi. split; [by apply block_length|].
      split; [intros k Hk; by apply block_lookup|].
      rewrite map_seq_lookup by done. cbn [default].
      by rewrite block_all_valid.
    + intros c Hconst. apply map_seq_constant. intros i Hi.
      cbn [default]. rewrite block_all_valid by done.
      rewrite Hconst, block_replicate by done.
      destruct (gtb c threshold_invalid) eqn:Hc.
      * apply block_value_constant; [lia | done].
      * by apply block_value_constant_invalid.
  - eexists. split.
    { apply _array_average_blocks; [done|done|done|].
      apply length_replicate. }
    rewrite length_map, length_seq. split; [done|]. split.
    + intros i Hi. split; [by apply block_length|].
      split; [intros k Hk; by apply block_lookup|].
      rewrite map_seq_lookup by done. cbn [default].
      by rewrite block_all_valid.
    + intros c Hconst. apply map_seq_constant. intros i Hi.
      cbn [default]. rewrite block_all_valid by done.
      rewrite Hconst at 2. rewrite block_replicate by done.
      destruct (gtb c threshold_invalid) eqn:Hc.
      * apply array_block_value_constant; [lia | done].
      * by apply array_block_value_constant_invalid.
Qed.

Lemma block_excludes_last_index_witness :
  exists v a,
    _vector_average (Arr1 (replicate 10 (of_Z 7))) 3 None None = Ok (Arr1 v)
    /\ v = replicate 3 (of_Z 7)
    /\ _array_average (Arr2 (replicate 10 (replicate 2 (of_Z 7)))) 3 false
         None None = Ok (Arr2 a)
    /\ a = replicate 3 (replicate 2 (of_Z 7)).
Proof.
  destruct (block_excludes_last_index
              (replicate 10 (of_Z 7)) (replicate 10 (replicate 2 (of_Z 7)))
              3 false)
    as [[v [Hv [Hlv [_ Hvc]]]] [a [Ha [Hla [_ Hac]]]]].
  - lia.
  - simpl. lia.
  - reflexivity.
  - apply rectangular_replicate.
  - assert (Hm : (if gtb (of_Z 7) threshold_invalid
                  then mean (replicate (Z.to_nat 3 - 1) (of_Z 7))
                  else flag_invalid) = of_Z 7).
    { vm_compute. f_equal. apply Qc_is_canon. reflexivity. }
    exists v, a. split; [exact Hv|]. split.
    + rewrite (Hvc (of_Z 7)); [rewrite Hlv, Hm; reflexivity | reflexivity].
    + split; [exact Ha|].
      rewrite (Hac (of_Z 7)); [rewrite Hla, Hm; reflexivity | reflexivity].
Defined.

(** ** C4 *)

(** The survivors are the samples [x] of the block that, with the entry
    [m] of the mask at the same index, satisfy [survives]. *)
Lemma survivors_spec (missing : option f64) (blk mask : list f64) (x : f64) :
  In x (survivors missing blk mask) <->
  exists k m, blk !! k = Some x /\ mask !! k = Some m
              /\ survives missing x m = true.
Proof.
  unfold survivors. revert mask.
  induction blk as [|y blk IH]; intros mask.
  - simpl. split; [done|]. intros (k & m & H & _). done.
  - destruct mask as [|n mask].
    { simpl. split; [done|]. intros (k & m & _ & H & _). done. }
    cbn [zip_with List.filter fst snd].
    split.
    + destruct (survives missing y n) eqn:Hs; cbn [map fst In].
      * intros [<-|Hin].
        -- exists 0%nat, n. done.
        -- apply IH in Hin as (k & m & Hk & Hm & Hsv).
           exists (S k), m. done.
      * intros Hin. apply IH in Hin as (k & m & Hk & Hm & Hsv).
        exists (S k), m. done.
    + intros (k & m & Hk & Hm & Hsv). destruct k as [|k].
      * simpl in Hk, Hm. injection Hk as ->. injection Hm as ->.
        rewrite Hsv. left. done.
      * simpl in Hk, Hm.
        assert (Hin : In x (map fst (List.filter
                  (fun xm => survives missing xm.1 xm.2) (zip blk mask))))
          by (apply IH; eauto).
        destruct (survives missing y n); [right|]; done.
Qed.

Lemma survives_sentinel (s x m : f64) :
  survives (Some s) x m = true -> survives None x m = true.
Proof.
  unfold survives. destruct (neb x s); [done|]. discriminate.
Qed.

Lemma survivors_sentinel_nil (s : f64) (blk mask : list f64) :
  survivors None blk mask = [] -> survivors (Some s) blk mask = [].
Proof.
  unfold survivors. revert mask.
  induction blk as [|y blk IH]; intros [|n mask]; try done.
  cbn [zip_with List.filter fst snd]. intros H.
  destruct (survives (Some s) y n) eqn:E2.
  - apply survives_sentinel in E2. rewrite E2 in H. discriminate.
  - destruct (survives None y n); [discriminate|]. by apply IH.
Qed.

(** C4: with a sentinel, block [i] of the vector reduction is the mean of
    its survivors, which are the samples that are not the sentinel, are
    valid in the mask and are [> -999]; a block without survivors gets
    [nan] (the stored [None]), where the reduction without sentinel gives
    [-9999] to a block without survivors. *)
Theorem sentinel_block_survivors (l : list f64) (navg : Z) (missing : f64)
    (valid : option (list f64)) :
  2 <= navg -> length l <> 1%nat ->
  length (mask_of (length l) valid) = length l ->
  exists v u,
    _vector_average (Arr1 l) navg (Some missing) valid = Ok (Arr1 v)
    /\ _vector_average (Arr1 l) navg None valid = Ok (Arr1 u)
    /\ length v = Z.to_nat (Z.of_nat (length l) / navg)
    /\ length u = length v
    /\ float_of_None <> flag_invalid
    /\ forall i, (i < length v)%nat ->
         (forall x,
            In x (survivors (Some missing) (block l (Z.to_nat navg) i)
                    (block (mask_of (length l) valid) (Z.to_nat navg) i))
            <-> exists k m,
                  block l (Z.to_nat navg) i !! k = Some x
                  /\ block (mask_of (length l) valid) (Z.to_nat navg) i !! k
                     = Some m
                  /\ neb x missing = true /\ neb m zero = true
                  /\ gtb x threshold_invalid = true)
         /\ v !! i
            = Some (match survivors (Some missing)
                            (block l (Z.to_nat navg) i)
                            (block (mask_of (length l) valid)
                                   (Z.to_nat navg) i) with
                    | [] => float_of_None
                    | s => mean s
                    end)
         /\ (survivors None (block l (Z.to_nat navg) i)
               (block (mask_of (length l) valid) (Z.to_nat navg) i) = [] ->
             v !! i = Some float_of_None /\ u !! i = Some flag_invalid).
Proof.
  intros Hn Hl Hm.
  eexists. eexists. split; [by apply _vector_average_blocks|].
  split; [by apply _vector_average_blocks|].
  rewrite !length_map, !length_seq.
  split; [done|]. split; [done|]. split; [discriminate|].
  intros i Hi. fold (mask_of (length l) valid).
  rewrite !map_seq_lookup by done. split; [|split].
  - intros x. rewrite survivors_spec. unfold survives.
    split; intros (k & m & Hk & Hmk & H); exists k, m.
    + apply andb_prop in H as [H H3]. apply andb_prop in H as [H1 H2].
      done.
    + destruct H as (H1 & H2 & H3). by rewrite H1, H2, H3.
  - reflexivity.
  - intros Hnil. unfold block_value.
    by rewrite Hnil, (survivors_sentinel_nil _ _ _ Hnil).
Qed.

Lemma sentinel_block_survivors_witness :
  exists v u,
    _vector_average (Arr1 (map of_Z [-9999; 5; 3; 8; -9999; 2])) 3
      (Some (of_Z (-9999))) None = Ok (Arr1 v)
    /\ _vector_average (Arr1 (map of_Z [-9999; 5; 3; 8; -9999; 2])) 3
         None None = Ok (Arr1 u)
    /\ length v = 2%nat.
Proof.
  destruct (sentinel_block_survivors
              (map of_Z [-9999; 5; 3; 8; -9999; 2]) 3 (of_Z (-9999)) None)
    as (v & u & Hv & Hu & Hlv & _).
  - lia.
  - simpl. lia.
  - reflexivity.
  - exists v, u. split; [exact Hv|]. split; [exact Hu|].
    rewrite Hlv. reflexivity.
Defined.

(** ** C6 *)

(** Counterexample to C6: with [navg == 1] the reducers return the
    squeeze of their input, not their input: an array of shape (3, 1) comes
    back from the vector path as a vector of 3 samples; a vector of one
    sample, whose squeeze is 0-d, and an array of one profile, whose
    squeeze is 1-d, do not come back at all but fail the assertion. *)
Lemma navg_one_single_sample_counterexample :
  _vector_average (Arr2 [[of_Z 5]; [of_Z 6]; [of_Z 7]]) 1 None None
  = Ok (Arr1 [of_Z 5; of_Z 6; of_Z 7])
  /\ _vector_average (Arr1 [of_Z 5]) 1 None None = Raise AssertionError
  /\ _array_average (Arr2 [[of_Z 5; of_Z 6]]) 1 false None None
     = Raise AssertionError.
Proof. repeat split; reflexivity. Qed.

Lemma squeeze_rows (r r' : list f64) (rows : list (list f64)) :
  squeeze (Arr2 (r :: r' :: rows))
  = if Nat.eqb (length r) 1 then Arr1 (concat (r :: r' :: rows))
    else Arr2 (r :: r' :: rows).
Proof. destruct r as [|x [|y r]]; reflexivity. Qed.

Lemma flat_squeeze (a : ndarray) : flat (squeeze a) = flat a.
Proof.
  destruct a as [x|v|rows]; [done| |].
  - destruct v as [|x [|y v]]; done.
  - destruct rows as [|r [|r' rows]]; [done| |].
    + destruct r as [|x [|y r]]; cbn [squeeze flat concat];
        rewrite ?app_nil_r; reflexivity.
    + rewrite squeeze_rows. destruct (Nat.eqb _ 1); done.
Qed.

(** C6, amended: with [navg == 1], for every input whose squeeze is 1-d
    the vector path returns that squeezed input, and for every input whose
    squeeze is 2-d the array path returns that squeezed input and the
    standard deviation path an array of zeros of its shape. The squeezed
    input has the entries of the input, in the same order, and is the
    input itself unless an axis has length one. *)
Theorem navg_one_returns_squeezed_input (f_sqrt : f64 -> f64)
    (v0 a0 : ndarray) (weighted : bool) (valid : option (list f64))
    (missing : option f64) :
  ndim (squeeze v0) = 1%nat -> ndim (squeeze a0) = 2%nat ->
  _vector_average v0 1 missing valid = Ok (squeeze v0)
  /\ _array_average a0 1 weighted valid missing = Ok (squeeze a0)
  /\ _array_std f_sqrt a0 1 valid = Ok (nd_map (fun _ => zero) (squeeze a0))
  /\ flat (squeeze v0) = flat v0 /\ flat (squeeze a0) = flat a0
  /\ (squeeze v0 = v0
      \/ match v0 with
         | Arr0 _ => False
         | Arr1 v => length v = 1%nat
         | Arr2 rows => length rows = 1%nat \/ ncols rows = 1%nat
         end)
  /\ (squeeze a0 = a0
      \/ match a0 with
         | Arr0 _ => False
         | Arr1 v => length v = 1%nat
         | Arr2 rows => length rows = 1%nat \/ ncols rows = 1%nat
         end).
Proof.
  intros Hv Ha.
  assert (Hsq : forall a, squeeze a = a
      \/ match a with
         | Arr0 _ => False
         | Arr1 v => length v = 1%nat
         | Arr2 rows => length rows = 1%nat \/ ncols rows = 1%nat
         end).
  { intros [x|v|rows]; [by left| |].
    - destruct v as [|x [|y v]]; [by left|by right|by left].
    - destruct rows as [|r [|r' rows]]; [by left|right; by left|].
      rewrite squeeze_rows. cbn [ncols].
      destruct (Nat.eqb_spec (length r) 1).
      + right. by right.
      + by left. }
  split; [|split; [|split; [|split; [apply flat_squeeze|
    split; [apply flat_squeeze|split; apply Hsq]]]]].
  - unfold _vector_average. destruct (squeeze v0); done.
  - unfold _array_average. destruct (squeeze a0); done.
  - unfold _array_std. destruct (squeeze a0); done.
Qed.

Lemma navg_one_returns_squeezed_input_witness :
  _vector_average (Arr2 (map (map of_Z) [[1]; [2]; [3]])) 1 None None
  = Ok (Arr1 (map of_Z [1; 2; 3]))
  /\ _array_average (Arr2 (map (map of_Z) [[1; 2]; [3; 4]])) 1 false None None
     = Ok (Arr2 (map (map of_Z) [[1; 2]; [3; 4]])).
Proof.
  destruct (navg_one_returns_squeezed_input (fun x => x)
              (Arr2 (map (map of_Z) [[1]; [2]; [3]]))
              (Arr2 (map (map of_Z) [[1; 2]; [3; 4]])) false None None)
    as (Hv & Ha & _).
  - reflexivity.
  - reflexivity.
  - split; [exact Hv | exact Ha].
Defined.

(** ** C5 *)

Lemma last_rev {A : Type} (l : list A) (d : A) :
  List.last (rev l) d = hd d l.
Proof.
  destruct l as [|x l]; [done|]. simpl. apply last_last.
Qed.

Lemma hd_rev {A : Type} (l : list A) (d : A) :
  hd d (rev l) = List.last l d.
Proof. rewrite <- (rev_involutive l) at 2. symmetry. apply last_rev. Qed.

Lemma ltb_not_nan (x c : f64) : ltb x c = true -> isnan x = false.
Proof. destruct x; done. Qed.

Lemma gtb_not_nan (x c : f64) : gtb x c = true -> isnan x = false.
Proof. unfold gtb. destruct x, c; done. Qed.

Lemma last_In {A : Type} (l : list A) (d : A) : l <> [] -> In (List.last l d) l.
Proof.
  induction l as [|x [|y l] IH]; intros H; [done|by left|].
  right. apply IH. done.
Qed.

Lemma hd_In {A : Type} (l : list A) (d : A) : l <> [] -> In (hd d l) l.
Proof. destruct l; [done|]. intros _. by left. Qed.

(** Below every sample point [np.interp] gives the first value, above
    every sample point the last one. *)
Lemma interp1_below (xp fp : list f64) (x : f64) :
  xp <> [] -> (forall c, In c xp -> ltb x c = true) ->
  interp1 xp fp x = hd NaN fp.
Proof.
  intros Hne Hlt. unfold interp1.
  rewrite (ltb_not_nan x (hd NaN xp)) by (apply Hlt, hd_In, Hne).
  unfold gtb at 1.
  rewrite (gtb_not_ltb (List.last xp NaN) x)
    by (apply Hlt, last_In, Hne).
  rewrite Hlt by (apply hd_In, Hne). done.
Qed.

Lemma interp1_above (xp fp : list f64) (x : f64) :
  xp <> [] -> (forall c, In c xp -> gtb x c = true) ->
  interp1 xp fp x = List.last fp NaN.
Proof.
  intros Hne Hgt. unfold interp1.
  rewrite (gtb_not_nan x (hd NaN xp)) by (apply Hgt, hd_In, Hne).
  rewrite Hgt by (apply last_In, Hne). done.
Qed.

Lemma _remap_y_rows (rows : list (list f64)) (y0 y : list f64) :
  y0 <> [] -> rectangular (length y0) rows ->
  _remap_y (PyArr (Arr2 rows)) y0 y
  = Ok (Arr2 (map (fun i => map (interp1 (flipud y0)
                                   (flipud (default [] (rows !! i)))) y)
                  (seq 0 (length rows)))).
Proof.
  intros Hne Hrect. unfold _remap_y. cbn [size0]. rewrite bind_Ok.
  erewrite for_in_insert; [reflexivity|].
  intros i z Hi. unfold _remap_y_body.
  destruct (rows !! i) as [row|] eqn:Hrow;
    [|apply lookup_ge_None in Hrow; lia].
  assert (Hlen : length row = length y0).
  { by eapply (Forall_lookup_1 _ _ _ _ Hrect). }
  unfold np_interp, flipud. rewrite !length_rev, Hlen, Nat.eqb_refl.
  destruct (Nat.eqb_spec (length y0) 0) as [H0|H0].
  - destruct y0; done.
  - reflexivity.
Qed.

(** C5: in the output of [_remap_y], for every row and every target
    coordinate below all the coarse coordinates the value is the value of
    the row at its last level (the lowest of a decreasing grid), and above
    all of them the value of the row at its first level: no value beyond
    the endpoints is produced. *)
Theorem remap_clamps_outside_range (rows : list (list f64))
    (y0 y : list f64) (i k : nat) (row : list f64) (x : f64) :
  y0 <> [] -> rectangular (length y0) rows ->
  rows !! i = Some row -> y !! k = Some x ->
  exists z zi,
    _remap_y (PyArr (Arr2 rows)) y0 y = Ok (Arr2 z)
    /\ z !! i = Some zi
    /\ ((forall c, In c y0 -> ltb x c = true) ->
        exists e, last row = Some e /\ zi !! k = Some e)
    /\ ((forall c, In c y0 -> gtb x c = true) ->
        exists e, row !! 0%nat = Some e /\ zi !! k = Some e).
Proof.
  intros Hne Hrect Hrow Hx.
  assert (Hi : (i < length rows)%nat) by (by eapply lookup_lt_Some).
  assert (Hlen : length row = length y0).
  { by eapply (Forall_lookup_1 _ _ _ _ Hrect). }
  assert (Hrne : row <> []) by (destruct row, y0; done).
  eexists. eexists. split; [by apply _remap_y_rows|].
  rewrite map_seq_lookup by done. split; [reflexivity|].
  rewrite Hrow. cbn [default].
  change (map ?f y) with (f <$> y). rewrite list_lookup_fmap, Hx.
  cbn [fmap option_fmap option_map]. unfold flipud. split.
  - intros Hlt. rewrite interp1_below.
    + rewrite hd_rev. exists (List.last row NaN). split; [|done].
      clear -Hrne. induction row as [|a [|b row] IH]; [done|done|].
      rewrite last_cons_cons. apply IH. done.
    + intros Hr. apply (f_equal (@rev f64)) in Hr.
      rewrite rev_involutive in Hr. done.
    + intros c Hc. apply Hlt. by apply in_rev.
  - intros Hgt. rewrite interp1_above.
    + rewrite last_rev. destruct row as [|e row]; [done|]. by exists e.
    + intros Hr. apply (f_equal (@rev f64)) in Hr.
      rewrite rev_involutive in Hr. done.
    + intros c Hc. apply Hgt. by apply in_rev.
Qed.

Lemma remap_clamps_outside_range_witness :
  exists z zi,
    _remap_y (PyArr (Arr2 [map of_Z [10; 20; 30]]))
      (map of_Z [3; 2; 1]) (map of_Z [4; 0]) = Ok (Arr2 z)
    /\ z !! 0%nat = Some zi
    /\ zi !! 0%nat = Some (of_Z 10)
    /\ zi !! 1%nat = Some (of_Z 30).
Proof.
  destruct (remap_clamps_outside_range [map of_Z [10; 20; 30]]
              (map of_Z [3; 2; 1]) (map of_Z [4; 0]) 0 0
              (map of_Z [10; 20; 30]) (of_Z 4))
    as (z & zi & Hz & Hzi & _ & Habove); [done|repeat constructor|done|done|].
  destruct (remap_clamps_outside_range [map of_Z [10; 20; 30]]
              (map of_Z [3; 2; 1]) (map of_Z [4; 0]) 0 1
              (map of_Z [10; 20; 30]) (of_Z 0))
    as (z' & zi' & Hz' & Hzi' & Hbelow & _);
    [done|repeat constructor|done|done|].
  rewrite Hz in Hz'. injection Hz' as <-.
  rewrite Hzi in Hzi'. injection Hzi' as <-.
  exists z, zi. split; [exact Hz|]. split; [exact Hzi|]. split.
  - destruct Habove as (e & He & Hk).
    + intros c [<-|[<-|[<-|[]]]]; reflexivity.
    + injection He as <-. exact Hk.
  - destruct Hbelow as (e & He & Hk).
    + intros c [<-|[<-|[<-|[]]]]; reflexivity.
    + injection He as <-. exact Hk.
Defined.

(** ** C7 *)





(** ** C9 *)

(** Counterexample to C9: closing a closed file raises. *)
Lemma close_twice_counterexample :
  close {| hdf := Some ∅; z := ZN; valid_rms_profiles := None |}
  = Ok {| hdf := None; z := ZN; valid_rms_profiles := None |}
  /\ close {| hdf := None; z := ZN; valid_rms_profiles := None |}
     = Raise AttributeError.
Proof. split; reflexivity. Qed.

(** C9, amended: [close] on an open file of either level releases the
    handle, [self.hdf] being [None] afterwards; [close] on a file that is
    closed already raises [AttributeError], as nothing guards the call of
    [end] on [None]. *)
Theorem close_releases_once (sd : SD) (orbit : orbit_type)
    (valid : option (list f64)) :
  close {| hdf := Some sd; z := orbit; valid_rms_profiles := valid |}
  = Ok {| hdf := None; z := orbit; valid_rms_profiles := valid |}
  /\ close {| hdf := None; z := orbit; valid_rms_profiles := valid |}
     = Raise AttributeError.
Proof. split; reflexivity. Qed.

(** ** C1 *)

Lemma filter_seq_range (n s a b : nat) :
  List.filter (fun j => (a <=? j)%nat && (j <? b)%nat) (seq s n)
  = seq (Nat.max a s) (Nat.min b (s + n) - Nat.max a s).
Proof.
  revert s. induction n as [|n IH]; intros s.
  - simpl. replace (Nat.min b (s + 0) - Nat.max a s)%nat with 0%nat by lia.
    done.
  - cbn [seq List.filter]. rewrite IH.
    destruct (Nat.leb_spec a s); destruct (Nat.ltb_spec s b); cbn [andb].
    + replace (Nat.max a s) with s by lia.
      replace (Nat.min b (s + S n) - s)%nat
        with (S (Nat.min b (S s + n) - S s)) by lia.
      cbn [seq]. f_equal. f_equal; lia.
    + replace (Nat.min b (S s + n) - Nat.max a (S s))%nat with 0%nat by lia.
      replace (Nat.min b (s + S n) - Nat.max a s)%nat with 0%nat by lia.
      done.
    + f_equal; lia.
    + f_equal; lia.
Qed.

Lemma map_to_nat_seqZ (lo len : Z) :
  0 <= lo ->
  map Z.to_nat (seqZ lo len) = seq (Z.to_nat lo) (Z.to_nat len).
Proof.
  intros Hlo. apply list_eq. intros k.
  change (map Z.to_nat (seqZ lo len)) with (Z.to_nat <$> seqZ lo len).
  rewrite list_lookup_fmap.
  destruct (decide (k < Z.to_nat len)%nat) as [Hk|Hk].
  - rewrite lookup_seq_lt by done.
    rewrite (lookup_seqZ_lt lo len k) by lia. simpl. f_equal. lia.
  - rewrite lookup_seq_ge by lia.
    rewrite (lookup_seqZ_ge lo len k) by lia. done.
Qed.

(** The indices that the loop gathers are the window. *)
Lemma idxh_window (nprof i : nat) (navgh : Z) :
  idxh nprof i navgh = window nprof navgh i.
Proof.
  unfold idxh, window.
  set (lo := Z.max 0 (Z.of_nat i - navgh)).
  set (hi := Z.min (Z.of_nat nprof - 1) (Z.of_nat i + navgh)).
  assert (Hlo : 0 <= lo) by (unfold lo; lia).
  assert (Hhi : hi <= Z.of_nat nprof - 1) by (unfold hi; lia).
  rewrite map_to_nat_seqZ by done.
  rewrite (List.filter_ext _
             (fun j => (Z.to_nat lo <=? j)%nat && (j <? Z.to_nat hi)%nat)).
  - rewrite filter_seq_range. f_equal; lia.
  - intros j.
    assert (E1 : (lo <=? Z.of_nat j) = (Z.to_nat lo <=? j)%nat).
    { destruct (Z.leb_spec lo (Z.of_nat j));
        destruct (Nat.leb_spec (Z.to_nat lo) j); try done; lia. }
    assert (E2 : (Z.of_nat j <? hi) = (j <? Z.to_nat hi)%nat).
    { destruct (Z.ltb_spec (Z.of_nat j) hi);
        destruct (Nat.ltb_spec j (Z.to_nat hi)); try done; lia. }
    by rewrite E1, E2.
Qed.

Lemma window_bound (nprof i j : nat) (navgh : Z) :
  In j (window nprof navgh i) -> (j < nprof)%nat.
Proof.
  unfold window. rewrite filter_In, in_seq. lia.
Qed.

Lemma take_indices_Ok {A : Type} (l : list (option A)) (w : list nat) :
  (forall j, In j w -> (j < length l)%nat) ->
  take_indices l w = Ok (map (fun j => mjoin (l !! j)) w).
Proof.
  induction w as [|j w IH]; intros H; [done|].
  cbn [take_indices map].
  destruct (l !! j) as [x|] eqn:Hj.
  - rewrite IH by (intros j' Hj'; apply H; by right). done.
  - apply lookup_ge_None in Hj. specialize (H j ltac:(by left)). lia.
Qed.

Lemma omap_id_map {A : Type} (f : nat -> option A) (w : list nat) :
  omap id (map f w) = omap f w.
Proof.
  induction w as [|j w IH]; [done|].
  cbn [map omap list_omap]. unfold id at 1. destruct (f j); by rewrite IH.
Qed.

Lemma omap_id_Some {A : Type} (x : A) (l : list (option A)) :
  omap id (Some x :: l) = x :: omap id l.
Proof. reflexivity. Qed.

Lemma omap_id_None {A : Type} (l : list (option A)) :
  omap id (None :: l) = omap id l.
Proof. reflexivity. Qed.

Lemma omap_id_filter_bounds (z : orbit_type) (s : list (option f64)) :
  omap id (List.filter (in_bounds (iatb_bounds z)) s)
  = List.filter (inside_bounds z) (omap id s).
Proof.
  induction s as [|[v|] s IH]; [done| |].
  - rewrite omap_id_Some. cbn [List.filter].
    change (in_bounds (iatb_bounds z) (Some v)) with (inside_bounds z v).
    destruct (inside_bounds z v); [rewrite omap_id_Some|]; by rewrite IH.
  - rewrite omap_id_None. cbn [List.filter in_bounds]. exact IH.
Qed.

Lemma div_nan_r (x : f64) : div x NaN = NaN.
Proof. destruct x; done. Qed.

(** The quotient that is stored is the quotient of the means of the
    values that are not masked; the mean of no value is [nan]. *)
Lemma ma_div_stored_means (a b : list (option f64)) :
  ma_div_stored (ma_mean a) (ma_mean b)
  = div (mean (omap id a)) (mean (omap id b)).
Proof.
  unfold ma_div_stored, ma_mean, mean.
  destruct (omap id a) as [|x xs]; [done|].
  destruct (omap id b) as [|y ys].
  - cbn [length Nat.eqb]. change (div (sum []) (of_nat 0)) with NaN.
    by rewrite div_nan_r.
  - done.
Qed.

(** The loop of the moving average, on the two reference-band profiles. *)
Lemma moving_average_coefficient (z : orbit_type) (navgh : Z) (nprof : nat)
    (atb_calib_profile mol_calib_profile : list (option f64)) :
  (nprof <= length atb_calib_profile)%nat ->
  (nprof <= length mol_calib_profile)%nat ->
  exists coef,
    moving_average z navgh nprof atb_calib_profile mol_calib_profile
    = Ok coef
    /\ length coef = nprof
    /\ forall i, (i < nprof)%nat ->
         coef !! i
         = Some (div (mean (List.filter (inside_bounds z)
                              (window_values atb_calib_profile
                                 (window nprof navgh i))))
                     (mean (window_values mol_calib_profile
                              (window nprof navgh i))))
         /\ (List.filter (inside_bounds z)
               (window_values atb_calib_profile (window nprof navgh i)) = []
             -> coef !! i = Some NaN /\ NaN <> zero).
Proof.
  intros Ha Hm. unfold moving_average.
  eexists. split.
  { apply (for_in_insert
             (fun i => div (mean (List.filter (inside_bounds z)
                                    (window_values atb_calib_profile
                                       (window nprof navgh i))))
                           (mean (window_values mol_calib_profile
                                    (window nprof navgh i))))).
    intros i coef Hi. unfold moving_average_body.
    rewrite idxh_window.
    rewrite !take_indices_Ok
      by (intros j Hj; apply window_bound in Hj; lia).
    rewrite !bind_Ok, ma_div_stored_means.
    rewrite omap_id_filter_bounds, !omap_id_map. done. }
  rewrite length_map, length_seq. split; [done|].
  intros i Hi. rewrite map_seq_lookup by done. split; [done|].
  intros ->. split; [|discriminate]. done.
Qed.

(** ** Calibration on the store *)

Section Calibration.

Variable lidar_alt : list f64.
Variable met_alt : list f64.

(** With references to two distinct arrays, [mol_calibration_coef]
    screens both objects in place, then computes from the screened
    values. An exception of the computation leaves the screened objects
    in the store. *)
Lemma mol_calibration_coef_run (self : Cal) (lm la : nat) (m a : ndarray)
    (h : heap) (navg : Z) (alt metalt : list f64) (idx : option (Z * Z))
    (navgh : Z) (zmin zmax : f64) :
  h !! la = Some a -> h !! lm = Some m -> la <> lm ->
  Cal1.mol_calibration_coef self (RArr lm) (RArr la) navg alt metalt idx
    navgh zmin zmax h
  = (coef_of_screened (z self) alt zmin zmax navgh
       (screen_atb (z self) a) (screen_mol m),
     <[lm := screen_mol m]> (<[la := screen_atb (z self) a]> h)).
Proof.
  intros Ha Hm Hne.
  unfold Cal1.mol_calibration_coef, assign_nan_where, load, store, lift.
  unfold mbind, M_bind, mret, M_ret. cbn beta iota.
  rewrite Ha. cbn beta iota.
  rewrite lookup_insert_ne, Hm by done. cbn beta iota.
  rewrite lookup_insert_ne, lookup_insert_eq by done. cbn beta iota.
  rewrite lookup_insert_eq. cbn beta iota.
  unfold coef_of_screened, reference_band.
  destruct (calib_profile (screen_atb (z self) a) _); [|done].
  cbn beta iota.
  destruct (calib_profile (screen_mol m) _); [|done].
  cbn beta iota.
  destruct (size0 (screen_mol m)); done.
Qed.

Lemma ma_mean_band_Ok (rows : list (list f64)) (band : list bool) :
  rectangular (length band) rows ->
  ma_mean_band rows band
  = Ok (map (fun row => ma_mean (map masked_invalid (select row band)))
          rows).
Proof.
  intros H. induction H as [|row rows Hr _ IH]; [done|].
  cbn [ma_mean_band map].
  rewrite mask_index_same_length by done.
  rewrite bind_Ok, IH. done.
Qed.

Lemma select_map {A B : Type} (f : A -> B) (l : list A) (idx : list bool) :
  select (map f l) idx = map f (select l idx).
Proof.
  revert idx. induction l as [|x l IH]; intros [|b idx]; try done.
  cbn [map select]. destruct b; cbn [map]; by rewrite IH.
Qed.

(** The masked mean of screened samples is the mean of the fit ones. *)
Lemma ma_mean_screened (screen : f64 -> f64) (fit : f64 -> bool)
    (l : list f64) :
  (forall x, masked_invalid (screen x) = if fit x then Some x else None) ->
  ma_mean (map masked_invalid (map screen l))
  = match List.filter fit l with
    | [] => None
    | kept => Some (mean kept)
    end.
Proof.
  intros Hfit.
  assert (E : omap id (map masked_invalid (map screen l))
              = List.filter fit l).
  { induction l as [|x l IH]; [done|].
    cbn [map List.filter]. rewrite Hfit.
    destruct (fit x); [rewrite omap_id_Some | rewrite omap_id_None];
      by rewrite IH. }
  unfold ma_mean. rewrite E. by destruct (List.filter fit l).
Qed.

Lemma masked_screen_atb (z : orbit_type) (x : f64) :
  masked_invalid (if gtb (abs x) (atb_max z) then NaN else x)
  = if atb_fit z x then Some x else None.
Proof.
  unfold atb_fit, masked_invalid.
  destruct (gtb (abs x) (atb_max z)); [by rewrite andb_false_r|].
  rewrite andb_true_r. done.
Qed.

Lemma masked_screen_mol (x : f64) :
  masked_invalid (if ltb x zero then NaN else x)
  = if mol_fit x then Some x else None.
Proof.
  unfold mol_fit, masked_invalid.
  destruct (ltb x zero); [by rewrite andb_false_r|].
  rewrite andb_true_r. done.
Qed.

(** The reference-band values that the code computes from the screened
    rows are those of the fit samples of the rows. *)
Lemma ma_mean_band_screened (screen : f64 -> f64) (fit : f64 -> bool)
    (rows : list (list f64)) (band : list bool) :
  (forall x, masked_invalid (screen x) = if fit x then Some x else None) ->
  rectangular (length band) rows ->
  ma_mean_band (map (map screen) rows) band
  = Ok (map (reference_mean fit band) rows).
Proof.
  intros Hfit Hrect.
  rewrite ma_mean_band_Ok.
  - rewrite map_map. f_equal. apply map_ext. intros row.
    rewrite select_map. by apply ma_mean_screened.
  - clear Hfit. induction Hrect as [|r rows Hr _ IH]; constructor; [|done].
    by rewrite length_map.
Qed.

Lemma rectangular_map (f : f64 -> f64) (w : nat) (rows : list (list f64)) :
  rectangular w rows -> rectangular w (map (map f) rows).
Proof.
  intros H. induction H as [|r rows Hr _ IH]; constructor; [|done].
  by rewrite length_map.
Qed.

(** C1: for every profile [i], the coefficient that
    [mol_calibration_coef] returns is the mean of the reference-band atb
    values of the window [max(0, i-navgh) <= j < min(nprof-1, i+navgh)]
    that lie inside the bound interval of the orbit type, over the mean of
    the reference-band mol values of the same window, whatever their atb;
    the reference-band value of a profile is the mean of its fit samples
    at the levels [zmin <= alt <= zmax], and a profile without one has no
    value.  The call raises nothing, and a window without an atb value
    inside the bounds gives [nan], which is not zero. *)
Theorem mol_calibration_coef_moving_window (self : Cal) (lm la : nat)
    (mol_rows atb_rows : list (list f64)) (h : heap) (navg : Z)
    (alt metalt : list f64) (idx : option (Z * Z)) (navgh : Z)
    (zmin zmax : f64) :
  h !! la = Some (Arr2 atb_rows) -> h !! lm = Some (Arr2 mol_rows) ->
  la <> lm ->
  rectangular (length alt) atb_rows -> rectangular (length alt) mol_rows ->
  (length mol_rows <= length atb_rows)%nat ->
  exists coef,
    (Cal1.mol_calibration_coef self (RArr lm) (RArr la) navg alt metalt idx
       navgh zmin zmax h).1 = Ok coef
    /\ length coef = length mol_rows
    /\ forall i, (i < length mol_rows)%nat ->
         coef !! i
         = Some (div
                   (mean (List.filter (inside_bounds (z self))
                            (window_values
                               (reference_profile (atb_fit (z self)) alt
                                  zmin zmax atb_rows)
                               (window (length mol_rows) navgh i))))
                   (mean (window_values
                            (reference_profile mol_fit alt zmin zmax
                               mol_rows)
                            (window (length mol_rows) navgh i))))
         /\ (List.filter (inside_bounds (z self))
               (window_values
                  (reference_profile (atb_fit (z self)) alt zmin zmax
                     atb_rows)
                  (window (length mol_rows) navgh i)) = []
             -> coef !! i = Some NaN /\ NaN <> zero).
Proof.
  intros Ha Hm Hne Hra Hrm Hlen.
  rewrite (mol_calibration_coef_run self lm la _ _ h) by done.
  cbn [fst]. unfold coef_of_screened, screen_atb, screen_mol.
  cbn [nd_map calib_profile size0]. unfold reference_profile.
  assert (Hband : length (reference_band alt zmin zmax) = length alt)
    by (unfold reference_band; apply length_map).
  rewrite (ma_mean_band_screened
             (fun x => if gtb (abs x) (atb_max (z self)) then NaN else x)
             (atb_fit (z self)));
    [|intros x; apply masked_screen_atb | by rewrite Hband].
  rewrite (ma_mean_band_screened
             (fun x => if ltb x zero then NaN else x) mol_fit);
    [|intros x; apply masked_screen_mol | by rewrite Hband].
  rewrite !bind_Ok, length_map.
  apply moving_average_coefficient; rewrite !length_map; lia.
Qed.

Lemma mol_calibration_coef_moving_window_witness :
  exists coef,
    (Cal1.mol_calibration_coef
       {| hdf := None; z := ZN; valid_rms_profiles := None |}
       (RArr 1) (RArr 0) 30 (map of_Z [35; 32; 20]) [] None 1
       (of_Z 30) (of_Z 34)
       (<[1%nat := Arr2 [[of_Z 1; of_Q (4 # 100000); of_Z 1];
                         [of_Z 1; of_Q (4 # 100000); of_Z 1];
                         [of_Z 1; of_Q (4 # 100000); of_Z 1]]]>
          (<[0%nat := Arr2 [[of_Z 1; of_Q (2 # 100000); of_Z 1];
                            [of_Z 1; of_Q (2 # 1000000); of_Z 1];
                            [of_Z 1; of_Z 5; of_Z 1]]]> ∅))).1 = Ok coef
    /\ coef = [of_Q (1 # 2); of_Q (1 # 2); NaN].
Proof.
  destruct (mol_calibration_coef_moving_window
       {| hdf := None; z := ZN; valid_rms_profiles := None |} 1 0
       [[of_Z 1; of_Q (4 # 100000); of_Z 1];
        [of_Z 1; of_Q (4 # 100000); of_Z 1];
        [of_Z 1; of_Q (4 # 100000); of_Z 1]]
       [[of_Z 1; of_Q (2 # 100000); of_Z 1];
        [of_Z 1; of_Q (2 # 1000000); of_Z 1];
        [of_Z 1; of_Z 5; of_Z 1]]
       (<[1%nat := Arr2 [[of_Z 1; of_Q (4 # 100000); of_Z 1];
                         [of_Z 1; of_Q (4 # 100000); of_Z 1];
                         [of_Z 1; of_Q (4 # 100000); of_Z 1]]]>
          (<[0%nat := Arr2 [[of_Z 1; of_Q (2 # 100000); of_Z 1];
                            [of_Z 1; of_Q (2 # 1000000); of_Z 1];
                            [of_Z 1; of_Z 5; of_Z 1]]]> ∅))
       30 (map of_Z [35; 32; 20]) [] None 1 (of_Z 30) (of_Z 34))
    as (coef & Hc & Hlen & Hi).
  - reflexivity.
  - reflexivity.
  - lia.
  - repeat constructor.
  - repeat constructor.
  - simpl. lia.
  - exists coef. split; [exact Hc|].
    destruct coef as [|c0 [|c1 [|c2 [|c3 coef]]]]; try discriminate Hlen.
    destruct (Hi 0%nat) as [H0 _]; [simpl; lia|].
    destruct (Hi 1%nat) as [H1 _]; [simpl; lia|].
    destruct (Hi 2%nat) as [_ H2]; [simpl; lia|].
    destruct H2 as [H2 _]; [vm_compute; reflexivity|].
    vm_compute in H0. vm_compute in H1. vm_compute in H2.
    injection H0 as ->. injection H1 as ->. injection H2 as ->.
    unfold of_Q. f_equal; [|f_equal]; f_equal; apply Qc_is_canon;
      reflexivity.
Defined.

(** ** C10 *)

Lemma flat_nd_map (f : f64 -> f64) (a : ndarray) :
  flat (nd_map f a) = map f (flat a).
Proof.
  destruct a as [x|v|rows]; [done|done|].
  cbn [nd_map flat]. induction rows as [|r rows IH]; [done|].
  cbn [map concat]. by rewrite IH, map_app.
Qed.

Lemma fresh_loc_ne (h : heap) (l : nat) (a : ndarray) :
  h !! l = Some a -> fresh (dom h) <> l.
Proof.
  intros Hl Heq. apply (is_fresh (dom h)). rewrite Heq.
  apply elem_of_dom. eauto.
Qed.

(** When it returns, [mol_on_lidar_alt] has made one new object and
    touched no other. *)
Lemma mol_on_lidar_alt_run (self : Cal) (navg : Z) (alt metalt : list f64)
    (idx : option (Z * Z)) (h h1 : heap) (r : pyref) :
  Cal1.mol_on_lidar_alt self navg alt metalt idx h = (Ok r, h1) ->
  exists mol, r = RArr (fresh (dom h)) /\ h1 = <[fresh (dom h) := mol]> h.
Proof.
  unfold Cal1.mol_on_lidar_alt, lift, alloc.
  unfold mbind, M_bind, mret, M_ret. cbn beta iota.
  destruct (Cal1.mol self navg idx) as [mol0|e]; [|discriminate].
  cbn beta iota.
  destruct (_remap_y mol0 metalt alt) as [mol|e]; [|discriminate].
  cbn beta iota zeta. intros H. injection H as <- <-. eauto.
Qed.

(** C10: [mol_calibration_coef] writes in the arrays of its caller: after
    the call, whether it returns or raises, the object passed as [atb]
    holds [nan] at every entry whose magnitude exceeds the maximum of the
    orbit type and the object passed as [mol] holds [nan] at every
    negative entry, the other entries being unchanged; an array passed as
    [atb] to [mol_on_lidar_alt_calibrated] is modified in the same way
    once the molecular density has been read. *)
Theorem calibration_mutates_caller_arrays (self : Cal) (lm la : nat)
    (m a : ndarray) (h : heap) (navg : Z) (alt metalt : list f64)
    (idx : option (Z * Z)) (navgh : Z) (zmin zmax : f64)
    (zcal : f64 * f64) :
  h !! la = Some a -> h !! lm = Some m -> la <> lm ->
  (Cal1.mol_calibration_coef self (RArr lm) (RArr la) navg alt metalt idx
     navgh zmin zmax h).2 !! la = Some (screen_atb (z self) a)
  /\ (Cal1.mol_calibration_coef self (RArr lm) (RArr la) navg alt metalt idx
        navgh zmin zmax h).2 !! lm = Some (screen_mol m)
  /\ flat (screen_atb (z self) a)
     = map (fun x => if gtb (abs x) (atb_max (z self)) then NaN else x)
           (flat a)
  /\ flat (screen_mol m)
     = map (fun x => if ltb x zero then NaN else x) (flat m)
  /\ forall r h1,
       Cal1.mol_on_lidar_alt self navg alt metalt idx h = (Ok r, h1) ->
       (Cal1.mol_on_lidar_alt_calibrated lidar_alt met_alt self navg alt
          navgh metalt idx zcal (RArr la) h).2 !! la
       = Some (screen_atb (z self) a).
Proof.
  intros Ha Hm Hne.
  rewrite (mol_calibration_coef_run self lm la m a h) by done. cbn [snd].
  split; [by rewrite lookup_insert_ne, lookup_insert_eq|].
  split; [by rewrite lookup_insert_eq|].
  split; [apply flat_nd_map|]. split; [apply flat_nd_map|].
  intros r h1 Hrun.
  destruct (mol_on_lidar_alt_run _ _ _ _ _ _ _ _ Hrun) as (mol & -> & ->).
  pose proof (fresh_loc_ne h la a Ha) as Hfresh.
  unfold Cal1.mol_on_lidar_alt_calibrated.
  unfold mbind at 1, M_bind at 1. rewrite Hrun. cbn beta iota.
  unfold mbind at 1, M_bind at 1, mret at 1, M_ret at 1. cbn beta iota.
  unfold mbind at 1, M_bind at 1.
  rewrite (mol_calibration_coef_run self (fresh (dom h)) la mol a)
    by (rewrite ?lookup_insert_eq, ?lookup_insert_ne by done; done).
  set (h2 := <[fresh (dom h) := screen_mol mol]>
               (<[la := screen_atb (z self) a]>
                  (<[fresh (dom h) := mol]> h))).
  assert (H2 : h2 !! la = Some (screen_atb (z self) a)).
  { unfold h2. by rewrite lookup_insert_ne, lookup_insert_eq. }
  destruct (coef_of_screened _ _ _ _ _ _ _) as [coef|e]; [|exact H2].
  cbn beta iota.
  unfold Cal1.scale_rows, load, store, raise.
  unfold mbind, M_bind, mret, M_ret. cbn beta iota.
  destruct (h2 !! fresh (dom h)) as [[x|v|rows]|]; try exact H2.
  destruct (Nat.eqb _ _); [|exact H2].
  cbn beta iota. cbn [snd]. by rewrite lookup_insert_ne.
Qed.

End Calibration.

Lemma calibration_mutates_caller_arrays_witness :
  (Cal1.mol_calibration_coef
     {| hdf := Some {[ "Molecular_Number_Density" :=
                         Arr2 (map (map of_Z) [[1; 2]; [3; 4]]) ]};
        z := ZN; valid_rms_profiles := None |}
     (RArr 1) (RArr 0) 1 (map of_Z [35; 32]) (map of_Z [40; 30]) None 1
     (of_Z 30) (of_Z 34)
     (<[1%nat := Arr2 [[of_Z (-1); of_Z 2]]]>
        (<[0%nat := Arr2 [[of_Z 1; of_Q (1 # 100000)];
                          [of_Z 0; of_Z 0]]]> ∅))).2 !! 0%nat
  = Some (Arr2 [[NaN; of_Q (1 # 100000)]; [of_Z 0; of_Z 0]])
  /\ (Cal1.mol_on_lidar_alt_calibrated (map of_Z [35; 32]) (map of_Z [40; 30])
        {| hdf := Some {[ "Molecular_Number_Density" :=
                         Arr2 (map (map of_Z) [[1; 2]; [3; 4]]) ]};
        z := ZN; valid_rms_profiles := None |}
        1 (map of_Z [35; 32]) 1 (map of_Z [40; 30]) None (of_Z 30, of_Z 34)
        (RArr 0)
        (<[1%nat := Arr2 [[of_Z (-1); of_Z 2]]]>
        (<[0%nat := Arr2 [[of_Z 1; of_Q (1 # 100000)];
                          [of_Z 0; of_Z 0]]]> ∅))).2 !! 0%nat
     = Some (Arr2 [[NaN; of_Q (1 # 100000)]; [of_Z 0; of_Z 0]]).
Proof.
  destruct (calibration_mutates_caller_arrays
              (map of_Z [35; 32]) (map of_Z [40; 30])
              {| hdf := Some {[ "Molecular_Number_Density" :=
                         Arr2 (map (map of_Z) [[1; 2]; [3; 4]]) ]};
        z := ZN; valid_rms_profiles := None |}
              1 0
              (Arr2 [[of_Z (-1); of_Z 2]])
              (Arr2 [[of_Z 1; of_Q (1 # 100000)]; [of_Z 0; of_Z 0]])
              (<[1%nat := Arr2 [[of_Z (-1); of_Z 2]]]>
        (<[0%nat := Arr2 [[of_Z 1; of_Q (1 # 100000)];
                          [of_Z 0; of_Z 0]]]> ∅))
              1 (map of_Z [35; 32]) (map of_Z [40; 30]) None 1
              (of_Z 30) (of_Z 34) (of_Z 30, of_Z 34))
    as (Hatb & _ & _ & _ & Hcall).
  - reflexivity.
  - reflexivity.
  - lia.
  - split; [exact Hatb|].
    match goal with
    | |- context [Cal1.mol_on_lidar_alt_calibrated _ _ ?self ?navg ?alt _
                    ?metalt ?idx _ _ ?h] =>
        destruct (Cal1.mol_on_lidar_alt self navg alt metalt idx h)
          as [[r|e] h1] eqn:E
    end.
    + exact (Hcall r h1 eq_refl).
    + vm_compute in E. discriminate.
Defined.

(** ** Decimal dates *)

Lemma this_of_Z (z : Z) : this (Q2Qc (inject_Z z)) = inject_Z z.
Proof.
  unfold Q2Qc, this. apply Qred_identity. unfold inject_Z, Qnum, Qden.
  apply Z.gcd_1_r.
Qed.

Lemma to_int_of_Z (z : Z) : to_int (of_Z z) = Ok z.
Proof.
  unfold to_int, of_Z, of_Q. rewrite this_of_Z.
  rewrite Qceiling_Z, Qfloor_Z. by destruct (qc_ltb _ _).
Qed.

Lemma of_Z_inj (a b : Z) : of_Z a = of_Z b -> a = b.
Proof.
  intros H. unfold of_Z, of_Q in H. injection H as H.
  apply Qred_eq_iff in H. unfold Qeq, inject_Z, Qnum, Qden in H. lia.
Qed.

Lemma add_of_Z (a b : Z) : add (of_Z a) (of_Z b) = of_Z (a + b).
Proof.
  unfold add, of_Z, of_Q. f_equal. apply Qc_is_canon.
  unfold Qcplus. rewrite !this_of_Z.
  unfold Q2Qc, this. rewrite !Qred_correct, inject_Z_plus. reflexivity.
Qed.

Lemma to_int_fin (q : Qc) : exists s, to_int (Fin q) = Ok s.
Proof. unfold to_int. eauto. Qed.

Lemma c10000_nonzero : qc_eqb (Q2Qc (inject_Z 10000)) 0%Qc = false.
Proof. vm_compute. reflexivity. Qed.

Lemma c100_nonzero : qc_eqb (Q2Qc (inject_Z 100)) 0%Qc = false.
Proof. vm_compute. reflexivity. Qed.

Lemma div_fin (a b : Qc) :
  qc_eqb b 0%Qc = false -> div (Fin a) (Fin b) = Fin (a / b)%Qc.
Proof. intros H. unfold div. by rewrite H. Qed.

(** [_decdate_to_ymd] on a finite number. *)
Lemma _decdate_to_ymd_fin (q : Qc) :
  Cal2._decdate_to_ymd (Fin q)
  = (of_Z (year_of q + 2000), of_Z (month_of q), of_Z (day_of q)).
Proof.
  unfold Cal2._decdate_to_ymd.
  change (of_Z 10000) with (Fin (Q2Qc (inject_Z 10000))).
  change (of_Z 100) with (Fin (Q2Qc (inject_Z 100))).
  rewrite (div_fin q _ c10000_nonzero).
  change (floor (Fin (q / Q2Qc (inject_Z 10000))%Qc))
    with (of_Z (year_of q)).
  change (sub (Fin q) (mul (of_Z (year_of q)) (Fin (Q2Qc (inject_Z 10000)))))
    with (Fin (remainder_of q)).
  rewrite (div_fin (remainder_of q) _ c100_nonzero).
  change (floor (Fin (remainder_of q / Q2Qc (inject_Z 100))%Qc))
    with (of_Z (month_of q)).
  change (floor (sub (Fin (remainder_of q))
                     (mul (of_Z (month_of q)) (Fin (Q2Qc (inject_Z 100))))))
    with (of_Z (day_of q)).
  by rewrite add_of_Z.
Qed.

Lemma inv_10000_nonneg : (0 <= / Q2Qc (inject_Z 10000))%Qc.
Proof. unfold Qcle. vm_compute. discriminate. Qed.

Lemma inv_100_nonneg : (0 <= / Q2Qc (inject_Z 100))%Qc.
Proof. unfold Qcle. vm_compute. discriminate. Qed.

Lemma year_of_mono (q q' : Qc) : (q <= q')%Qc -> year_of q <= year_of q'.
Proof.
  intros H. unfold year_of. apply Qfloor_resp_le.
  change (q / Q2Qc (inject_Z 10000) <= q' / Q2Qc (inject_Z 10000))%Qc.
  unfold Qcdiv. apply Qcmult_le_compat_r; [done | apply inv_10000_nonneg].
Qed.

Lemma remainder_of_mono (q q' : Qc) :
  year_of q = year_of q' -> (q <= q')%Qc ->
  (remainder_of q <= remainder_of q')%Qc.
Proof.
  intros Hy H. unfold remainder_of. rewrite Hy.
  apply Qcplus_le_compat; [done | apply Qcle_refl].
Qed.

Lemma month_of_mono (q q' : Qc) :
  year_of q = year_of q' -> (q <= q')%Qc -> month_of q <= month_of q'.
Proof.
  intros Hy H. unfold month_of. apply Qfloor_resp_le.
  change (remainder_of q / Q2Qc (inject_Z 100)
          <= remainder_of q' / Q2Qc (inject_Z 100))%Qc.
  unfold Qcdiv. apply Qcmult_le_compat_r; [|apply inv_100_nonneg].
  by apply remainder_of_mono.
Qed.

Lemma day_of_mono (q q' : Qc) :
  year_of q = year_of q' -> month_of q = month_of q' -> (q <= q')%Qc ->
  day_of q <= day_of q'.
Proof.
  intros Hy Hm H. unfold day_of. apply Qfloor_resp_le. rewrite Hm.
  change (remainder_of q + - (Q2Qc (inject_Z (month_of q'))
                              * Q2Qc (inject_Z 100))
          <= remainder_of q' + - (Q2Qc (inject_Z (month_of q'))
                                  * Q2Qc (inject_Z 100)))%Qc.
  apply Qcplus_le_compat; [by apply remainder_of_mono | apply Qcle_refl].
Qed.

(** Between two instants of one date lies that date only. *)
Lemma date_between (q0 q q1 : Qc) :
  (q0 <= q)%Qc -> (q <= q1)%Qc ->
  year_of q0 = year_of q1 -> month_of q0 = month_of q1 ->
  day_of q0 = day_of q1 ->
  year_of q = year_of q0 /\ month_of q = month_of q0 /\ day_of q = day_of q0.
Proof.
  intros H0 H1 Hy Hm Hd.
  assert (Ey : year_of q = year_of q0).
  { pose proof (year_of_mono _ _ H0). pose proof (year_of_mono _ _ H1). lia. }
  assert (Em : month_of q = month_of q0).
  { pose proof (month_of_mono q0 q (eq_sym Ey) H0).
    pose proof (month_of_mono q q1 ltac:(congruence) H1). lia. }
  split; [done|]. split; [done|].
  pose proof (day_of_mono q0 q (eq_sym Ey) (eq_sym Em) H0).
  pose proof (day_of_mono q q1 ltac:(congruence) ltac:(congruence) H1). lia.
Qed.

Lemma leb_fin (a b : Qc) : leb (Fin a) (Fin b) = true -> (a <= b)%Qc.
Proof.
  unfold leb, ltb, eqb, qc_ltb, qc_eqb, Qccompare, Qcle. intros H.
  apply Qle_alt. destruct (this a ?= this b)%Q; done.
Qed.

Lemma _decdate_to_ymd_between (first x last_ : f64) :
  isfinite first = true -> isfinite last_ = true ->
  x = first \/ leb first x = true -> x = last_ \/ leb x last_ = true ->
  Cal2._decdate_to_ymd first = Cal2._decdate_to_ymd last_ ->
  isfinite x = true /\ Cal2._decdate_to_ymd x = Cal2._decdate_to_ymd first.
Proof.
  intros Hf Hl H0 H1 Heq.
  destruct first as [q0| | |]; try discriminate.
  destruct last_ as [q1| | |]; try discriminate.
  destruct H0 as [->|H0]; [done|].
  destruct H1 as [->|H1]; [done|].
  destruct x as [q| | |]; try discriminate.
  split; [done|].
  rewrite !_decdate_to_ymd_fin in *.
  pose proof (f_equal (fun t : f64 * f64 * f64 => t.1.1) Heq) as Hy.
  pose proof (f_equal (fun t : f64 * f64 * f64 => t.1.2) Heq) as Hm.
  pose proof (f_equal (fun t : f64 * f64 * f64 => t.2) Heq) as Hd.
  cbn [fst snd] in Hy, Hm, Hd.
  apply of_Z_inj in Hy, Hm, Hd.
  destruct (date_between q0 q q1) as (Ey & Em & Ed);
    [by apply leb_fin | by apply leb_fin | lia | done | done |].
  by rewrite Ey, Em, Ed.
Qed.

Lemma ordered_bounds (utc : list f64) (first last_ x : f64) :
  ordered utc -> utc !! 0%nat = Some first -> last utc = Some last_ ->
  In x utc ->
  (x = first \/ leb first x = true) /\ (x = last_ \/ leb x last_ = true).
Proof.
  intros Hs Hfirst Hlast Hin. split.
  - destruct utc as [|a rest]; [done|]. injection Hfirst as ->.
    apply StronglySorted_inv in Hs as [_ Hall].
    destruct Hin as [->|Hin]; [by left|]. right.
    rewrite List.Forall_forall in Hall. by apply Hall.
  - clear Hfirst. induction Hs as [|a rest Hs IH Hall]; [done|].
    destruct rest as [|b rest].
    + injection Hlast as <-. destruct Hin as [->|[]]. by left.
    + change (last (a :: b :: rest)) with (last (b :: rest)) in Hlast.
      destruct Hin as [->|Hin]; [|by apply IH].
      right. rewrite List.Forall_forall in Hall. apply Hall.
      clear -Hlast. revert b Hlast.
      induction rest as [|c rest IH]; intros b Hlast.
      * injection Hlast as <-. by left.
      * right. apply IH. exact Hlast.
Qed.

(** ** C8 *)

Lemma traverse_map {A B C : Type} (f : B -> result C) (h : A -> B)
    (l : list A) :
  traverse f (map h l) = traverse (fun x => f (h x)) l.
Proof. induction l as [|x l IH]; [done|]. cbn [map traverse]. by rewrite IH. Qed.

Lemma traverse_ext {A B : Type} (f g : A -> result B) (l : list A) :
  (forall x, In x l -> f x = g x) -> traverse f l = traverse g l.
Proof.
  induction l as [|x l IH]; intros H; [done|]. cbn [traverse].
  rewrite (H x) by (by left). rewrite IH; [done|].
  intros y Hy. apply H. by right.
Qed.

Lemma traverse_Ok {A B : Type} (f : A -> result B) (h : A -> B)
    (l : list A) :
  (forall x, In x l -> f x = Ok (h x)) -> traverse f l = Ok (map h l).
Proof.
  induction l as [|x l IH]; intros H; [done|]. cbn [traverse map].
  rewrite (H x) by (by left). rewrite bind_Ok, IH; [done|].
  intros y Hy. apply H. by right.
Qed.

Lemma seconds_into_day_fin (u : f64) :
  isfinite u = true ->
  to_int (Cal2.seconds_into_day u) = Ok (whole_seconds u).
Proof.
  destruct u as [q| | |]; try discriminate. intros _.
  unfold whole_seconds.
  assert (H : exists r, Cal2.seconds_into_day (Fin q) = Fin r).
  { unfold Cal2.seconds_into_day, floor, of_Z, of_Q, sub, mul, add, opp.
    eauto. }
  destruct H as [r ->]. reflexivity.
Qed.

(** The body of the loop of [datetime] decodes one sample. *)
Lemma datetime_body_sample (u : f64) :
  isfinite u = true -> Cal2.datetime_body u = datetime_of_sample u.
Proof.
  intros Hu. unfold datetime_of_sample.
  rewrite (seconds_into_day_fin u Hu).
  destruct u as [q| | |]; try discriminate.
  rewrite _decdate_to_ymd_fin. unfold Cal2.datetime_of_ymd.
  rewrite !to_int_of_Z, !bind_Ok.
  unfold Cal2.datetime_body.
  change (of_Z 10000) with (Fin (Q2Qc (inject_Z 10000))).
  change (of_Z 100) with (Fin (Q2Qc (inject_Z 100))).
  rewrite (div_fin q _ c10000_nonzero).
  change (floor (Fin (q / Q2Qc (inject_Z 10000))%Qc))
    with (of_Z (year_of q)).
  change (sub (Fin q) (mul (of_Z (year_of q)) (Fin (Q2Qc (inject_Z 10000)))))
    with (Fin (remainder_of q)).
  rewrite (div_fin (remainder_of q) _ c100_nonzero).
  change (floor (Fin (remainder_of q / Q2Qc (inject_Z 100))%Qc))
    with (of_Z (month_of q)).
  change (floor (sub (Fin (remainder_of q))
                     (mul (of_Z (month_of q)) (Fin (Q2Qc (inject_Z 100))))))
    with (of_Z (day_of q)).
  rewrite !to_int_of_Z, !bind_Ok.
  rewrite (seconds_into_day_fin (Fin q)) by done. rewrite bind_Ok.
  destruct (new_datetime _ _ _); reflexivity.
Qed.

(** The path of [datetime2] for several dates computes what [datetime]
    computes. *)
Lemma datetime2_multi_date_datetime (utc : list f64) :
  (forall u, In u utc -> isfinite u = true) ->
  Cal2.datetime2_multi_date utc (map Cal2.seconds_into_day utc)
  = Cal2.datetime_of_utc utc.
Proof.
  intros Hfin. unfold Cal2.datetime2_multi_date, Cal2.datetime_of_utc.
  assert (Hz : zip (map Cal2._decdate_to_ymd utc)
                   (map Cal2.seconds_into_day utc)
               = map (fun u => (Cal2._decdate_to_ymd u,
                                Cal2.seconds_into_day u)) utc).
  { clear. induction utc as [|u utc IH]; [done|].
    cbn [map zip_with]. by rewrite IH. }
  rewrite Hz, traverse_map. apply traverse_ext.
  intros u Hu. rewrite datetime_body_sample by auto. reflexivity.
Qed.

(** On samples of one date, the path of [datetime2] for a single date
    computes what its path for several dates computes. *)
Lemma datetime2_single_date_multi_date (utc : list f64)
    (ymd0 : f64 * f64 * f64) :
  utc <> [] ->
  (forall u, In u utc ->
     isfinite u = true /\ Cal2._decdate_to_ymd u = ymd0) ->
  Cal2.datetime2_single_date ymd0 (map Cal2.seconds_into_day utc)
  = Cal2.datetime2_multi_date utc (map Cal2.seconds_into_day utc).
Proof.
  intros Hne Hall.
  rewrite datetime2_multi_date_datetime by (intros u Hu; by apply Hall).
  unfold Cal2.datetime2_single_date, Cal2.datetime_of_utc.
  rewrite (traverse_ext Cal2.datetime_body datetime_of_sample)
    by (intros u Hu; apply datetime_body_sample; by apply Hall).
  destruct (Cal2.datetime_of_ymd ymd0) as [date|e] eqn:Hdate.
  - rewrite bind_Ok, traverse_map.
    rewrite (traverse_Ok _ whole_seconds)
      by (intros u Hu; apply seconds_into_day_fin; by apply Hall).
    rewrite bind_Ok, traverse_map. apply traverse_ext.
    intros u Hu. destruct (Hall u Hu) as [Hfin Hymd].
    unfold datetime_of_sample.
    rewrite Hymd, Hdate, bind_Ok, (seconds_into_day_fin u Hfin). done.
  - destruct utc as [|u utc]; [done|]. cbn [traverse].
    destruct (Hall u ltac:(by left)) as [Hfin Hymd].
    unfold datetime_of_sample. rewrite Hymd, Hdate. reflexivity.
Qed.

Lemma isfinite_between (first x last_ : f64) :
  isfinite first = true -> isfinite last_ = true ->
  x = first \/ leb first x = true -> x = last_ \/ leb x last_ = true ->
  isfinite x = true.
Proof.
  intros Hf Hl [->|H0] [->|H1]; try done.
  destruct first, x, last_; done.
Qed.

Lemma eqb_of_Z_refl (d : Z) : eqb (of_Z d) (of_Z d) = true.
Proof.
  unfold eqb, of_Z, of_Q, qc_eqb.
  by rewrite (proj1 (Qceq_alt _ _) eq_refl).
Qed.

(** C8, at the failing input: the samples of 15 January 2010 noon and of
    15 February 2010 noon are in time order and decode to two dates, yet
    [datetime2] takes its path for a single date, as only the days of the
    month are compared; it returns 15 January for both samples, where
    [datetime] returns the two dates. *)
Theorem datetime2_single_date_path_on_two_dates :
  ordered [of_Q (1001155 # 10); of_Q (1002155 # 10)]
  /\ Cal2._decdate_to_ymd (of_Q (1001155 # 10))
     <> Cal2._decdate_to_ymd (of_Q (1002155 # 10))
  /\ Cal2.single_date (of_Q (1001155 # 10)) (of_Q (1002155 # 10)) = true
  /\ Cal2.datetime2_of_utc [of_Q (1001155 # 10); of_Q (1002155 # 10)]
     = Ok [{| ordinal := 733787; second := 43200 |};
           {| ordinal := 733787; second := 43200 |}]
  /\ Cal2.datetime_of_utc [of_Q (1001155 # 10); of_Q (1002155 # 10)]
     = Ok [{| ordinal := 733787; second := 43200 |};
           {| ordinal := 733818; second := 43200 |}].
Proof.
  split; [repeat constructor|].
  split.
  { intros H.
    apply (f_equal (fun t : f64 * f64 * f64 =>
                      match t.1.2 with
                      | Fin q => Qnum (this q)
                      | _ => 0
                      end)) in H.
    vm_compute in H. discriminate. }
  split; [vm_compute; reflexivity|].
  split; vm_compute; reflexivity.
Qed.

(** The two paths of [datetime2] in general: for every sequence of finite
    samples in time order,
    [datetime2] takes its path for several dates exactly when the days of
    the month of the first and of the last sample differ; that path
    computes what [datetime] computes; and when the first and the last
    sample decode to the same calendar date, the path for a single date
    and the path for several dates produce identical arrays, so that
    [datetime2] and [datetime] agree. *)
Lemma datetime2_paths_agree_on_single_date (self : Cal)
    (idx : option (Z * Z)) (utc : list f64) (first last_ : f64) :
  utc !! 0%nat = Some first -> last utc = Some last_ -> ordered utc ->
  isfinite first = true -> isfinite last_ = true ->
  Cal2.datetime2_of_utc utc
  = (if eqb (Cal2._decdate_to_ymd first).2 (Cal2._decdate_to_ymd last_).2
     then Cal2.datetime2_single_date (Cal2._decdate_to_ymd first)
            (map Cal2.seconds_into_day utc)
     else Cal2.datetime2_multi_date utc (map Cal2.seconds_into_day utc))
  /\ Cal2.datetime2_multi_date utc (map Cal2.seconds_into_day utc)
     = Cal2.datetime_of_utc utc
  /\ (Cal2._decdate_to_ymd first = Cal2._decdate_to_ymd last_ ->
      Cal2.datetime2_single_date (Cal2._decdate_to_ymd first)
        (map Cal2.seconds_into_day utc)
      = Cal2.datetime2_multi_date utc (map Cal2.seconds_into_day utc)
      /\ Cal2.datetime2_of_utc utc = Cal2.datetime_of_utc utc
      /\ (Cal2.utc_time self idx = Ok utc ->
          Cal2.datetime2 self idx = Cal2.datetime self idx)).
Proof.
  intros Hfirst Hlast Hord Hf Hl.
  assert (Hsel : Cal2.datetime2_of_utc utc
    = (if eqb (Cal2._decdate_to_ymd first).2 (Cal2._decdate_to_ymd last_).2
       then Cal2.datetime2_single_date (Cal2._decdate_to_ymd first)
              (map Cal2.seconds_into_day utc)
       else Cal2.datetime2_multi_date utc (map Cal2.seconds_into_day utc))).
  { unfold Cal2.datetime2_of_utc. by rewrite Hfirst, Hlast. }
  assert (Hfin : forall u, In u utc -> isfinite u = true).
  { intros u Hu.
    destruct (ordered_bounds utc first last_ u Hord Hfirst Hlast Hu).
    by apply (isfinite_between first u last_). }
  assert (Hmulti := datetime2_multi_date_datetime utc Hfin).
  split; [exact Hsel|]. split; [exact Hmulti|].
  intros Heq.
  assert (Hsingle : Cal2.datetime2_single_date (Cal2._decdate_to_ymd first)
                      (map Cal2.seconds_into_day utc)
                    = Cal2.datetime2_multi_date utc
                        (map Cal2.seconds_into_day utc)).
  { apply datetime2_single_date_multi_date.
    - intros ->. done.
    - intros u Hu.
      destruct (ordered_bounds utc first last_ u Hord Hfirst Hlast Hu).
      by apply (_decdate_to_ymd_between first u last_). }
  assert (Hsame : Cal2.datetime2_of_utc utc = Cal2.datetime_of_utc utc).
  { rewrite Hsel, <- Heq.
    destruct first as [q0| | |]; try discriminate.
    rewrite _decdate_to_ymd_fin. cbn [snd].
    rewrite eqb_of_Z_refl, <- Hmulti, <- Hsingle.
    by rewrite _decdate_to_ymd_fin. }
  split; [exact Hsingle|]. split; [exact Hsame|].
  intros Hutc. unfold Cal2.datetime2, Cal2.datetime.
  by rewrite Hutc, !bind_Ok.
Qed.

Example datetime2_paths_agree_on_single_date_example :
  Cal2.datetime2_of_utc [of_Q (1001155 # 10); of_Q (1001157 # 10)]
  = Cal2.datetime_of_utc [of_Q (1001155 # 10); of_Q (1001157 # 10)].
Proof.
  destruct (datetime2_paths_agree_on_single_date
              {| hdf := None; z := ZN; valid_rms_profiles := None |} None
              [of_Q (1001155 # 10); of_Q (1001157 # 10)]
              (of_Q (1001155 # 10)) (of_Q (1001157 # 10)))
    as (_ & _ & Hsame).
  - reflexivity.
  - reflexivity.
  - repeat constructor.
  - reflexivity.
  - reflexivity.
  - destruct Hsame as (_ & H & _); [|exact H].
    unfold of_Q. rewrite !_decdate_to_ymd_fin.
    vm_compute. reflexivity.
Defined.

(** * Further properties *)

(** ** Feature classification flags *)

Lemma entry_map {A B : Type} (g : A -> B) (a : list (list A)) (i j : nat) :
  entry (map (map g) a) i j = g <$> entry a i j.
Proof.
  unfold entry.
  change (map (map g) a) with (map g <$> a). rewrite list_lookup_fmap.
  destruct (a !! i) as [row|]; [|done]. cbn.
  change (map g row) with (g <$> row). by rewrite list_lookup_fmap.
Qed.

Lemma land_shiftr_field (x mask shift width : Z) :
  0 <= shift -> 0 <= width -> Z.shiftr mask shift = Z.ones width ->
  Z.shiftr (Z.land x mask) shift = (x / 2 ^ shift) mod 2 ^ width.
Proof.
  intros Hs Hw Hm.
  rewrite Z.shiftr_land, Hm, Z.land_ones, Z.shiftr_div_pow2 by done.
  reflexivity.
Qed.

(** X1: the five fields that [layer_type], [layer_type_qa], [phase],
    [phase_qa] and [layer_subtype] extract from a flag lie in their
    ranges (3, 2, 2, 2 and 3 bits) and together hold the low 12 bits of
    the flag, which they put back together. *)
Theorem flag_fields_partition (f : list (list Z)) (i j : nat) (x : Z) :
  entry f i j = Some x ->
  exists t q p pq s,
    entry (Cal2.layer_type f) i j = Some t
    /\ entry (Cal2.layer_type_qa f) i j = Some q
    /\ entry (Cal2.phase f) i j = Some p
    /\ entry (Cal2.phase_qa f) i j = Some pq
    /\ entry (Cal2.layer_subtype f) i j = Some s
    /\ 0 <= t <= 7 /\ 0 <= q <= 3 /\ 0 <= p <= 3 /\ 0 <= pq <= 3
    /\ 0 <= s <= 7
    /\ x mod 4096 = t + 8 * q + 32 * p + 128 * pq + 512 * s.
Proof.
  intros Hx.
  unfold Cal2.layer_type, Cal2.layer_type_qa, Cal2.phase, Cal2.phase_qa,
    Cal2.layer_subtype.
  rewrite !entry_map, Hx. cbn [fmap option_fmap option_map].
  do 5 eexists. do 5 (split; [reflexivity|]).
  assert (H7 : Z.land x 7 = x mod 8)
    by (change 7 with (Z.ones 3); by rewrite Z.land_ones by lia).
  rewrite H7.
  rewrite (land_shiftr_field x 24 3 2), (land_shiftr_field x 96 5 2),
    (land_shiftr_field x 384 7 2), (land_shiftr_field x 3584 9 3)
    by (lia || reflexivity).
  change (2 ^ 3) with 8. change (2 ^ 2) with 4. change (2 ^ 5) with 32.
  change (2 ^ 7) with 128. change (2 ^ 9) with 512.
  assert (H32 : x / 32 = x / 8 / 4) by (by rewrite Z.div_div by lia).
  assert (H128 : x / 128 = x / 8 / 4 / 4)
    by (by rewrite !Z.div_div by lia).
  assert (H512 : x / 512 = x / 8 / 4 / 4 / 4)
    by (by rewrite !Z.div_div by lia).
  assert (H4096 : x / 4096 = x / 8 / 4 / 4 / 4 / 8)
    by (by rewrite !Z.div_div by lia).
  pose proof (Z.div_mod x 4096 ltac:(lia)) as E.
  rewrite H4096 in E. rewrite H512, H128, H32.
  pose proof (Z.div_mod x 8 ltac:(lia)) as E1.
  pose proof (Z.mod_pos_bound x 8 ltac:(lia)) as B1.
  set (q1 := x / 8) in *.
  pose proof (Z.div_mod q1 4 ltac:(lia)) as E2.
  pose proof (Z.mod_pos_bound q1 4 ltac:(lia)) as B2.
  set (q2 := q1 / 4) in *.
  pose proof (Z.div_mod q2 4 ltac:(lia)) as E3.
  pose proof (Z.mod_pos_bound q2 4 ltac:(lia)) as B3.
  set (q3 := q2 / 4) in *.
  pose proof (Z.div_mod q3 4 ltac:(lia)) as E4.
  pose proof (Z.mod_pos_bound q3 4 ltac:(lia)) as B4.
  set (q4 := q3 / 4) in *.
  pose proof (Z.div_mod q4 8 ltac:(lia)) as E5.
  pose proof (Z.mod_pos_bound q4 8 ltac:(lia)) as B5.
  set (q5 := q4 / 8) in *.
  repeat split; lia.
Qed.

Lemma flag_fields_partition_witness :
  exists t q p pq s,
    entry (Cal2.layer_type [[2762]]) 0 0 = Some t
    /\ entry (Cal2.layer_type_qa [[2762]]) 0 0 = Some q
    /\ entry (Cal2.phase [[2762]]) 0 0 = Some p
    /\ entry (Cal2.phase_qa [[2762]]) 0 0 = Some pq
    /\ entry (Cal2.layer_subtype [[2762]]) 0 0 = Some s
    /\ 0 <= t <= 7 /\ 0 <= q <= 3 /\ 0 <= p <= 3 /\ 0 <= pq <= 3
    /\ 0 <= s <= 7
    /\ 2762 mod 4096 = t + 8 * q + 32 * p + 128 * pq + 512 * s.
Proof. exact (flag_fields_partition [[2762]] 0 0 2762 eq_refl). Defined.

(** ** Level 2 reads *)

Lemma Cal2_read_var_no_idx (self : Cal) (var : string) :
  Cal2._read_var self var None = Raise (no_idx_error self var).
Proof.
  unfold Cal2._read_var, no_idx_error.
  destruct (hdf self) as [sd|]; [|done]. by destruct (sd !! var).
Qed.

(** X2: a level 2 accessor that is called without [idx] returns nothing:
    [lat], [lon], [coords], [time], [utc_time], [datetime], [datetime2],
    [tropopause_height] and [layers_number] with their default
    [idx=None], and [statistics_532] always, raise the exception of the
    read, which is [TypeError] on an open file that holds the variable. *)
Theorem level2_default_idx_raises (self : Cal) :
  Cal2.lat self None = Raise (no_idx_error self "Latitude")
  /\ Cal2.lon self None = Raise (no_idx_error self "Longitude")
  /\ Cal2.coords self None = Raise (no_idx_error self "Latitude")
  /\ Cal2.time self None = Raise (no_idx_error self "Profile_Time")
  /\ Cal2.utc_time self None = Raise (no_idx_error self "Profile_UTC_Time")
  /\ Cal2.datetime self None = Raise (no_idx_error self "Profile_UTC_Time")
  /\ Cal2.datetime2 self None = Raise (no_idx_error self "Profile_UTC_Time")
  /\ Cal2.tropopause_height self None
     = Raise (no_idx_error self "Tropopause_Height")
  /\ Cal2.layers_number self None
     = Raise (no_idx_error self "Number_Layers_Found")
  /\ Cal2.statistics_532 self
     = Raise (no_idx_error self "Attenuated_Backscatter_Statistics_532").
Proof.
  unfold Cal2.lat, Cal2.lon, Cal2.coords, Cal2.time, Cal2.datetime,
    Cal2.datetime2, Cal2.utc_time, Cal2.tropopause_height,
    Cal2.layers_number, Cal2.statistics_532.
  rewrite !Cal2_read_var_no_idx. repeat split; reflexivity.
Qed.

Ltac zbool :=
  repeat match goal with
         | |- context [?a =? ?b] => destruct (Z.eqb_spec a b)
         | |- context [?a <? ?b] => destruct (Z.ltb_spec a b)
         | |- context [?a <=? ?b] => destruct (Z.leb_spec a b)
         end.

Lemma sds_axis_all (len : nat) :
  (0 < len)%nat ->
  Cal2.sds_axis (Z.of_nat len) None None = Ok (0%nat, len).
Proof.
  intros H. unfold Cal2.sds_axis. cbn zeta. zbool; cbn [orb]; try lia.
  do 2 f_equal; lia.
Qed.

Lemma sds_axis_range (len a b : nat) :
  (a < b)%nat -> (a < len)%nat ->
  Cal2.sds_axis (Z.of_nat len) (Some (Z.of_nat a)) (Some (Z.of_nat b))
  = Ok (a, (b `min` len - a)%nat).
Proof.
  intros Hab Ha. unfold Cal2.sds_axis. cbn zeta. zbool; cbn [orb]; try lia.
  all: f_equal; f_equal; lia.
Qed.

Lemma sds_axis_stop_0 (len a : nat) :
  (a < len)%nat ->
  Cal2.sds_axis (Z.of_nat len) (Some (Z.of_nat a)) (Some 0)
  = Ok (a, (len - a)%nat).
Proof.
  intros Ha. unfold Cal2.sds_axis. cbn zeta. zbool; cbn [orb]; try lia.
  all: f_equal; f_equal; lia.
Qed.

Lemma sds_axis_empty (len a : nat) :
  (0 < a)%nat ->
  Cal2.sds_axis (Z.of_nat len) (Some (Z.of_nat a)) (Some (Z.of_nat a))
  = Raise HDF4Error.
Proof.
  intros Ha. unfold Cal2.sds_axis. cbn zeta. zbool; cbn [orb]; try lia.
  all: done.
Qed.

Lemma take_min_length {A : Type} (l : list A) (n : nat) :
  take (n `min` length l) l = take n l.
Proof.
  destruct (Nat.le_ge_cases n (length l)) as [H|H].
  - by rewrite Nat.min_l.
  - rewrite Nat.min_r by done. by rewrite !take_ge.
Qed.

(** X3: how [idx] selects the profiles of a level 2 variable that holds
    [N > 0] profiles of at least one value, on an open file.  [(0, -1)]
    reads the variable whole, its last profile included.  Another
    [(i0, i1)] with [0 <= i0 < i1] and [i0 < N] reads the profiles from
    [i0] to [i1] excluded, to the last one when [N < i1].  A stop of 0 is a
    stop that is not given: [(i0, 0)] reads from [i0] to the last profile,
    so [(0, 0)] reads the variable whole.  The empty range [(i0, i0)] at
    the end of the variable or beyond, [N <= i0], is refused: the read
    raises instead of returning an array without profiles. *)
Theorem level2_idx_range (self : Cal) (sd : SD) (var : string)
    (rows : list (list f64)) (i0 i1 : nat) :
  hdf self = Some sd -> sd !! var = Some (Arr2 rows) ->
  (0 < length rows)%nat -> (0 < ncols rows)%nat ->
  Cal2._read_var self var (Some (0, -1)) = Ok (Arr2 rows)
  /\ ((i0 < i1)%nat -> (i0 < length rows)%nat ->
      Cal2._read_var self var (Some (Z.of_nat i0, Z.of_nat i1))
      = Ok (Arr2 (take (i1 - i0) (drop i0 rows))))
  /\ ((i0 < length rows)%nat ->
      Cal2._read_var self var (Some (Z.of_nat i0, 0))
      = Ok (Arr2 (drop i0 rows)))
  /\ Cal2._read_var self var (Some (0, 0)) = Ok (Arr2 rows)
  /\ ((length rows <= i0)%nat ->
      exists e,
        Cal2._read_var self var (Some (Z.of_nat i0, Z.of_nat i0))
        = Raise e).
Proof.
  intros Hsd Hvar Hn Hc. unfold Cal2._read_var. rewrite Hsd, Hvar.
  assert (Hstop : forall a : nat, (a < length rows)%nat ->
    Cal2.sds_getitem (Arr2 rows) (Some (Z.of_nat a)) (Some 0)
    = Ok (Arr2 (drop a rows))).
  { intros a Ha. unfold Cal2.sds_getitem.
    rewrite sds_axis_stop_0, sds_axis_all by done. rewrite !bind_Ok.
    rewrite take_ge by (rewrite length_drop; lia). done. }
  split; [|split; [|split; [|split]]].
  - cbn [Z.eqb andb Pos.eqb]. unfold Cal2.sds_getitem.
    rewrite !sds_axis_all by done. rewrite !bind_Ok.
    cbn [drop]. by rewrite firstn_all.
  - intros Hlt Hi0.
    destruct (Z.eqb_spec (Z.of_nat i1) (-1)); [lia|]. rewrite andb_false_r.
    unfold Cal2.sds_getitem.
    rewrite sds_axis_range, sds_axis_all by done. rewrite !bind_Ok.
    do 2 f_equal.
    rewrite <- (take_min_length (drop i0 rows) (i1 - i0)).
    f_equal. rewrite length_drop. lia.
  - intros Hi0. rewrite andb_false_r. by apply Hstop.
  - cbn [Z.eqb andb]. exact (Hstop 0%nat Hn).
  - intros Hi0. exists HDF4Error.
    destruct (Z.eqb_spec (Z.of_nat i0) (-1)); [lia|]. rewrite andb_false_r.
    unfold Cal2.sds_getitem. rewrite sds_axis_empty by lia. done.
Qed.

Lemma level2_idx_range_witness :
  Cal2._read_var
    {| hdf := Some {[ "Latitude" :=
                        Arr2 (map (map of_Z) [[1; 2; 3]; [4; 5; 6]]) ]};
       z := ZN; valid_rms_profiles := None |}
    "Latitude" (Some (0, -1))
  = Ok (Arr2 (map (map of_Z) [[1; 2; 3]; [4; 5; 6]]))
  /\ Cal2._read_var
       {| hdf := Some {[ "Latitude" :=
                           Arr2 (map (map of_Z) [[1; 2; 3]; [4; 5; 6]]) ]};
          z := ZN; valid_rms_profiles := None |}
       "Latitude" (Some (1, 2))
     = Ok (Arr2 (map (map of_Z) [[4; 5; 6]]))
  /\ Cal2._read_var
       {| hdf := Some {[ "Latitude" :=
                           Arr2 (map (map of_Z) [[1; 2; 3]; [4; 5; 6]]) ]};
          z := ZN; valid_rms_profiles := None |}
       "Latitude" (Some (0, 0))
     = Ok (Arr2 (map (map of_Z) [[1; 2; 3]; [4; 5; 6]]))
  /\ exists e,
       Cal2._read_var
         {| hdf := Some {[ "Latitude" :=
                             Arr2 (map (map of_Z) [[1; 2; 3]; [4; 5; 6]]) ]};
            z := ZN; valid_rms_profiles := None |}
         "Latitude" (Some (2, 2))
       = Raise e.
Proof.
  destruct (level2_idx_range
              {| hdf := Some {[ "Latitude" :=
                          Arr2 (map (map of_Z) [[1; 2; 3]; [4; 5; 6]]) ]};
                 z := ZN; valid_rms_profiles := None |}
              {[ "Latitude" :=
                   Arr2 (map (map of_Z) [[1; 2; 3]; [4; 5; 6]]) ]}
              "Latitude" (map (map of_Z) [[1; 2; 3]; [4; 5; 6]]) 1 2)
    as (Hall & Hrange & _ & Hzero & _).
  - reflexivity.
  - reflexivity.
  - simpl. lia.
  - simpl. lia.
  - split; [exact Hall|]. split; [apply Hrange; simpl; lia|].
    split; [exact Hzero|].
    destruct (level2_idx_range
                {| hdf := Some {[ "Latitude" :=
                            Arr2 (map (map of_Z) [[1; 2; 3]; [4; 5; 6]]) ]};
                   z := ZN; valid_rms_profiles := None |}
                {[ "Latitude" :=
                     Arr2 (map (map of_Z) [[1; 2; 3]; [4; 5; 6]]) ]}
                "Latitude" (map (map of_Z) [[1; 2; 3]; [4; 5; 6]]) 2 2)
      as (_ & _ & _ & _ & Hempty).
    + reflexivity.
    + reflexivity.
    + simpl. lia.
    + simpl. lia.
    + apply Hempty. simpl. lia.
Defined.

Lemma traverse_length {A B : Type} (f : A -> result B) (l : list A)
    (r : list B) :
  traverse f l = Ok r -> length r = length l.
Proof.
  revert r. induction l as [|x l IH]; intros r H.
  - injection H as <-. done.
  - cbn [traverse] in H. destruct (f x) as [y|e]; [|discriminate].
    cbn in H. destruct (traverse f l) as [ys|e]; [|discriminate].
    injection H as <-. cbn. f_equal. by apply IH.
Qed.

(** X4: when they return, [datetime] and [datetime2] give one timestamp
    per sample that [utc_time] returns. *)
Theorem datetime_one_per_sample (self : Cal) (idx : option (Z * Z))
    (utc : list f64) :
  Cal2.utc_time self idx = Ok utc ->
  (forall r, Cal2.datetime self idx = Ok r -> length r = length utc)
  /\ (forall r, Cal2.datetime2 self idx = Ok r -> length r = length utc).
Proof.
  intros Hutc.
  unfold Cal2.datetime, Cal2.datetime2. rewrite Hutc, !bind_Ok.
  split.
  - intros r Hr. by apply traverse_length in Hr.
  - intros r. unfold Cal2.datetime2_of_utc.
    destruct (utc !! 0%nat) as [first|]; [|discriminate].
    destruct (last utc) as [last_|]; [|discriminate].
    destruct (Cal2.single_date first last_).
    + unfold Cal2.datetime2_single_date.
      destruct (Cal2.datetime_of_ymd _) as [date|e]; [|discriminate].
      rewrite bind_Ok.
      destruct (traverse to_int _) as [deltas|e] eqn:Hd; [|discriminate].
      rewrite bind_Ok. intros Hr.
      apply traverse_length in Hr, Hd.
      rewrite length_map in Hd. congruence.
    + unfold Cal2.datetime2_multi_date. intros Hr.
      apply traverse_length in Hr.
      rewrite length_zip_with, !length_map in Hr. lia.
Qed.

Lemma datetime_one_per_sample_witness :
  exists r r2,
    Cal2.datetime
      {| hdf := Some {[ "Profile_UTC_Time" :=
                          Arr2 [[of_Z 0; of_Q (2004271 # 20); of_Z 0];
                                [of_Z 0; of_Q (400855 # 4); of_Z 0]] ]};
         z := ZN; valid_rms_profiles := None |} (Some (0, -1)) = Ok r
    /\ Cal2.datetime2
         {| hdf := Some {[ "Profile_UTC_Time" :=
                             Arr2 [[of_Z 0; of_Q (2004271 # 20); of_Z 0];
                                   [of_Z 0; of_Q (400855 # 4); of_Z 0]] ]};
            z := ZN; valid_rms_profiles := None |} (Some (0, -1)) = Ok r2
    /\ length r = 2%nat /\ length r2 = 2%nat.
Proof.
  destruct (datetime_one_per_sample
              {| hdf := Some {[ "Profile_UTC_Time" :=
                          Arr2 [[of_Z 0; of_Q (2004271 # 20); of_Z 0];
                                [of_Z 0; of_Q (400855 # 4); of_Z 0]] ]};
                 z := ZN; valid_rms_profiles := None |} (Some (0, -1))
              [of_Q (2004271 # 20); of_Q (400855 # 4)])
    as (H1 & H2).
  - reflexivity.
  - eexists _, _. split; [vm_compute; reflexivity|].
    split; [vm_compute; reflexivity|].
    split; [apply H1 | apply H2]; vm_compute; reflexivity.
Defined.

(** ** Decoding a decimal date *)


Lemma Qfloor_unique (x : Q) (z : Z) :
  (inject_Z z <= x)%Q -> (x < inject_Z (z + 1))%Q -> Qfloor x = z.
Proof.
  intros H0 H1.
  pose proof (Qfloor_le x) as Hle.
  apply Qfloor_resp_le in H0. rewrite Qfloor_Z in H0.
  assert (H2 : (inject_Z (Qfloor x) < inject_Z (z + 1))%Q) by lra.
  rewrite <- Zlt_Qlt in H2. lia.
Qed.

Lemma this_plus (a b : Qc) : (this (a + b)%Qc == this a + this b)%Q.
Proof. apply Qred_correct. Qed.

Lemma this_mult (a b : Qc) : (this (a * b)%Qc == this a * this b)%Q.
Proof. apply Qred_correct. Qed.

Lemma this_opp (a : Qc) : (this (- a)%Qc == - this a)%Q.
Proof. apply Qred_correct. Qed.

Lemma this_inv (a : Qc) : (this (/ a)%Qc == / this a)%Q.
Proof. apply Qred_correct. Qed.

Lemma this_div (a b : Qc) : (this (a / b)%Qc == this a / this b)%Q.
Proof. unfold Qcdiv. rewrite this_mult, this_inv. reflexivity. Qed.

Lemma this_Q2Qc (x : Q) : (this (Q2Qc x) == x)%Q.
Proof. apply Qred_correct. Qed.

(** ** Calendar dates *)

Lemma days_before_year_bounds (y : Z) :
  1 <= y <= 9999 ->
  0 <= days_before_year y
  /\ (y <= 9998 -> days_before_year y <= 3651331).
Proof.
  intros Hy. unfold days_before_year. cbn zeta.
  pose proof (Z.div_mod (y - 1) 4 ltac:(lia)).
  pose proof (Z.mod_pos_bound (y - 1) 4 ltac:(lia)).
  pose proof (Z.div_mod (y - 1) 100 ltac:(lia)).
  pose proof (Z.mod_pos_bound (y - 1) 100 ltac:(lia)).
  pose proof (Z.div_mod (y - 1) 400 ltac:(lia)).
  pose proof (Z.mod_pos_bound (y - 1) 400 ltac:(lia)).
  split; [lia|]. intros Hy'. lia.
Qed.

Lemma day_of_year_bounds (y m d : Z) :
  1 <= m <= 12 -> 1 <= d <= days_in_month y m ->
  1 <= days_before_month y m + d <= (if is_leap y then 366 else 365).
Proof.
  intros Hm Hd. unfold days_before_month.
  pose (dim := fun (leap : bool) (month : Z) =>
    if month =? 2 then (if leap then 29 else 28)
    else if (month =? 4) || (month =? 6) || (month =? 9) || (month =? 11)
         then 30
         else 31).
  assert (E : forall k, days_in_month y k = dim (is_leap y) k) by done.
  rewrite E in Hd.
  rewrite (map_ext _ _ E).
  generalize dependent (is_leap y). intros b Hd _.
  assert (Hc : m = 1 \/ m = 2 \/ m = 3 \/ m = 4 \/ m = 5 \/ m = 6 \/ m = 7
               \/ m = 8 \/ m = 9 \/ m = 10 \/ m = 11 \/ m = 12) by lia.
  destruct b;
    (destruct Hc as [->|[->|[->|[->|[->|[->|[->|[->|[->|[->|[->| ->]]]]]]]]]]]);
    match type of Hd with
    | _ <= _ <= ?x => let v := eval vm_compute in x in change x with v in Hd
    end;
    match goal with
    | |- _ <= ?x + _ <= ?c =>
        let v := eval vm_compute in x in
        let w := eval vm_compute in c in
        change (1 <= v + d <= w)
    end; lia.
Qed.

(** A calendar date has an ordinal that [datetime] can hold. *)
Lemma new_datetime_Ok (y m d : Z) (dt : pydatetime) :
  new_datetime y m d = Ok dt ->
  dt = {| ordinal := ymd2ord y m d; second := 0 |}
  /\ 1 <= ymd2ord y m d <= 3652059.
Proof.
  unfold new_datetime. intros H.
  destruct (negb _); [discriminate|].
  destruct ((1 <=? y) && (y <=? 9999) && (1 <=? m) && (m <=? 12)
            && (1 <=? d) && (d <=? days_in_month y m)) eqn:E; [|discriminate].
  injection H as <-. split; [done|].
  repeat (apply andb_prop in E as [E ?]).
  repeat match goal with
         | H : (_ <=? _) = true |- _ => apply Z.leb_le in H
         end.
  pose proof (days_before_year_bounds y ltac:(lia)) as [Hy0 Hy1].
  pose proof (day_of_year_bounds y m d ltac:(lia) ltac:(lia)) as Hdoy.
  unfold ymd2ord.
  destruct (decide (y <= 9998)) as [Hy|Hy].
  - specialize (Hy1 Hy). destruct (is_leap y); lia.
  - assert (y = 9999) as -> by lia.
    change (is_leap 9999) with false in Hdoy. cbv beta iota in Hdoy.
    change (days_before_year 9999) with 3651694 in *. lia.
Qed.

Lemma new_datetime_Raise (y m d : Z) (e : exn) :
  new_datetime y m d = Raise e ->
  e = (if fits_c_int y && fits_c_int m && fits_c_int d
       then ValueError else OverflowError).
Proof.
  unfold new_datetime.
  destruct (fits_c_int y && fits_c_int m && fits_c_int d); cbn [negb].
  - destruct (_ && _); [discriminate|]. congruence.
  - congruence.
Qed.

Lemma new_datetime_valid (y m d : Z) (dt : pydatetime) :
  new_datetime y m d = Ok dt -> calendar_date y m d.
Proof.
  unfold new_datetime, calendar_date.
  destruct (negb _); [discriminate|].
  destruct ((1 <=? y) && (y <=? 9999) && (1 <=? m) && (m <=? 12)
            && (1 <=? d) && (d <=? days_in_month y m)) eqn:E; [|discriminate].
  intros _. repeat (apply andb_prop in E as [E ?]).
  repeat match goal with
         | H : (_ <=? _) = true |- _ => apply Z.leb_le in H
         end.
  lia.
Qed.

Lemma days_in_month_le (y m : Z) : days_in_month y m <= 31.
Proof.
  unfold days_in_month.
  destruct (m =? 2); [destruct (is_leap y); lia|].
  destruct (_ || _); lia.
Qed.

Lemma new_datetime_calendar (y m d : Z) :
  calendar_date y m d ->
  new_datetime y m d = Ok {| ordinal := ymd2ord y m d; second := 0 |}.
Proof.
  intros (Hy & Hm & Hd). pose proof (days_in_month_le y m) as Hle.
  unfold new_datetime, fits_c_int.
  assert ((-2147483648 <=? y) && (y <=? 2147483647)
          && ((-2147483648 <=? m) && (m <=? 2147483647))
          && ((-2147483648 <=? d) && (d <=? 2147483647)) = true) as ->.
  { repeat (apply andb_true_intro; split); apply Z.leb_le; lia. }
  cbn [negb].
  assert ((1 <=? y) && (y <=? 9999) && (1 <=? m) && (m <=? 12) && (1 <=? d)
          && (d <=? days_in_month y m) = true) as ->; [|done].
  repeat (apply andb_true_intro; split); apply Z.leb_le; lia.
Qed.

(** The month and the day of a finite sample have two digits. *)
Lemma month_day_bounds (q : Qc) :
  0 <= month_of q <= 99 /\ 0 <= day_of q <= 99.
Proof.
  pose proof (Qfloor_le (this (q / Q2Qc (inject_Z 10000))%Qc)) as Y0.
  pose proof (Qlt_floor (this (q / Q2Qc (inject_Z 10000))%Qc)) as Y1.
  fold (year_of q) in Y0, Y1.
  rewrite this_div, this_of_Z in Y0, Y1.
  rewrite inject_Z_plus in Y1.
  change (inject_Z 10000) with 10000%Q in Y0, Y1.
  change (inject_Z 1) with 1%Q in Y1.
  unfold Qdiv in Y0, Y1. change (/ 10000)%Q with (1 # 10000)%Q in Y0, Y1.
  assert (Er : (this (remainder_of q)
                == this q - inject_Z (year_of q) * 10000)%Q).
  { unfold remainder_of. rewrite this_plus, this_opp, this_mult, !this_of_Z.
    change (inject_Z 10000) with 10000%Q. ring. }
  pose proof (Qfloor_le (this (remainder_of q / Q2Qc (inject_Z 100))%Qc))
    as M0.
  pose proof (Qlt_floor (this (remainder_of q / Q2Qc (inject_Z 100))%Qc))
    as M1.
  fold (month_of q) in M0, M1.
  rewrite this_div, this_of_Z, Er in M0, M1.
  rewrite inject_Z_plus in M1.
  change (inject_Z 100) with 100%Q in M0, M1.
  change (inject_Z 1) with 1%Q in M1.
  unfold Qdiv in M0, M1. change (/ 100)%Q with (1 # 100)%Q in M0, M1.
  assert (Ed : (this (remainder_of q
                      + - (Q2Qc (inject_Z (month_of q))
                           * Q2Qc (inject_Z 100)))%Qc
                == this q - inject_Z (year_of q) * 10000
                   - inject_Z (month_of q) * 100)%Q).
  { rewrite this_plus, this_opp, this_mult, !this_of_Z, Er.
    change (inject_Z 100) with 100%Q. ring. }
  pose proof (Qfloor_le (this (remainder_of q
                      + - (Q2Qc (inject_Z (month_of q))
                           * Q2Qc (inject_Z 100)))%Qc)) as D0.
  pose proof (Qlt_floor (this (remainder_of q
                      + - (Q2Qc (inject_Z (month_of q))
                           * Q2Qc (inject_Z 100)))%Qc)) as D1.
  fold (day_of q) in D0, D1.
  rewrite Ed in D0, D1. rewrite inject_Z_plus in D1.
  change (inject_Z 1) with 1%Q in D1.
  assert (Hm0 : (inject_Z (-1) < inject_Z (month_of q))%Q)
    by (change (inject_Z (-1)) with (-1)%Q; lra).
  assert (Hm1 : (inject_Z (month_of q) < inject_Z 100)%Q)
    by (change (inject_Z 100) with 100%Q; lra).
  assert (Hd0 : (inject_Z (-1) < inject_Z (day_of q))%Q)
    by (change (inject_Z (-1)) with (-1)%Q; lra).
  assert (Hd1 : (inject_Z (day_of q) < inject_Z 100)%Q)
    by (change (inject_Z 100) with 100%Q; lra).
  rewrite <- Zlt_Qlt in Hm0, Hm1, Hd0, Hd1. lia.
Qed.

(** The seconds into the day of a finite sample: between 0 and 86399. *)
Lemma whole_seconds_bounds (q : Qc) :
  whole_seconds (Fin q)
  = Qfloor ((this q - inject_Z (Qfloor q)) * 86400)%Q
  /\ 0 <= whole_seconds (Fin q) < 86400.
Proof.
  pose (r := ((q + - Q2Qc (inject_Z (Qfloor q))) * Q2Qc (inject_Z 24)
              * Q2Qc (inject_Z 3600))%Qc).
  assert (Hr : Cal2.seconds_into_day (Fin q) = Fin r) by reflexivity.
  assert (Er : (this r == (this q - inject_Z (Qfloor q)) * 86400)%Q).
  { unfold r. rewrite !this_mult, this_plus, this_opp, !this_of_Z.
    change (inject_Z 24) with 24%Q. change (inject_Z 3600) with 3600%Q.
    ring. }
  pose proof (Qfloor_le (this q)) as H0.
  pose proof (Qlt_floor (this q)) as H1.
  rewrite inject_Z_plus in H1. change (inject_Z 1) with 1%Q in H1.
  assert (B0 : (0 <= this r)%Q) by (rewrite Er; lra).
  assert (B1 : (this r < 86400)%Q) by (rewrite Er; lra).
  assert (Hs : whole_seconds (Fin q) = Qfloor (this r)).
  { unfold whole_seconds. rewrite Hr. unfold to_int.
    assert (qc_ltb r 0%Qc = false) as ->; [|done].
    unfold qc_ltb, Qccompare.
    change (this 0%Qc) with 0%Q.
    destruct (this r ?= 0)%Q eqn:E; try done.
    apply Qlt_alt in E. lra. }
  rewrite Hs. split.
  - by rewrite Er.
  - split.
    + apply Qfloor_resp_le in B0. exact B0.
    + pose proof (Qfloor_le (this r)) as H2.
      assert (H3 : (inject_Z (Qfloor (this r)) < inject_Z 86400)%Q).
      { change (inject_Z 86400) with 86400%Q. lra. }
      by rewrite <- Zlt_Qlt in H3.
Qed.

(** The loop body on a finite sample. *)
Lemma datetime_body_fin (q : Qc) :
  (exists e, Cal2.datetime_body (Fin q) = Raise e
     /\ new_datetime (year_of q + 2000) (month_of q) (day_of q) = Raise e)
  \/ exists s, 0 <= s < 86400
     /\ s = Qfloor ((this q - inject_Z (Qfloor q)) * 86400)%Q
     /\ new_datetime (year_of q + 2000) (month_of q) (day_of q)
        = Ok {| ordinal := ymd2ord (year_of q + 2000) (month_of q)
                             (day_of q);
                second := 0 |}
     /\ Cal2.datetime_body (Fin q)
        = Ok {| ordinal := ymd2ord (year_of q + 2000) (month_of q)
                             (day_of q);
                second := s |}.
Proof.
  rewrite datetime_body_sample by done. unfold datetime_of_sample.
  rewrite _decdate_to_ymd_fin. unfold Cal2.datetime_of_ymd.
  rewrite !to_int_of_Z, !bind_Ok.
  rewrite (seconds_into_day_fin (Fin q)) by done.
  destruct (whole_seconds_bounds q) as [Hs Hb].
  destruct (new_datetime _ _ _) as [dt|e] eqn:Hd.
  - right. apply new_datetime_Ok in Hd as [-> Ho].
    exists (whole_seconds (Fin q)). split; [done|]. split; [done|].
    split; [done|]. rewrite !bind_Ok. unfold add_seconds.
    cbn [ordinal second]. rewrite Z.add_0_l.
    rewrite (Z.div_small _ 86400) by lia.
    rewrite (Z.mod_small _ 86400) by lia.
    rewrite Z.add_0_r.
    assert ((0 <? ymd2ord (year_of q + 2000) (month_of q) (day_of q))
            && (ymd2ord (year_of q + 2000) (month_of q) (day_of q)
                <=? 3652059) = true) as ->; [|done].
    apply andb_true_intro. split; [apply Z.ltb_lt | apply Z.leb_le]; lia.
  - left. by exists e.
Qed.

(** X5: for a finite sample [u], the loop body of [datetime] (and of
    [Cal1.datetimes]) raises [OverflowError] when the year of [u] plus
    2000 is no C [int]; otherwise it raises [ValueError], exactly when the
    fields of [u] are no calendar date, or returns a timestamp on the date
    of the fields of [u], at a second of that day between 0 and 86399:
    adding the seconds never moves to another day and never overflows.
    On [nan] it raises [ValueError], on an infinity [OverflowError]. *)
Theorem datetime_body_on_its_date (q : Qc) :
  (if fits_c_int (year_of q + 2000)
   then
     (Cal2.datetime_body (Fin q) = Raise ValueError
      /\ ~ calendar_date (year_of q + 2000) (month_of q) (day_of q))
     \/ (calendar_date (year_of q + 2000) (month_of q) (day_of q)
         /\ exists s, 0 <= s < 86400
            /\ Cal2.datetime_body (Fin q)
               = Ok {| ordinal := ymd2ord (year_of q + 2000) (month_of q)
                                    (day_of q);
                       second := s |})
   else Cal2.datetime_body (Fin q) = Raise OverflowError)
  /\ Cal2.datetime_body NaN = Raise ValueError
  /\ Cal2.datetime_body PInf = Raise OverflowError
  /\ Cal2.datetime_body NInf = Raise OverflowError.
Proof.
  split; [|by repeat split].
  destruct (month_day_bounds q) as [Hm Hd].
  assert (Hfm : fits_c_int (month_of q) = true).
  { unfold fits_c_int. apply andb_true_intro. split; apply Z.leb_le; lia. }
  assert (Hfd : fits_c_int (day_of q) = true).
  { unfold fits_c_int. apply andb_true_intro. split; apply Z.leb_le; lia. }
  destruct (datetime_body_fin q) as [(e & Hb & Hn)|(s & Hs & _ & Hn & Hb)].
  - pose proof (new_datetime_Raise _ _ _ _ Hn) as He.
    rewrite Hfm, Hfd, !andb_true_r in He.
    destruct (fits_c_int (year_of q + 2000)); subst e; [|done].
    left. split; [done|]. intros Hc.
    apply new_datetime_calendar in Hc. congruence.
  - pose proof (new_datetime_valid _ _ _ _ Hn) as Hc.
    assert (fits_c_int (year_of q + 2000) = true) as ->.
    { destruct Hc as (Hy & _). unfold fits_c_int.
      apply andb_true_intro. split; apply Z.leb_le; lia. }
    right. split; [done|]. by exists s.
Qed.

(** The fields of the decimal date [yymmdd.f]. *)
Lemma decimal_date_fields (yy mm dd : Z) (f : Q) :
  1 <= mm <= 12 -> 1 <= dd <= 31 -> (0 <= f < 1)%Q ->
  let q := Q2Qc (inject_Z (yy * 10000 + mm * 100 + dd) + f) in
  year_of q = yy /\ month_of q = mm /\ day_of q = dd
  /\ Qfloor q = yy * 10000 + mm * 100 + dd.
Proof.
  intros Hm Hd [Hf0 Hf1] q.
  assert (Eq : (this q == inject_Z yy * 10000 + inject_Z mm * 100
                          + inject_Z dd + f)%Q).
  { unfold q. rewrite this_Q2Qc, !inject_Z_plus, !inject_Z_mult.
    reflexivity. }
  assert (Hm0 : (1 <= inject_Z mm)%Q) by (rewrite <- (Zle_Qle 1); lia).
  assert (Hm1 : (inject_Z mm <= 12)%Q) by (rewrite <- (Zle_Qle _ 12); lia).
  assert (Hd0 : (1 <= inject_Z dd)%Q) by (rewrite <- (Zle_Qle 1); lia).
  assert (Hd1 : (inject_Z dd <= 31)%Q) by (rewrite <- (Zle_Qle _ 31); lia).
  assert (Ey : year_of q = yy).
  { unfold year_of. apply Qfloor_unique.
    - rewrite this_div, this_of_Z, Eq.
      change (inject_Z 10000) with 10000%Q.
      unfold Qdiv. change (/ 10000)%Q with (1 # 10000)%Q. lra.
    - rewrite this_div, this_of_Z, Eq, inject_Z_plus.
      change (inject_Z 10000) with 10000%Q.
      change (inject_Z 1) with 1%Q.
      unfold Qdiv. change (/ 10000)%Q with (1 # 10000)%Q. lra. }
  assert (Er : (this (remainder_of q)
                == inject_Z mm * 100 + inject_Z dd + f)%Q).
  { unfold remainder_of. rewrite Ey.
    rewrite this_plus, this_opp, this_mult, !this_of_Z, Eq.
    change (inject_Z 10000) with 10000%Q. ring. }
  assert (Em : month_of q = mm).
  { unfold month_of. apply Qfloor_unique.
    - rewrite this_div, this_of_Z, Er.
      change (inject_Z 100) with 100%Q.
      unfold Qdiv. change (/ 100)%Q with (1 # 100)%Q. lra.
    - rewrite this_div, this_of_Z, Er, inject_Z_plus.
      change (inject_Z 100) with 100%Q.
      change (inject_Z 1) with 1%Q.
      unfold Qdiv. change (/ 100)%Q with (1 # 100)%Q. lra. }
  split; [done|]. split; [done|]. split.
  - unfold day_of. rewrite Em. apply Qfloor_unique.
    + rewrite this_plus, this_opp, this_mult, !this_of_Z, Er.
      change (inject_Z 100) with 100%Q. lra.
    + rewrite this_plus, this_opp, this_mult, !this_of_Z, Er, inject_Z_plus.
      change (inject_Z 100) with 100%Q.
      change (inject_Z 1) with 1%Q. lra.
  - apply Qfloor_unique.
    + rewrite Eq, !inject_Z_plus, !inject_Z_mult.
      change (inject_Z 10000) with 10000%Q.
      change (inject_Z 100) with 100%Q. lra.
    + rewrite Eq, !inject_Z_plus, !inject_Z_mult.
      change (inject_Z 10000) with 10000%Q.
      change (inject_Z 100) with 100%Q.
      change (inject_Z 1) with 1%Q. lra.
Qed.

(** X6: decoding inverts the decimal date format.  For a calendar date
    [yy + 2000]-[mm]-[dd] (years 1 to 9999) and a fraction of the day
    [0 <= f < 1], the loop body of [datetime] on the number
    [yy * 10000 + mm * 100 + dd + f] returns a timestamp of that date, at
    a second of the day between 0 and 86399 that is within one second of
    [floor (f * 86400)]: the second itself comes out of two rounded
    multiplications. *)
Theorem datetime_body_decodes (yy mm dd : Z) (f : Q) :
  1 <= yy + 2000 <= 9999 -> 1 <= mm <= 12 ->
  1 <= dd <= days_in_month (yy + 2000) mm -> (0 <= f < 1)%Q ->
  exists s,
    Cal2.datetime_body (of_Q (inject_Z (yy * 10000 + mm * 100 + dd) + f))
    = Ok {| ordinal := ymd2ord (yy + 2000) mm dd; second := s |}
    /\ 0 <= s < 86400
    /\ Qfloor (f * 86400) - 1 <= s <= Qfloor (f * 86400) + 1.
Proof.
  intros Hy Hm Hd Hf.
  pose proof (days_in_month_le (yy + 2000) mm) as Hle.
  destruct (decimal_date_fields yy mm dd f Hm ltac:(lia) Hf)
    as (Ey & Em & Ed & Efl).
  unfold of_Q.
  set (q := Q2Qc (inject_Z (yy * 10000 + mm * 100 + dd) + f)) in *.
  pose proof (new_datetime_calendar (yy + 2000) mm dd
                (conj Hy (conj Hm Hd))) as Hnew.
  destruct (datetime_body_fin q)
    as [(e & _ & Hbad)|(s & Hb & Hs & _ & Hbody)].
  - rewrite Ey, Em, Ed in Hbad. congruence.
  - exists s. rewrite Hbody, Ey, Em, Ed. split; [done|]. split; [done|].
    assert (s = Qfloor (f * 86400)) as ->; [|lia].
    subst s. apply Qfloor_comp. rewrite Efl. unfold q.
    rewrite this_Q2Qc. ring.
Qed.

Lemma datetime_body_decodes_witness :
  exists s,
    Cal2.datetime_body
      (of_Q (inject_Z (10 * 10000 + 2 * 100 + 15) + (1 # 2)))
    = Ok {| ordinal := ymd2ord (10 + 2000) 2 15; second := s |}
    /\ 0 <= s < 86400
    /\ Qfloor ((1 # 2) * 86400) - 1 <= s <= Qfloor ((1 # 2) * 86400) + 1.
Proof.
  apply (datetime_body_decodes 10 2 15 (1 # 2)).
  - lia.
  - lia.
  - vm_compute. split; discriminate.
  - split; [discriminate | reflexivity].
Defined.

(** ** The last profile in the calibration *)

Lemma window_below_last (nprof i j : nat) (navgh : Z) :
  In j (window nprof navgh i) -> (S j < nprof)%nat.
Proof.
  unfold window. rewrite filter_In, in_seq. intros [_ H].
  apply andb_prop in H as [_ H]. apply Z.ltb_lt in H. lia.
Qed.

Lemma window_values_app (p : list (option f64)) (x : option f64)
    (w : list nat) :
  (forall j, In j w -> (j < length p)%nat) ->
  window_values (p ++ [x]) w = window_values p w.
Proof.
  unfold window_values. induction w as [|j w IH]; intros H; [done|].
  cbn [omap list_omap].
  rewrite lookup_app_l by (apply H; by left).
  rewrite IH by (intros j' Hj'; apply H; by right). done.
Qed.

Lemma moving_average_last (z : orbit_type) (navgh : Z)
    (pa pm : list (option f64)) (xa xa' xm xm' : option f64) :
  length pa = length pm ->
  exists coef,
    length coef = S (length pm)
    /\ moving_average z navgh (S (length pm)) (pa ++ [xa]) (pm ++ [xm])
       = Ok coef
    /\ moving_average z navgh (S (length pm)) (pa ++ [xa']) (pm ++ [xm'])
       = Ok coef.
Proof.
  intros Hlen.
  destruct (moving_average_coefficient z navgh (S (length pm))
              (pa ++ [xa]) (pm ++ [xm])) as (coef & Hc & Hl & Hi);
    [rewrite length_app; cbn; lia | rewrite length_app; cbn; lia |].
  destruct (moving_average_coefficient z navgh (S (length pm))
              (pa ++ [xa']) (pm ++ [xm'])) as (coef' & Hc' & Hl' & Hi');
    [rewrite length_app; cbn; lia | rewrite length_app; cbn; lia |].
  exists coef. split; [done|]. split; [done|]. rewrite Hc'. f_equal.
  apply list_eq. intros i.
  destruct (decide (i < S (length pm))%nat) as [Hlt|Hge].
  - rewrite (proj1 (Hi i Hlt)), (proj1 (Hi' i Hlt)).
    rewrite !window_values_app; [done|..];
      intros j Hj; apply window_below_last in Hj; lia.
  - rewrite !(proj2 (lookup_ge_None _ _)) by lia. done.
Qed.

(** X7: the calibration coefficients do not depend on the last profile.
    For two pairs of arrays [atb], [mol] that differ in their last row
    only, [mol_calibration_coef] returns the same coefficients, one per
    profile: the window of every profile, the last one included, leaves
    the last profile out. *)
Theorem calibration_ignores_last_profile (self : Cal) (lm la : nat)
    (arows mrows : list (list f64)) (ra ra' rm rm' : list f64)
    (h h' : heap) (navg : Z) (alt metalt : list f64) (idx : option (Z * Z))
    (navgh : Z) (zmin zmax : f64) :
  la <> lm ->
  h !! la = Some (Arr2 (arows ++ [ra])) ->
  h !! lm = Some (Arr2 (mrows ++ [rm])) ->
  h' !! la = Some (Arr2 (arows ++ [ra'])) ->
  h' !! lm = Some (Arr2 (mrows ++ [rm'])) ->
  length arows = length mrows ->
  rectangular (length alt) (arows ++ [ra]) ->
  rectangular (length alt) (arows ++ [ra']) ->
  rectangular (length alt) (mrows ++ [rm]) ->
  rectangular (length alt) (mrows ++ [rm']) ->
  exists coef,
    length coef = S (length mrows)
    /\ (Cal1.mol_calibration_coef self (RArr lm) (RArr la) navg alt metalt
          idx navgh zmin zmax h).1 = Ok coef
    /\ (Cal1.mol_calibration_coef self (RArr lm) (RArr la) navg alt metalt
          idx navgh zmin zmax h').1 = Ok coef.
Proof.
  intros Hne Ha Hm Ha' Hm' Hlen Hra Hra' Hrm Hrm'.
  rewrite (mol_calibration_coef_run self lm la _ _ h) by done.
  rewrite (mol_calibration_coef_run self lm la _ _ h') by done.
  cbn [fst]. unfold coef_of_screened, screen_atb, screen_mol, nd_map.
  cbn [calib_profile size0].
  assert (Hband : length (reference_band alt zmin zmax) = length alt)
    by (unfold reference_band; by rewrite length_map).
  rewrite !ma_mean_band_Ok
    by (rewrite Hband; by apply rectangular_map).
  rewrite !bind_Ok, !map_app, !length_app, !length_map.
  cbn [map length]. rewrite Nat.add_1_r.
  set (pa := map (fun row => ma_mean (map masked_invalid
                                (select row (reference_band alt zmin zmax))))
               (map (map (fun x => if gtb (abs x) (atb_max (z self))
                                   then NaN else x)) arows)).
  set (pm := map (fun row => ma_mean (map masked_invalid
                                (select row (reference_band alt zmin zmax))))
               (map (map (fun x => if ltb x zero then NaN else x)) mrows)).
  assert (Hpm : length mrows = length pm)
    by (unfold pm; by rewrite !length_map).
  rewrite Hpm. apply moving_average_last.
  unfold pa, pm. rewrite !length_map. done.
Qed.

Lemma calibration_ignores_last_profile_witness :
  exists coef,
    length coef = 2%nat
    /\ (Cal1.mol_calibration_coef
          {| hdf := None; z := ZN; valid_rms_profiles := None |}
          (RArr 1) (RArr 0) 30 (map of_Z [35; 32]) (map of_Z [40; 30]) None
          1 (of_Z 30) (of_Z 34)
          (<[1%nat := Arr2 [[of_Z 1; of_Z 2]; [of_Z 3; of_Z 4]]]>
             (<[0%nat := Arr2 [[of_Z 0; of_Q (2 # 100000)];
                               [of_Z 0; of_Z 0]]]> ∅))).1 = Ok coef
    /\ (Cal1.mol_calibration_coef
          {| hdf := None; z := ZN; valid_rms_profiles := None |}
          (RArr 1) (RArr 0) 30 (map of_Z [35; 32]) (map of_Z [40; 30]) None
          1 (of_Z 30) (of_Z 34)
          (<[1%nat := Arr2 [[of_Z 1; of_Z 2]; [of_Z 7; of_Z 8]]]>
             (<[0%nat := Arr2 [[of_Z 0; of_Q (2 # 100000)];
                               [of_Z 5; of_Z 6]]]> ∅))).1 = Ok coef.
Proof.
  apply (calibration_ignores_last_profile _ 1 0
           [[of_Z 0; of_Q (2 # 100000)]] [[of_Z 1; of_Z 2]]
           [of_Z 0; of_Z 0] [of_Z 5; of_Z 6] [of_Z 3; of_Z 4]
           [of_Z 7; of_Z 8]).
  - done.
  - reflexivity.
  - reflexivity.
  - reflexivity.
  - reflexivity.
  - reflexivity.
  - repeat constructor.
  - repeat constructor.
  - repeat constructor.
  - repeat constructor.
Defined.

(** ** Level 1 times *)

Lemma first_of_blocks_value (l : list f64) (navg : Z) :
  2 <= navg ->
  exists r,
    Cal1.first_of_blocks (Arr1 l) navg = Ok (Arr1 r)
    /\ length r = Z.to_nat (Z.of_nat (length l) / navg)
    /\ forall i, (i < length r)%nat ->
         is_Some (r !! i)
         /\ r !! i = block l (Z.to_nat navg) i !! 0%nat.
Proof.
  intros Hn. unfold Cal1.first_of_blocks. cbn [size0]. rewrite bind_Ok.
  set (n := Z.to_nat (Z.of_nat (length l) / navg)).
  exists (map (fun i => default zero (l !! (i * Z.to_nat navg)%nat))
              (seq 0 n)).
  split; [|split].
  - erewrite for_in_insert; [reflexivity|].
    intros i v Hi. unfold Cal1.first_of_block_body.
    pose proof (block_count_bound (length l) i navg Hn Hi) as Hb.
    replace (Z.to_nat (Z.of_nat i * navg)) with (i * Z.to_nat navg)%nat
      by lia.
    destruct (l !! (i * Z.to_nat navg)%nat) as [t|] eqn:Ht; [done|].
    apply lookup_ge_None in Ht. lia.
  - by rewrite length_map, length_seq.
  - intros i Hi. rewrite length_map, length_seq in Hi.
    rewrite map_seq_lookup by done.
    pose proof (block_count_bound (length l) i navg Hn Hi) as Hb.
    rewrite block_lookup by lia. rewrite Nat.add_0_r.
    destruct (l !! (i * Z.to_nat navg)%nat) as [t|] eqn:Ht.
    + split; [by eexists | done].
    + apply lookup_ge_None in Ht. lia.
Qed.

Lemma Cal1_read_var_raw (self : Cal) (sd : SD) (var : string) (a : ndarray)
    (l : list f64) (idx : option (Z * Z)) :
  hdf self = Some sd -> sd !! var = Some a -> squeeze a = Arr1 l ->
  l <> [] ->
  Cal1._read_var self var 1 idx None
  = Ok (PyArr (Arr1 (match idx with
                     | None => l
                     | Some i => py_slice l i.1 i.2
                     end))).
Proof.
  intros Hsd Hvar Hsq Hl. unfold Cal1._read_var, Cal1._read_sds.
  rewrite Hsd, Hvar. cbn [fmap option_fmap option_map Z.eqb].
  rewrite Hsq. cbn [Cal1.size0_opt size0]. rewrite bind_Ok.
  destruct (Z.ltb_spec (Z.of_nat (length l)) 1) as [H|H].
  - destruct l; [done | cbn in H; lia].
  - by destruct idx.
Qed.

(** X8: the time of an averaged profile is the time of the first shot of
    its block.  For [navg >= 2] and a file with at least [navg] shots,
    [time] and [utc_time] return one value per block of [navg] shots,
    [N / navg] in all: the sample at index [i * navg], the first of the
    [navg - 1] shots that the averages of block [i] are made of; and
    [datetimes] decodes exactly these values. *)
Theorem level1_time_of_block_start (self : Cal) (sd : SD) (at_ au : ndarray)
    (lt lu : list f64) (navg : Z) :
  hdf self = Some sd ->
  sd !! "Profile_Time" = Some at_ -> squeeze at_ = Arr1 lt ->
  sd !! "Profile_UTC_Time" = Some au -> squeeze au = Arr1 lu ->
  2 <= navg -> navg <= Z.of_nat (length lt) ->
  navg <= Z.of_nat (length lu) ->
  exists rt ru,
    Cal1.time self navg None = Ok (PyArr (Arr1 rt))
    /\ Cal1.utc_time self navg None = Ok (PyArr (Arr1 ru))
    /\ datetimes self navg
       = (r ← traverse Cal2.datetime_body ru; Ok (TArr r))
    /\ length rt = Z.to_nat (Z.of_nat (length lt) / navg)
    /\ length ru = Z.to_nat (Z.of_nat (length lu) / navg)
    /\ (forall i, (i < length rt)%nat ->
          is_Some (rt !! i)
          /\ rt !! i = block lt (Z.to_nat navg) i !! 0%nat)
    /\ (forall i, (i < length ru)%nat ->
          is_Some (ru !! i)
          /\ ru !! i = block lu (Z.to_nat navg) i !! 0%nat).
Proof.
  intros Hsd Hat Hsqt Hau Hsqu Hn Hlt Hlu.
  destruct (first_of_blocks_value lt navg Hn) as (rt & Ht & Hlent & Hit).
  destruct (first_of_blocks_value lu navg Hn) as (ru & Hu & Hlenu & Hiu).
  exists rt, ru.
  assert (Etime : Cal1.time self navg None = Ok (PyArr (Arr1 rt))).
  { unfold Cal1.time.
    destruct (Z.eqb_spec navg 0); [lia|].
    rewrite (Cal1_read_var_raw self sd _ at_ lt None) by
      (try done; intros ->; cbn in Hlt; lia).
    rewrite !bind_Ok.
    destruct (Z.ltb_spec (Z.of_nat (length lt)) navg); [lia|].
    destruct (Z.ltb_spec 1 navg); [|lia].
    by rewrite Ht. }
  assert (Eutc : Cal1.utc_time self navg None = Ok (PyArr (Arr1 ru))).
  { unfold Cal1.utc_time.
    destruct (Z.eqb_spec navg 0); [lia|].
    rewrite (Cal1_read_var_raw self sd _ au lu None) by
      (try done; intros ->; cbn in Hlu; lia).
    rewrite bind_Ok. cbn [size0]. rewrite bind_Ok.
    destruct (Z.ltb_spec (Z.of_nat (length lu)) navg); [lia|].
    rewrite bind_Ok.
    destruct (Z.ltb_spec 1 navg); [|lia].
    by rewrite Hu. }
  split; [exact Etime|]. split; [exact Eutc|].
  split.
  { unfold datetimes. destruct (Z.eqb_spec navg 0); [lia|].
    rewrite Eutc, bind_Ok. done. }
  done.
Qed.

Lemma level1_time_of_block_start_witness :
  exists rt ru,
    Cal1.time
      {| hdf := Some (<["Profile_Time" := Arr2 (map (fun x => [of_Z x])
                                                   [10; 11; 12; 13; 14])]>
                        {["Profile_UTC_Time" :=
                            Arr1 (map of_Q [1001155 # 10; 1001156 # 10;
                                            1001157 # 10; 1001158 # 10])]});
         z := ZN; valid_rms_profiles := None |} 2 None
    = Ok (PyArr (Arr1 rt))
    /\ Cal1.utc_time
         {| hdf := Some (<["Profile_Time" := Arr2 (map (fun x => [of_Z x])
                                                   [10; 11; 12; 13; 14])]>
                        {["Profile_UTC_Time" :=
                            Arr1 (map of_Q [1001155 # 10; 1001156 # 10;
                                            1001157 # 10; 1001158 # 10])]});
         z := ZN; valid_rms_profiles := None |} 2 None
       = Ok (PyArr (Arr1 ru))
    /\ rt !! 1%nat = Some (of_Z 12)
    /\ ru !! 1%nat = Some (of_Q (1001157 # 10)).
Proof.
  destruct (level1_time_of_block_start
              {| hdf := Some (<["Profile_Time" :=
                                  Arr2 (map (fun x => [of_Z x])
                                          [10; 11; 12; 13; 14])]>
                        {["Profile_UTC_Time" :=
                            Arr1 (map of_Q [1001155 # 10; 1001156 # 10;
                                            1001157 # 10; 1001158 # 10])]});
                 z := ZN; valid_rms_profiles := None |}
              (<["Profile_Time" := Arr2 (map (fun x => [of_Z x])
                                           [10; 11; 12; 13; 14])]>
                 {["Profile_UTC_Time" :=
                     Arr1 (map of_Q [1001155 # 10; 1001156 # 10;
                                     1001157 # 10; 1001158 # 10])]})
              (Arr2 (map (fun x => [of_Z x]) [10; 11; 12; 13; 14]))
              (Arr1 (map of_Q [1001155 # 10; 1001156 # 10;
                               1001157 # 10; 1001158 # 10]))
              (map of_Z [10; 11; 12; 13; 14])
              (map of_Q [1001155 # 10; 1001156 # 10;
                         1001157 # 10; 1001158 # 10]) 2)
    as (rt & ru & Ht & Hu & _ & Hlt & Hlu & Hit & Hiu).
  - reflexivity.
  - reflexivity.
  - reflexivity.
  - reflexivity.
  - reflexivity.
  - lia.
  - cbn. lia.
  - cbn. lia.
  - exists rt, ru. split; [exact Ht|]. split; [exact Hu|].
    split.
    + destruct (Hit 1%nat) as [_ E]; [rewrite Hlt; vm_compute; lia|].
      exact E.
    + destruct (Hiu 1%nat) as [_ E]; [rewrite Hlu; vm_compute; lia|].
      exact E.
Defined.

(** X9: a range [idx] of fewer than [navg] shots.  [time] slices before
    it compares [navg] with the number of shots and returns [None];
    [utc_time] compares [navg] with the shots of the whole file, slices
    afterwards and returns an empty array. *)
Theorem level1_short_range (self : Cal) (sd : SD) (at_ au : ndarray)
    (lt lu : list f64) (navg : Z) (i0 i1 : nat) :
  hdf self = Some sd ->
  sd !! "Profile_Time" = Some at_ -> squeeze at_ = Arr1 lt ->
  sd !! "Profile_UTC_Time" = Some au -> squeeze au = Arr1 lu ->
  2 <= navg -> navg <= Z.of_nat (length lt) ->
  navg <= Z.of_nat (length lu) ->
  (i0 <= i1)%nat -> (i1 <= length lt)%nat -> (i1 <= length lu)%nat ->
  Z.of_nat (i1 - i0) < navg ->
  Cal1.time self navg (Some (Z.of_nat i0, Z.of_nat i1)) = Ok PyNone
  /\ Cal1.utc_time self navg (Some (Z.of_nat i0, Z.of_nat i1))
     = Ok (PyArr (Arr1 [])).
Proof.
  intros Hsd Hat Hsqt Hau Hsqu Hn Hlt Hlu Hi Hi1t Hi1u Hshort.
  split.
  - unfold Cal1.time. destruct (Z.eqb_spec navg 0); [lia|].
    rewrite (Cal1_read_var_raw self sd _ at_ lt) by
      (try done; intros ->; cbn in Hlt; lia).
    rewrite !bind_Ok. cbn [fst snd].
    rewrite py_slice_range by lia.
    rewrite length_take, length_drop.
    destruct (Z.ltb_spec (Z.of_nat ((i1 - i0) `min` (length lt - i0))) navg);
      [done | lia].
  - unfold Cal1.utc_time. destruct (Z.eqb_spec navg 0); [lia|].
    rewrite (Cal1_read_var_raw self sd _ au lu None) by
      (try done; intros ->; cbn in Hlu; lia).
    rewrite bind_Ok. cbn [size0]. rewrite bind_Ok.
    destruct (Z.ltb_spec (Z.of_nat (length lu)) navg); [lia|].
    cbn [Cal1.slice_rows fst snd]. rewrite !bind_Ok.
    destruct (Z.ltb_spec 1 navg); [|lia].
    unfold Cal1.first_of_blocks. cbn [size0]. rewrite bind_Ok.
    rewrite py_slice_range by lia.
    rewrite length_take, length_drop.
    rewrite Z.div_small by lia. done.
Qed.

Lemma level1_short_range_witness :
  Cal1.time
    {| hdf := Some (<["Profile_Time" := Arr1 (map of_Z [10; 11; 12; 13])]>
                      {["Profile_UTC_Time" :=
                          Arr1 (map of_Z [100115; 100115; 100115])]});
       z := ZN; valid_rms_profiles := None |} 2
    (Some (Z.of_nat 1, Z.of_nat 2)) = Ok PyNone
  /\ Cal1.utc_time
       {| hdf := Some (<["Profile_Time" := Arr1 (map of_Z [10; 11; 12; 13])]>
                      {["Profile_UTC_Time" :=
                          Arr1 (map of_Z [100115; 100115; 100115])]});
       z := ZN; valid_rms_profiles := None |} 2
       (Some (Z.of_nat 1, Z.of_nat 2)) = Ok (PyArr (Arr1 [])).
Proof.
  apply (level1_short_range _
           (<["Profile_Time" := Arr1 (map of_Z [10; 11; 12; 13])]>
              {["Profile_UTC_Time" :=
                  Arr1 (map of_Z [100115; 100115; 100115])]})
           (Arr1 (map of_Z [10; 11; 12; 13]))
           (Arr1 (map of_Z [100115; 100115; 100115]))
           (map of_Z [10; 11; 12; 13]) (map of_Z [100115; 100115; 100115])).
  - reflexivity.
  - reflexivity.
  - reflexivity.
  - reflexivity.
  - reflexivity.
  - lia.
  - cbn. lia.
  - cbn. lia.
  - lia.
  - cbn. lia.
  - cbn. lia.
  - cbn. lia.
Defined.

(** ** Reading a closed file *)

Lemma Cal1_read_var_closed (self : Cal) (var : string) (navg : Z)
    (idx : option (Z * Z)) (missing : option f64) :
  hdf self = None -> navg <> 0 ->
  Cal1._read_var self var navg idx missing = Raise IndexError.
Proof.
  intros Hc Hn. unfold Cal1._read_var, Cal1._read_sds. rewrite Hc.
  destruct (Z.eqb_spec navg 0); [lia|]. done.
Qed.

(** X10: reading after [close].  On a closed file every level 1 accessor
    raises [IndexError] when [navg] is not 0 (the failed read is caught
    and the size of [None] is asked for), also the ones that regrid or
    calibrate, which leave the store of arrays as it is; with [navg = 0]
    the accessors still return their empty result.  Every level 2
    accessor raises [AttributeError], whatever [idx]. *)
Theorem reads_after_close (lidar_alt met_alt : list f64) (self self' : Cal)
    (navg : Z) (idx : option (Z * Z)) (alt metalt : list f64) (h : heap)
    (navgh : Z) (zmin zmax : f64) (idx2 : option (Z * Z)) (var : string) :
  close self = Ok self' ->
  (navg <> 0 ->
   Cal1.pressure self' navg idx = Raise IndexError
   /\ Cal1.temperature self' navg idx = Raise IndexError
   /\ Cal1.rh self' navg idx = Raise IndexError
   /\ Cal1.mol self' navg idx = Raise IndexError
   /\ Cal1.time self' navg idx = Raise IndexError
   /\ Cal1.utc_time self' navg idx = Raise IndexError
   /\ datetimes self' navg = Raise IndexError
   /\ Cal1.pressure_on_lidar_alt self' navg alt metalt idx = Raise IndexError
   /\ Cal1.temperature_on_lidar_alt self' navg alt metalt idx
      = Raise IndexError
   /\ Cal1.rh_on_lidar_alt self' navg alt metalt idx = Raise IndexError
   /\ Cal1.atb self' navg idx h = (Raise IndexError, h)
   /\ Cal1.mol_on_lidar_alt self' navg alt metalt idx h
      = (Raise IndexError, h)
   /\ Cal1.mol_calibration_coef self' RNone RNone navg alt metalt idx navgh
        zmin zmax h = (Raise IndexError, h)
   /\ Cal1.mol_on_lidar_alt_calibrated lidar_alt met_alt self' navg alt
        navgh metalt idx (zmin, zmax) RNone h = (Raise IndexError, h))
  /\ Cal1.pressure self' 0 idx = Ok PyEmptyList
  /\ Cal1.time self' 0 idx = Ok PyEmptyList
  /\ Cal1.utc_time self' 0 idx = Ok PyEmptyList
  /\ datetimes self' 0 = Ok TEmptyList
  /\ Cal1.pressure_on_lidar_alt self' 0 alt metalt idx = Ok (Arr2 [])
  /\ Cal2._read_var self' var idx2 = Raise AttributeError
  /\ Cal2.lat self' idx2 = Raise AttributeError
  /\ Cal2.lon self' idx2 = Raise AttributeError
  /\ Cal2.coords self' idx2 = Raise AttributeError
  /\ Cal2.time self' idx2 = Raise AttributeError
  /\ Cal2.utc_time self' idx2 = Raise AttributeError
  /\ Cal2.datetime self' idx2 = Raise AttributeError
  /\ Cal2.datetime2 self' idx2 = Raise AttributeError
  /\ Cal2.tropopause_height self' idx2 = Raise AttributeError
  /\ Cal2.layers_number self' idx2 = Raise AttributeError.
Proof.
  intros Hclose.
  assert (Hc : hdf self' = None).
  { unfold close in Hclose. destruct (hdf self); [|discriminate].
    by injection Hclose as <-. }
  assert (H2 : forall v, Cal2._read_var self' v idx2 = Raise AttributeError).
  { intros v. unfold Cal2._read_var. by rewrite Hc. }
  split.
  { intros Hn.
    assert (H1 : forall v n, n <> 0 -> forall i m,
              Cal1._read_var self' v n i m = Raise IndexError).
    { intros v n Hn' i m. by apply Cal1_read_var_closed. }
    assert (Hutc : forall i, Cal1.utc_time self' navg i = Raise IndexError).
    { intros i. unfold Cal1.utc_time.
      destruct (Z.eqb_spec navg 0); [lia|]. by rewrite H1. }
    assert (Hmol : Cal1.mol_on_lidar_alt self' navg alt metalt idx h
                   = (Raise IndexError, h)).
    { unfold Cal1.mol_on_lidar_alt, Cal1.mol, lift.
      unfold mbind at 1, M_bind at 1. by rewrite H1. }
    assert (Hatb : Cal1.atb self' navg idx h = (Raise IndexError, h)).
    { unfold Cal1.atb, lift. unfold mbind at 1, M_bind at 1.
      by rewrite H1. }
    assert (Htime : Cal1.time self' navg idx = Raise IndexError).
    { unfold Cal1.time. destruct (Z.eqb_spec navg 0); [lia|].
      by rewrite H1. }
    assert (Hdt : datetimes self' navg = Raise IndexError).
    { unfold datetimes. destruct (Z.eqb_spec navg 0); [lia|].
      by rewrite Hutc. }
    assert (Hcoef : Cal1.mol_calibration_coef self' RNone RNone navg alt
                      metalt idx navgh zmin zmax h = (Raise IndexError, h)).
    { unfold Cal1.mol_calibration_coef.
      unfold mbind at 1, M_bind at 1. unfold mbind at 1, M_bind at 1.
      by rewrite Hmol. }
    assert (Hcal : Cal1.mol_on_lidar_alt_calibrated lidar_alt met_alt self'
                     navg alt navgh metalt idx (zmin, zmax) RNone h
                   = (Raise IndexError, h)).
    { unfold Cal1.mol_on_lidar_alt_calibrated.
      unfold mbind at 1, M_bind at 1. by rewrite Hmol. }
    rewrite Htime, Hutc, Hdt, Hatb, Hmol, Hcoef, Hcal.
    unfold Cal1.pressure_on_lidar_alt, Cal1.temperature_on_lidar_alt,
      Cal1.rh_on_lidar_alt, Cal1.pressure, Cal1.temperature, Cal1.rh,
      Cal1.mol.
    rewrite !H1 by done. repeat split; reflexivity. }
  unfold Cal2.lat, Cal2.lon, Cal2.coords, Cal2.time, Cal2.utc_time,
    Cal2.datetime, Cal2.datetime2, Cal2.tropopause_height,
    Cal2.layers_number, Cal2.utc_time.
  rewrite !H2. repeat split; reflexivity.
Qed.

Lemma reads_after_close_witness :
  Cal1.pressure
    {| hdf := None; z := ZN; valid_rms_profiles := None |} 30 None
  = Raise IndexError.
Proof.
  destruct (reads_after_close [] []
              {| hdf := Some {[ "Pressure" := Arr2 [[of_Z 1]; [of_Z 2]] ]};
                 z := ZN; valid_rms_profiles := None |}
              {| hdf := None; z := ZN; valid_rms_profiles := None |}
              30 None [] [] ∅ 50 (of_Z 30) (of_Z 34) None "Latitude")
    as [H _].
  - reflexivity.
  - apply H. lia.
Defined.

(** ** Regridding onto the same grid *)


Lemma ltb_asym (x y : f64) : ltb x y = true -> ltb y x = false.
Proof.
  destruct x as [a| | |], y as [b| | |]; try done.
  unfold ltb, qc_ltb, Qccompare. rewrite <- (Qcompare_antisym (this a)).
  by destruct (this a ?= this b)%Q.
Qed.










(** ** Regridding what a read returns *)

Lemma Cal1_read_var_few (self : Cal) (sd : SD) (var : string) (navg : Z)
    (idx : option (Z * Z)) (missing : option f64) :
  hdf self = Some sd -> navg <> 0 ->
  (forall a n, sd !! var = Some a -> size0 (squeeze a) = Ok n ->
     Z.of_nat n < navg) ->
  Cal1._read_var self var navg idx missing = Ok PyNone
  \/ Cal1._read_var self var navg idx missing = Raise IndexError.
Proof.
  intros Hsd Hn Hfew. unfold Cal1._read_var, Cal1._read_sds. rewrite Hsd.
  destruct (Z.eqb_spec navg 0); [lia|].
  destruct (sd !! var) as [a|] eqn:Hvar; cbn; [|by right].
  destruct (size0 (squeeze a)) as [k|e] eqn:Hsize.
  - rewrite bind_Ok. specialize (Hfew a k eq_refl Hsize).
    destruct (Z.ltb_spec (Z.of_nat k) navg); [by left | lia].
  - right. destruct (squeeze a); cbn in Hsize; try discriminate.
    by injection Hsize as <-.
Qed.

(** X12: a file with fewer than [navg] shots.  Where the plain accessors
    return [None], the accessors that regrid do not: [_remap_y] asks for
    the size of what the read returned, so [pressure_on_lidar_alt],
    [temperature_on_lidar_alt], [rh_on_lidar_alt] and [mol_on_lidar_alt]
    raise [IndexError], and so do [mol_calibration_coef] without arrays
    and [mol_on_lidar_alt_calibrated], leaving the store of arrays as it
    is. *)
Theorem regrid_needs_navg_shots (lidar_alt met_alt : list f64) (self : Cal)
    (sd : SD) (navg : Z) (idx : option (Z * Z)) (alt metalt : list f64)
    (h : heap) (navgh : Z) (zmin zmax : f64) (atb : pyref) :
  hdf self = Some sd -> navg <> 0 ->
  (forall var a n, sd !! var = Some a -> size0 (squeeze a) = Ok n ->
     Z.of_nat n < navg) ->
  Cal1.pressure_on_lidar_alt self navg alt metalt idx = Raise IndexError
  /\ Cal1.temperature_on_lidar_alt self navg alt metalt idx
     = Raise IndexError
  /\ Cal1.rh_on_lidar_alt self navg alt metalt idx = Raise IndexError
  /\ Cal1.mol_on_lidar_alt self navg alt metalt idx h
     = (Raise IndexError, h)
  /\ Cal1.mol_calibration_coef self RNone RNone navg alt metalt idx navgh
       zmin zmax h = (Raise IndexError, h)
  /\ Cal1.mol_on_lidar_alt_calibrated lidar_alt met_alt self navg alt
       navgh metalt idx (zmin, zmax) atb h = (Raise IndexError, h).
Proof.
  intros Hsd Hn Hfew.
  assert (Hremap : forall var,
            (p0 ← Cal1._read_var self var navg idx None;
             _remap_y p0 metalt alt) = Raise IndexError).
  { intros var.
    destruct (Cal1_read_var_few self sd var navg idx None Hsd Hn
                (Hfew var)) as [-> | ->]; reflexivity. }
  assert (Hmol : Cal1.mol_on_lidar_alt self navg alt metalt idx h
                 = (Raise IndexError, h)).
  { unfold Cal1.mol_on_lidar_alt, Cal1.mol, lift.
    unfold mbind at 1, M_bind at 1.
    destruct (Cal1_read_var_few self sd "Molecular_Number_Density" navg idx
                None Hsd Hn (Hfew _)) as [-> | ->]; reflexivity. }
  unfold Cal1.pressure_on_lidar_alt, Cal1.temperature_on_lidar_alt,
    Cal1.rh_on_lidar_alt, Cal1.pressure, Cal1.temperature, Cal1.rh.
  rewrite !Hremap. repeat (split; [reflexivity|]).
  split; [exact Hmol|]. split.
  - unfold Cal1.mol_calibration_coef.
    unfold mbind at 1, M_bind at 1. unfold mbind at 1, M_bind at 1.
    by rewrite Hmol.
  - unfold Cal1.mol_on_lidar_alt_calibrated.
    unfold mbind at 1, M_bind at 1. by rewrite Hmol.
Qed.

Lemma regrid_needs_navg_shots_witness :
  Cal1.pressure_on_lidar_alt
    {| hdf := Some {[ "Pressure" := Arr2 [map of_Z [1; 2]; map of_Z [3; 4]] ]};
       z := ZN; valid_rms_profiles := None |} 30
    (map of_Z [3; 2; 1]) (map of_Z [3; 1]) None
  = Raise IndexError.
Proof.
  destruct (regrid_needs_navg_shots [] []
              {| hdf := Some {[ "Pressure" :=
                                  Arr2 [map of_Z [1; 2]; map of_Z [3; 4]] ]};
                 z := ZN; valid_rms_profiles := None |}
              {[ "Pressure" := Arr2 [map of_Z [1; 2]; map of_Z [3; 4]] ]}
              30 None (map of_Z [3; 2; 1]) (map of_Z [3; 1]) ∅ 50
              (of_Z 30) (of_Z 34) RNone) as [H _].
  - reflexivity.
  - lia.
  - intros var a n Hvar Hsize.
    apply lookup_singleton_Some in Hvar as [_ <-].
    cbn in Hsize. injection Hsize as <-. lia.
  - exact H.
Defined.

(** X13: [navg = 0].  The accessors that regrid return an array without
    rows, not the [[]] of the plain accessors; [mol_calibration_coef]
    without arrays gets the list [[]] as [atb] and raises [TypeError], and
    so does [mol_on_lidar_alt_calibrated], after the empty array of the
    molecular density has been created.  No file is read: the result is
    the same on a closed file. *)
Theorem regrid_navg_zero (lidar_alt met_alt : list f64) (self : Cal)
    (idx : option (Z * Z)) (alt metalt : list f64) (h : heap)
    (navgh : Z) (zmin zmax : f64) :
  Cal1.pressure self 0 idx = Ok PyEmptyList
  /\ Cal1.pressure_on_lidar_alt self 0 alt metalt idx = Ok (Arr2 [])
  /\ Cal1.temperature_on_lidar_alt self 0 alt metalt idx = Ok (Arr2 [])
  /\ Cal1.rh_on_lidar_alt self 0 alt metalt idx = Ok (Arr2 [])
  /\ Cal1.mol_on_lidar_alt self 0 alt metalt idx h
     = (Ok (RArr (fresh (dom h))), <[fresh (dom h) := Arr2 []]> h)
  /\ Cal1.mol_calibration_coef self RNone RNone 0 alt metalt idx navgh
       zmin zmax h
     = (Raise TypeError, <[fresh (dom h) := Arr2 []]> h)
  /\ Cal1.mol_on_lidar_alt_calibrated lidar_alt met_alt self 0 alt navgh
       metalt idx (zmin, zmax) RNone h
     = (Raise TypeError, <[fresh (dom h) := Arr2 []]> h).
Proof. repeat split; reflexivity. Qed.

(** ** Percentage of valid profiles *)

Lemma of_Z_nonzero (k : Z) :
  k <> 0 -> qc_eqb (Q2Qc (inject_Z k)) 0%Qc = false.
Proof.
  intros Hk. unfold qc_eqb.
  destruct (Qccompare (Q2Qc (inject_Z k)) 0%Qc) eqn:E; try done.
  apply Qceq_alt in E. apply (f_equal this) in E. rewrite this_of_Z in E.
  injection E as E. lia.
Qed.

Lemma leb_fin_intro (a b : Qc) : (this a <= this b)%Q -> leb (Fin a) (Fin b) = true.
Proof.
  intros H. unfold leb, ltb, eqb, qc_ltb, qc_eqb, Qccompare.
  destruct (this a ?= this b)%Q eqn:E; done.
Qed.

Lemma sum_mask (mask : list f64) :
  Forall (fun m => m = zero \/ m = one) mask ->
  sum mask = of_nat (valid_count mask).
Proof.
  intros H. unfold sum, valid_count.
  assert (Hgen : forall a : nat,
            fold_left add mask (of_nat a)
            = of_nat (a + length (List.filter (fun m => neb m zero) mask))).
  { induction H as [|m mask Hm _ IH]; intros a.
    - cbn. by rewrite Nat.add_0_r.
    - cbn [fold_left List.filter]. destruct Hm as [-> | ->].
      + change (neb zero zero) with false. cbv iota.
        replace (add (of_nat a) zero) with (of_nat a); [apply IH|].
        unfold add, of_nat, of_Z, of_Q, zero. f_equal.
        change (Q2Qc (inject_Z 0)) with 0%Qc. ring.
      + change (neb one zero) with true. cbv iota.
        replace (add (of_nat a) one) with (of_nat (S a)).
        * rewrite IH. f_equal. cbn [length]. lia.
        * unfold add, of_nat, of_Z, of_Q, one. f_equal. apply of_nat_S. }
  apply (Hgen 0%nat).
Qed.

(** X14: [valid_profiles] counts over the shots that the averages use.
    For [navg >= 2] and a mask of zeros and ones it returns one value per
    block: 100 times the number of valid shots among the [navg - 1] shots
    of the block (the last shot of each group of [navg] is left out, as
    in the averages), over [navg - 1]; a percentage between 0 and 100. *)
Theorem valid_profiles_percentage (self : Cal) (valid : list f64) (navg : Z) :
  valid_rms_profiles self = Some valid -> 2 <= navg ->
  Forall (fun m => m = zero \/ m = one) valid ->
  exists r,
    Cal1.valid_profiles self navg = Ok (PyArr (Arr1 r))
    /\ length r = Z.to_nat (Z.of_nat (length valid) / navg)
    /\ forall i, (i < length r)%nat ->
         exists x,
           r !! i = Some x
           /\ x = of_Q (inject_Z
                          (100 * Z.of_nat
                                   (valid_count
                                      (block valid (Z.to_nat navg) i)))
                        / inject_Z (navg - 1))
           /\ (valid_count (block valid (Z.to_nat navg) i)
               <= Z.to_nat navg - 1)%nat
           /\ leb zero x = true /\ leb x (of_Z 100) = true.
Proof.
  intros Hvalid Hn Hmask. unfold Cal1.valid_profiles. rewrite Hvalid.
  destruct (Z.ltb_spec navg 2); [lia|].
  set (n := Z.to_nat (Z.of_nat (length valid) / navg)).
  erewrite for_in_insert; [|intros i v Hi; reflexivity].
  rewrite bind_Ok. eexists. split; [reflexivity|].
  rewrite !length_map, length_seq. split; [done|].
  intros i Hi.
  change (map ?f (map ?g (seq 0 n))) with (f <$> (map g (seq 0 n))).
  rewrite list_lookup_fmap, map_seq_lookup by done.
  cbn [fmap option_fmap option_map].
  eexists. split; [reflexivity|].
  rewrite py_slice_block by done.
  set (blk := block valid (Z.to_nat navg) i).
  assert (Hblk : Forall (fun m => m = zero \/ m = one) blk)
    by (by apply block_Forall).
  assert (Hcount : (valid_count blk <= Z.to_nat navg - 1)%nat).
  { unfold valid_count. rewrite <- (block_length valid navg i) by done.
    apply List.filter_length_le. }
  rewrite sum_mask by done.
  set (k := valid_count blk) in *.
  assert (Ex : div (mul (of_Z 100) (of_nat k)) (of_Z (navg - 1))
               = of_Q (inject_Z (100 * Z.of_nat k) / inject_Z (navg - 1))).
  { unfold mul, of_nat, of_Z, of_Q.
    rewrite div_fin by (apply of_Z_nonzero; lia).
    f_equal. apply Qc_is_canon.
    rewrite this_div, this_mult, !this_of_Z, this_Q2Qc, inject_Z_mult.
    reflexivity. }
  rewrite Ex. split; [done|]. split; [done|].
  assert (Hpos : (0 < inject_Z (navg - 1))%Q)
    by (rewrite <- (Zlt_Qlt 0); lia).
  unfold of_Q, zero, of_Z, of_Q. split; apply leb_fin_intro.
  - rewrite this_of_Z, this_Q2Qc. apply Qle_shift_div_l; [done|].
    rewrite Qmult_0_l. rewrite <- (Zle_Qle 0). lia.
  - rewrite this_of_Z, this_Q2Qc. apply Qle_shift_div_r; [done|].
    rewrite <- inject_Z_mult, <- Zle_Qle. lia.
Qed.

Lemma valid_profiles_percentage_witness :
  exists r,
    Cal1.valid_profiles
      {| hdf := None; z := ZN;
         valid_rms_profiles := Some [one; zero; one; one; one; zero; zero] |}
      3 = Ok (PyArr (Arr1 r))
    /\ r !! 0%nat = Some (of_Q (inject_Z (100 * 1) / inject_Z (3 - 1))).
Proof.
  destruct (valid_profiles_percentage
              {| hdf := None; z := ZN;
                 valid_rms_profiles :=
                   Some [one; zero; one; one; one; zero; zero] |}
              [one; zero; one; one; one; zero; zero] 3)
    as (r & Hr & Hlen & Hi).
  - reflexivity.
  - lia.
  - repeat (apply Forall_cons; split; [first [by left | by right]|]).
    apply Forall_nil_2.
  - exists r. split; [exact Hr|].
    destruct (Hi 0%nat) as (x & Hx & -> & _).
    + rewrite Hlen. vm_compute. lia.
    + exact Hx.
Defined.

(** ** Standard deviation of the blocks *)

Lemma _array_std_rows (f_sqrt : f64 -> f64) (rows : list (list f64))
    (navg : Z) (valid : option (list f64)) :
  2 <= navg -> squeeze (Arr2 rows) = Arr2 rows ->
  length (default (all_valid (length rows)) valid) = length rows ->
  _array_std f_sqrt (Arr2 rows) navg valid
  = Ok (Arr2 (map (fun i =>
                     let blk := block rows (Z.to_nat navg) i in
                     let idx :=
                       map (fun m => gtb m zero)
                         (block (default (all_valid (length rows)) valid)
                            (Z.to_nat navg) i) in
                     if Nat.eqb (count_true idx) 0
                     then replicate (ncols rows) flag_invalid
                     else std_axis0 f_sqrt (ncols rows) (select blk idx))
                  (seq 0 (Z.to_nat (Z.of_nat (length rows) / navg))))).
Proof.
  intros Hn Hsq Hv. unfold _array_std. rewrite Hsq.
  destruct (Z.eqb_spec navg 1); [lia|].
  destruct (Z.eqb_spec navg 0); [lia|].
  destruct (Z.ltb_spec (Z.of_nat (length rows) / navg) 0) as [Hneg|_].
  { pose proof (Z.div_pos (Z.of_nat (length rows)) navg). lia. }
  erewrite for_in_insert; [reflexivity|].
  intros i a Hi. unfold _array_std_body, set_row, all_valid in *.
  rewrite (py_slice_block rows) by done.
  rewrite (py_slice_block (default _ valid)) by (rewrite ?Hv; done).
  cbn zeta.
  destruct (Nat.eqb (count_true _) 0); [done|].
  rewrite mask_index_same_length; [done|].
  rewrite length_map, !block_length; rewrite ?Hv; done.
Qed.

(** X15: [_array_std] block by block.  For [navg >= 2] the result has
    one row per block of [navg] shots; row [i] is made of the shots of
    indices [i * navg .. i * navg + navg - 2] whose mask entry is [> 0]:
    their standard deviation, column by column, and a row of [-9999] when
    there is no such shot.  No value is left out as invalid. *)
Theorem array_std_block_rows (f_sqrt : f64 -> f64) (rows : list (list f64))
    (navg : Z) (valid : option (list f64)) :
  2 <= navg -> squeeze (Arr2 rows) = Arr2 rows ->
  length (mask_of (length rows) valid) = length rows ->
  exists a,
    _array_std f_sqrt (Arr2 rows) navg valid = Ok (Arr2 a)
    /\ length a = Z.to_nat (Z.of_nat (length rows) / navg)
    /\ forall i, (i < length a)%nat ->
         a !! i
         = Some (let shots :=
                   select (block rows (Z.to_nat navg) i)
                     (map (fun m => gtb m zero)
                        (block (mask_of (length rows) valid)
                           (Z.to_nat navg) i)) in
                 if Nat.eqb (length shots) 0
                 then replicate (ncols rows) flag_invalid
                 else std_axis0 f_sqrt (ncols rows) shots).
Proof.
  intros Hn Hsq Hv. unfold mask_of in *.
  rewrite _array_std_rows by done.
  eexists. split; [reflexivity|].
  rewrite length_map, length_seq. split; [done|].
  intros i Hi. rewrite map_seq_lookup by done. cbn zeta. f_equal.
  set (blk := block rows (Z.to_nat navg) i).
  set (mask := block (default (all_valid (length rows)) valid)
                 (Z.to_nat navg) i).
  assert (Hlen : length blk = length mask).
  { unfold blk, mask. rewrite !block_length; rewrite ?Hv; done. }
  assert (Hcount : forall (l : list (list f64)) (idx : list bool),
            length l = length idx ->
            length (select l idx) = count_true idx).
  { clear. induction l as [|x l IH]; intros [|b idx] H; try done.
    cbn in H. unfold count_true in *. cbn [select List.filter].
    destruct b; cbn [length]; rewrite IH by lia; done. }
  rewrite Hcount by (by rewrite length_map). done.
Qed.

Lemma array_std_block_rows_witness :
  exists a,
    _array_std (fun x => x)
      (Arr2 [map of_Z [1; 2]; map of_Z [3; 4]; map of_Z [5; 6];
             map of_Z [7; 8]]) 2 (Some (map of_Z [1; 1; 0; 1]))
    = Ok (Arr2 a)
    /\ length a = 2%nat
    /\ a !! 1%nat = Some (replicate 2 flag_invalid).
Proof.
  destruct (array_std_block_rows (fun x => x)
              [map of_Z [1; 2]; map of_Z [3; 4]; map of_Z [5; 6];
               map of_Z [7; 8]] 2 (Some (map of_Z [1; 1; 0; 1])))
    as (a & Ha & Hlen & Hi).
  - lia.
  - reflexivity.
  - reflexivity.
  - exists a. split; [exact Ha|]. split; [exact Hlen|].
    rewrite (Hi 1%nat) by (rewrite Hlen; vm_compute; lia).
    reflexivity.
Defined.

(** ** The column means of the array reduction *)

Lemma add_zero_r (x : f64) : add x zero = x.
Proof.
  destruct x as [q| | |]; try done.
  unfold add, zero, of_Z, of_Q. f_equal.
  change (Q2Qc (inject_Z 0)) with 0%Qc. ring.
Qed.

Lemma column_of_zero_invalid (j : nat) (rows : list (list f64)) :
  column_of j (zero_invalid rows)
  = map (fun x => if ltb x threshold_invalid then zero else x)
        (column_of j rows).
Proof.
  unfold column_of, zero_invalid.
  induction rows as [|r rows IH]; [done|].
  cbn [map omap list_omap].
  change (map ?f r) with (f <$> r). rewrite list_lookup_fmap.
  destruct (r !! j); cbn; by rewrite IH.
Qed.

Lemma sum_zero_invalid (col : list f64) :
  Forall (fun x => gtb x threshold_invalid = true
                   \/ ltb x threshold_invalid = true) col ->
  sum (map (fun x => if ltb x threshold_invalid then zero else x) col)
  = sum (List.filter (fun x => gtb x threshold_invalid) col).
Proof.
  intros H. unfold sum. generalize zero at 2 3 as acc.
  induction H as [|x col Hx _ IH]; intros acc; [done|].
  cbn [map fold_left List.filter]. destruct Hx as [Hgt|Hlt].
  - rewrite Hgt, (gtb_not_ltb _ _ Hgt). cbn [fold_left]. apply IH.
  - rewrite Hlt. unfold gtb. rewrite (ltb_asym _ _ Hlt).
    rewrite add_zero_r. apply IH.
Qed.

(** X17: what [_array_average] averages.  For [navg >= 2] and no
    sentinel, entry [(i, j)] of the result is, when block [i] has a valid
    shot, the mean of the samples [> -999] of column [j] over the valid
    shots of the block, and [-9999] when there is no such sample;
    provided no sample of that column is [nan] or exactly [-999] (such a
    sample would be summed without being counted). *)
Theorem array_average_column_mean (rows : list (list f64)) (navg : Z)
    (weighted : bool) (valid : option (list f64)) (i j : nat) :
  2 <= navg -> squeeze (Arr2 rows) = Arr2 rows ->
  rectangular (ncols rows) rows ->
  length (mask_of (length rows) valid) = length rows ->
  (i < Z.to_nat (Z.of_nat (length rows) / navg))%nat ->
  (j < ncols rows)%nat ->
  valid_count (block (mask_of (length rows) valid) (Z.to_nat navg) i)
  <> 0%nat ->
  Forall (fun x => gtb x threshold_invalid = true
                   \/ ltb x threshold_invalid = true)
    (column_of j (valid_shots (block rows (Z.to_nat navg) i)
                    (block (mask_of (length rows) valid)
                       (Z.to_nat navg) i))) ->
  exists a,
    _array_average (Arr2 rows) navg weighted valid None = Ok (Arr2 a)
    /\ entry a i j
       = Some (match List.filter (fun x => gtb x threshold_invalid)
                       (column_of j
                          (valid_shots (block rows (Z.to_nat navg) i)
                             (block (mask_of (length rows) valid)
                                (Z.to_nat navg) i))) with
               | [] => flag_invalid
               | kept => mean kept
               end).
Proof.
  intros Hn Hsq Hrect Hv Hi Hj Hvalid Hcol. unfold mask_of in *.
  rewrite _array_average_blocks by done.
  eexists. split; [reflexivity|].
  unfold entry. rewrite map_seq_lookup by done. cbn [mbind option_bind].
  unfold array_block_value.
  destruct (Nat.eqb_spec
              (valid_count (block (default (all_valid (length rows)) valid)
                              (Z.to_nat navg) i)) 0); [done|].
  rewrite map_seq_lookup by done. f_equal.
  unfold column_value, count_valid_col.
  set (col := column_of j _) in *.
  rewrite column_of_zero_invalid. fold col.
  rewrite sum_zero_invalid by done.
  destruct (List.filter (fun x => gtb x threshold_invalid) col); done.
Qed.

Lemma array_average_column_mean_witness :
  exists a,
    _array_average
      (Arr2 [map of_Z [1; -9999]; map of_Z [3; -9999]; map of_Z [0; 0];
             map of_Z [-9999; 8]; map of_Z [6; 2]; map of_Z [0; 0]])
      3 false None None = Ok (Arr2 a)
    /\ entry a 1 0
       = Some (match List.filter (fun x => gtb x threshold_invalid)
                       (column_of 0
                          (valid_shots
                             (block
                                [map of_Z [1; -9999]; map of_Z [3; -9999];
                                 map of_Z [0; 0]; map of_Z [-9999; 8];
                                 map of_Z [6; 2]; map of_Z [0; 0]]
                                (Z.to_nat 3) 1)
                             (block (mask_of (length
                                [map of_Z [1; -9999]; map of_Z [3; -9999];
                                 map of_Z [0; 0]; map of_Z [-9999; 8];
                                 map of_Z [6; 2]; map of_Z [0; 0]]) None)
                                (Z.to_nat 3) 1))) with
               | [] => flag_invalid
               | kept => mean kept
               end).
Proof.
  apply (array_average_column_mean
           [map of_Z [1; -9999]; map of_Z [3; -9999]; map of_Z [0; 0];
            map of_Z [-9999; 8]; map of_Z [6; 2]; map of_Z [0; 0]]
           3 false None 1 0).
  - lia.
  - reflexivity.
  - repeat constructor.
  - reflexivity.
  - vm_compute. lia.
  - vm_compute. lia.
  - vm_compute. lia.
  - repeat (apply Forall_cons; split;
            [first [by left | by right]|]).
    apply Forall_nil_2.
Defined.

(** ** What the calibration writes *)

Lemma mol_calibration_coef_frame (self : Cal) (mol atb : pyref) (navg : Z)
    (alt metalt : list f64) (idx : option (Z * Z)) (navgh : Z)
    (zmin zmax : f64) (h : heap) (l : nat) :
  mol <> RNone \/ atb <> RNone -> mol <> RArr l -> atb <> RArr l ->
  (Cal1.mol_calibration_coef self mol atb navg alt metalt idx navgh
     zmin zmax h).2 !! l = h !! l.
Proof.
  intros Hgiven Hm Ha.
  assert (Hl : forall l' (x : ndarray) (h' : heap),
            RArr l' <> RArr l -> <[l' := x]> h' !! l = h' !! l).
  { intros l' x h' Hne. apply lookup_insert_ne. congruence. }
  unfold Cal1.mol_calibration_coef, assign_nan_where, load, store, lift,
    raise.
  unfold mbind, M_bind, mret, M_ret.
  destruct mol as [| |lm], atb as [| |la]; cbn beta iota;
    try (destruct Hgiven; congruence); try done.
  all: repeat (match goal with
               | |- context [match ?x with _ => _ end] =>
                   lazymatch x with
                   | context [match _ with _ => _ end] => fail
                   | _ => destruct x eqn:?
                   end
               end; cbn beta iota zeta).
  all: cbn [snd]; rewrite ?Hl by congruence; done.
Qed.

Lemma mol_on_lidar_alt_raise (self : Cal) (navg : Z) (alt metalt : list f64)
    (idx : option (Z * Z)) (h h1 : heap) (e : exn) :
  Cal1.mol_on_lidar_alt self navg alt metalt idx h = (Raise e, h1) -> h1 = h.
Proof.
  unfold Cal1.mol_on_lidar_alt, lift, alloc.
  unfold mbind, M_bind, mret, M_ret. cbn beta iota.
  destruct (Cal1.mol self navg idx) as [mol0|e0]; cbn beta iota;
    [|by intros [= _ <-]].
  destruct (_remap_y mol0 metalt alt) as [mol|e0]; cbn beta iota zeta;
    [discriminate | by intros [= _ <-]].
Qed.

Lemma atb_run (self : Cal) (navg : Z) (idx : option (Z * Z)) (h h1 : heap)
    (r : result pyref) :
  Cal1.atb self navg idx h = (r, h1) ->
  (h1 = h /\ forall l, r <> Ok (RArr l))
  \/ exists a, r = Ok (RArr (fresh (dom h))) /\ h1 = <[fresh (dom h) := a]> h.
Proof.
  unfold Cal1.atb, lift. unfold mbind, M_bind. cbn beta iota.
  destruct (Cal1._read_var _ _ _ _ _) as [[| |a]|e]; cbn.
  - intros [= <- <-]. left. split; [done|]. congruence.
  - intros [= <- <-]. left. split; [done|]. congruence.
  - unfold alloc, mbind, M_bind, mret, M_ret. cbn.
    intros [= <- <-]. right. eauto.
  - intros [= <- <-]. left. split; [done|]. congruence.
Qed.

(** X18: what [mol_calibration_coef] writes.  Called without arrays it
    reads its own and leaves every array object that existed before as
    it was; called with arrays it writes to these only.  Called with
    [atb] alone it screens [atb] in place and then raises [TypeError] on
    the missing [mol]; called with [mol] alone it raises [TypeError]
    before it has written anything. *)
Theorem calibration_frame (self : Cal) (l : nat) (a : ndarray) (h : heap)
    (navg : Z) (alt metalt : list f64) (idx : option (Z * Z)) (navgh : Z)
    (zmin zmax : f64) :
  h !! l = Some a ->
  (Cal1.mol_calibration_coef self RNone RNone navg alt metalt idx navgh
     zmin zmax h).2 !! l = Some a
  /\ (forall lm la, lm <> l -> la <> l ->
        (Cal1.mol_calibration_coef self (RArr lm) (RArr la) navg alt metalt
           idx navgh zmin zmax h).2 !! l = Some a)
  /\ Cal1.mol_calibration_coef self RNone (RArr l) navg alt metalt idx
       navgh zmin zmax h
     = (Raise TypeError, <[l := screen_atb (z self) a]> h)
  /\ Cal1.mol_calibration_coef self (RArr l) RNone navg alt metalt idx
       navgh zmin zmax h
     = (Raise TypeError, h).
Proof.
  intros Hl. split; [|split; [|split]].
  - pose proof (fresh_loc_ne h l a Hl) as Hfresh.
    unfold Cal1.mol_calibration_coef.
    unfold mbind at 1, M_bind at 1. unfold mbind at 1, M_bind at 1.
    destruct (Cal1.mol_on_lidar_alt self navg alt metalt idx h)
      as [[rm|e] h1] eqn:Hmol.
    2: { apply mol_on_lidar_alt_raise in Hmol as ->. done. }
    destruct (mol_on_lidar_alt_run _ _ _ _ _ _ _ _ Hmol) as (mol & -> & ->).
    set (lm := fresh (dom h)) in *.
    set (h1 := <[lm := mol]> h).
    assert (Hl1 : h1 !! l = Some a)
      by (unfold h1; by rewrite lookup_insert_ne).
    unfold mbind at 1, M_bind at 1.
    destruct (Cal1.atb self navg idx h1) as [ra h2] eqn:Hatb.
    assert (Hl2 : h2 !! l = Some a /\ ra <> Ok (RArr l)).
    { destruct (atb_run _ _ _ _ _ _ Hatb) as [[-> Hr]|(x & -> & ->)].
      - split; [done | apply Hr].
      - pose proof (fresh_loc_ne h1 l a Hl1) as Hfresh1.
        split; [by rewrite lookup_insert_ne | congruence]. }
    destruct Hl2 as [Hl2 Hra].
    destruct ra as [ra|e]; [|done].
    unfold mret at 1, M_ret at 1.
    change (?f (RArr lm, ra) h2) with (f (RArr lm, ra) h2).
    rewrite <- Hl2.
    apply (mol_calibration_coef_frame self (RArr lm) ra navg alt metalt idx
             navgh zmin zmax h2 l); [left; done | congruence | congruence].
  - intros lm la Hlm Hla. rewrite <- Hl.
    apply mol_calibration_coef_frame; [left; done | congruence | congruence].
  - unfold Cal1.mol_calibration_coef, assign_nan_where, load, store, raise.
    unfold mbind, M_bind, mret, M_ret. cbn beta iota. rewrite Hl. done.
  - done.
Qed.

Lemma calibration_frame_witness :
  Cal1.mol_calibration_coef
    {| hdf := None; z := ZN; valid_rms_profiles := None |}
    RNone (RArr 0) 30 (map of_Z [35; 32]) (map of_Z [40; 30]) None 50
    (of_Z 30) (of_Z 34) (<[0%nat := Arr2 [[of_Z 1; of_Z 0]]]> ∅)
  = (Raise TypeError,
     <[0%nat := screen_atb ZN (Arr2 [[of_Z 1; of_Z 0]])]>
       (<[0%nat := Arr2 [[of_Z 1; of_Z 0]]]> ∅)).
Proof.
  apply (calibration_frame
           {| hdf := None; z := ZN; valid_rms_profiles := None |} 0
           (Arr2 [[of_Z 1; of_Z 0]])
           (<[0%nat := Arr2 [[of_Z 1; of_Z 0]]]> ∅)).
  reflexivity.
Defined.

(** ** The calibrated molecular backscatter *)

Lemma for_in_length {A : Type} (body : nat -> list A -> result (list A))
    (idxs : list nat) (s s' : list A) :
  (forall i t t', body i t = Ok t' -> length t' = length t) ->
  for_in idxs body s = Ok s' -> length s' = length s.
Proof.
  intros Hbody. revert s. induction idxs as [|i idxs IH]; intros s H.
  - by injection H as <-.
  - cbn [for_in] in H.
    destruct (body i s) as [t|e] eqn:Hb; [|discriminate H].
    rewrite bind_Ok in H. apply IH in H. rewrite H. by eapply Hbody.
Qed.

Lemma moving_average_length (z : orbit_type) (navgh : Z) (nprof : nat)
    (pa pm : list (option f64)) (coef : list f64) :
  moving_average z navgh nprof pa pm = Ok coef -> length coef = nprof.
Proof.
  unfold moving_average. intros H. apply for_in_length in H.
  - by rewrite H, length_replicate.
  - intros i t t'. unfold moving_average_body.
    destruct (take_indices pa _); [|discriminate]. rewrite bind_Ok.
    destruct (take_indices pm _); [|discriminate]. rewrite bind_Ok.
    intros [= <-]. apply length_insert.
Qed.

(** X19: what [mol_on_lidar_alt_calibrated] returns.  With an array
    passed as [atb], when the molecular density is read and regridded
    and the coefficients are computed, the result is a new array object:
    the density on the grid [alt], its negative values replaced by
    [nan], each profile multiplied by the coefficient of that profile,
    one coefficient per profile.  The coefficients are those of the
    screened [atb] and density over the reference band of the module's
    own lidar grid, whatever [alt] is; the object passed as [atb] holds
    the screened values afterwards. *)
Theorem calibrated_density (lidar_alt met_alt : list f64) (self : Cal)
    (navg : Z) (alt : list f64) (navgh : Z) (metalt : list f64)
    (idx : option (Z * Z)) (zcal : f64 * f64) (la : nat) (a : ndarray)
    (h : heap) (mol0 : pyval) (mrows : list (list f64)) (coef : list f64) :
  h !! la = Some a ->
  Cal1.mol self navg idx = Ok mol0 ->
  _remap_y mol0 metalt alt = Ok (Arr2 mrows) ->
  coef_of_screened (z self) lidar_alt zcal.1 zcal.2 navgh
    (screen_atb (z self) a) (screen_mol (Arr2 mrows)) = Ok coef ->
  length coef = length mrows
  /\ (Cal1.mol_on_lidar_alt_calibrated lidar_alt met_alt self navg alt
        navgh metalt idx zcal (RArr la) h).1 = Ok (RArr (fresh (dom h)))
  /\ (Cal1.mol_on_lidar_alt_calibrated lidar_alt met_alt self navg alt
        navgh metalt idx zcal (RArr la) h).2 !! fresh (dom h)
     = Some (Arr2 (zip_with (fun r c => map (fun x => mul x c) r)
                     (map (map (fun x => if ltb x zero then NaN else x))
                        mrows)
                     coef))
  /\ (Cal1.mol_on_lidar_alt_calibrated lidar_alt met_alt self navg alt
        navgh metalt idx zcal (RArr la) h).2 !! la
     = Some (screen_atb (z self) a)
  /\ forall l, l <> la -> l <> fresh (dom h) ->
       (Cal1.mol_on_lidar_alt_calibrated lidar_alt met_alt self navg alt
          navgh metalt idx zcal (RArr la) h).2 !! l = h !! l.
Proof.
  intros Ha Hmol0 Hremap Hcoef.
  pose proof (fresh_loc_ne h la a Ha) as Hfresh.
  set (lm := fresh (dom h)) in *.
  assert (Hlen : length coef = length mrows).
  { unfold coef_of_screened in Hcoef.
    destruct (calib_profile (screen_atb (z self) a) _) as [pa|e];
      [|discriminate Hcoef].
    rewrite bind_Ok in Hcoef.
    destruct (calib_profile _ _) as [pm|e]; [|discriminate Hcoef].
    rewrite bind_Ok in Hcoef. cbn [screen_mol nd_map size0] in Hcoef.
    rewrite bind_Ok in Hcoef.
    apply moving_average_length in Hcoef. by rewrite Hcoef, length_map. }
  split; [exact Hlen|].
  assert (Hrun : Cal1.mol_on_lidar_alt self navg alt metalt idx h
                 = (Ok (RArr lm), <[lm := Arr2 mrows]> h)).
  { unfold Cal1.mol_on_lidar_alt, lift, alloc.
    unfold mbind, M_bind, mret, M_ret. by rewrite Hmol0, Hremap. }
  assert (Hcall :
    Cal1.mol_on_lidar_alt_calibrated lidar_alt met_alt self navg alt
      navgh metalt idx zcal (RArr la) h
    = (Ok (RArr lm),
       <[lm := Arr2 (zip_with (fun r c => map (fun x => mul x c) r)
                       (map (map (fun x => if ltb x zero then NaN else x))
                          mrows)
                       coef)]>
         (<[lm := screen_mol (Arr2 mrows)]>
            (<[la := screen_atb (z self) a]>
               (<[lm := Arr2 mrows]> h))))).
  { unfold Cal1.mol_on_lidar_alt_calibrated.
    unfold mbind at 1, M_bind at 1. rewrite Hrun.
    unfold mbind at 1, M_bind at 1, mret at 1, M_ret at 1.
    unfold mbind at 1, M_bind at 1.
    rewrite (mol_calibration_coef_run self lm la (Arr2 mrows) a);
      [|by rewrite lookup_insert_ne | by rewrite lookup_insert_eq | done].
    rewrite Hcoef.
    unfold Cal1.scale_rows, load, store.
    unfold mbind, M_bind, mret, M_ret.
    rewrite lookup_insert_eq. cbn [screen_mol nd_map].
    rewrite length_map, <- Hlen, Nat.eqb_refl. done. }
  rewrite Hcall. cbn [fst snd].
  split; [done|]. split; [by rewrite lookup_insert_eq|].
  split.
  - rewrite !(lookup_insert_ne _ lm la) by done.
    by rewrite lookup_insert_eq.
  - intros l Hl1 Hl2. by rewrite !lookup_insert_ne by done.
Qed.

Lemma calibrated_density_witness :
  (Cal1.mol_on_lidar_alt_calibrated (map of_Z [35; 32]) (map of_Z [40; 30])
     {| hdf := Some {[ "Molecular_Number_Density" :=
                         Arr2 (map (map of_Z) [[1; 2]; [3; 4]]) ]};
        z := ZN; valid_rms_profiles := None |}
     1 (map of_Z [35; 32]) 1 (map of_Z [40; 30]) None (of_Z 30, of_Z 34)
     (RArr 0)
     (<[0%nat := Arr2 [[of_Z 1; of_Q (2 # 100000)];
                       [of_Z 0; of_Z 0]]]> ∅)).1
  = Ok (RArr (fresh (dom (<[0%nat := Arr2 [[of_Z 1; of_Q (2 # 100000)];
                                           [of_Z 0; of_Z 0]]]>
                            (∅ : heap))))).
Proof.
  eapply (calibrated_density (map of_Z [35; 32]) (map of_Z [40; 30])
            {| hdf := Some {[ "Molecular_Number_Density" :=
                                Arr2 (map (map of_Z) [[1; 2]; [3; 4]]) ]};
               z := ZN; valid_rms_profiles := None |}
            1 (map of_Z [35; 32]) 1 (map of_Z [40; 30]) None
            (of_Z 30, of_Z 34) 0).
  - reflexivity.
  - reflexivity.
  - reflexivity.
  - reflexivity.
Defined.

(** ** The shots after the last whole block *)

Lemma block_app {A : Type} (l tail : list A) (navg : Z) (i : nat) :
  2 <= navg -> (i < Z.to_nat (Z.of_nat (length l) / navg))%nat ->
  block (l ++ tail) (Z.to_nat navg) i = block l (Z.to_nat navg) i.
Proof.
  intros Hn Hi. pose proof (block_count_bound _ _ _ Hn Hi) as Hb.
  unfold block. rewrite drop_app_le by lia.
  rewrite take_app_le; [done|]. rewrite length_drop. lia.
Qed.

Lemma whole_blocks_app (len t : nat) (navg : Z) :
  2 <= navg -> (Z.of_nat len mod navg = 0) -> Z.of_nat t < navg ->
  Z.to_nat (Z.of_nat (len + t) / navg) = Z.to_nat (Z.of_nat len / navg).
Proof.
  intros Hn Hmod Ht. f_equal.
  rewrite Nat2Z.inj_add.
  rewrite (Z.div_mod (Z.of_nat len) navg) at 1 by lia.
  rewrite Hmod, Z.add_0_r, Z.mul_comm, Z.div_add_l by lia.
  rewrite (Z.div_small (Z.of_nat t)) by lia. lia.
Qed.

(** X20: the shots after the last whole block are dropped.  For
    [navg >= 2] and no mask, a vector of whole blocks of [navg] samples
    followed by fewer than [navg] further samples reduces to what the
    whole blocks alone reduce to, with or without a sentinel. *)
Theorem vector_average_drops_tail (l tail : list f64) (navg : Z)
    (missing : option f64) :
  2 <= navg -> Z.of_nat (length l) mod navg = 0 ->
  Z.of_nat (length tail) < navg -> l <> [] ->
  _vector_average (Arr1 (l ++ tail)) navg missing None
  = _vector_average (Arr1 l) navg missing None.
Proof.
  intros Hn Hmod Ht Hne.
  assert (Hl : (2 <= length l)%nat).
  { destruct l as [|x [|y l]]; [done| |cbn; lia].
    cbn in Hmod. rewrite Z.mod_1_l in Hmod by lia. lia. }
  rewrite !_vector_average_blocks;
    try done; try (rewrite ?length_app; lia);
    try (cbn [default]; unfold all_valid; by rewrite length_replicate).
  rewrite length_app, whole_blocks_app by done.
  f_equal. f_equal. apply map_ext_in. intros i Hi. apply in_seq in Hi.
  rewrite block_app by (done || lia).
  cbn [default]. unfold all_valid.
  rewrite !block_replicate; try done; try lia.
  rewrite whole_blocks_app by done. lia.
Qed.

Lemma vector_average_drops_tail_witness :
  _vector_average (Arr1 (map of_Z [1; 2; 3; 4; 5; 6] ++ map of_Z [7; 8])) 3
    None None
  = _vector_average (Arr1 (map of_Z [1; 2; 3; 4; 5; 6])) 3 None None.
Proof.
  apply vector_average_drops_tail.
  - lia.
  - reflexivity.
  - cbn. lia.
  - done.
Defined.

(** ** When regridding returns *)

Lemma for_in_raise {S : Type} (body : nat -> S -> result S) (e : exn)
    (idxs : list nat) (s : S) :
  (forall i t, In i idxs ->
     body i t = Raise e \/ exists t', body i t = Ok t') ->
  (exists i, In i idxs /\ forall t, body i t = Raise e) ->
  for_in idxs body s = Raise e.
Proof.
  revert s. induction idxs as [|i idxs IH]; intros s Hall (j & Hj & Hbad).
  - destruct Hj.
  - cbn [for_in].
    destruct (Hall i s ltac:(by left)) as [->|[t' Ht']]; [done|].
    rewrite Ht', bind_Ok. destruct Hj as [->|Hj].
    + rewrite Hbad in Ht'. discriminate.
    + apply IH; [|eauto]. intros k t Hk. apply Hall. by right.
Qed.

(** X21: when [_remap_y] returns.  On a 2-d array it returns exactly
    when the array has no row, or the source grid [y0] is not empty and
    every row has one value per level of [y0]; the result then has the
    rows of the array and one column per level of the target grid [y].
    Otherwise it raises [ValueError]. *)
Theorem remap_shape (rows : list (list f64)) (y0 y : list f64) :
  (rows = [] \/ (y0 <> [] /\ rectangular (length y0) rows) ->
   exists z,
     _remap_y (PyArr (Arr2 rows)) y0 y = Ok (Arr2 z)
     /\ length z = length rows
     /\ Forall (fun r => length r = length y) z)
  /\ (~ (rows = [] \/ (y0 <> [] /\ rectangular (length y0) rows)) ->
      _remap_y (PyArr (Arr2 rows)) y0 y = Raise ValueError).
Proof.
  split.
  - intros [-> | [Hne Hrect]].
    + exists []. by repeat split.
    + rewrite _remap_y_rows by done. eexists. split; [reflexivity|].
      rewrite length_map, length_seq. split; [done|].
      apply Forall_forall. intros r Hr.
      apply list_elem_of_In, in_map_iff in Hr as (i & <- & _).
      apply length_map.
  - intros Hnot. unfold _remap_y. cbn [size0]. rewrite bind_Ok.
    assert (Hbody : forall i t, In i (seq 0 (length rows)) ->
              _remap_y_body (Arr2 rows) y0 y i t = Raise ValueError
              \/ exists t', _remap_y_body (Arr2 rows) y0 y i t = Ok t').
    { intros i t Hi. apply in_seq in Hi. unfold _remap_y_body.
      destruct (rows !! i) as [row|] eqn:Hrow;
        [|apply lookup_ge_None in Hrow; lia].
      unfold np_interp. destruct (Nat.eqb _ 0); [by left|].
      destruct (negb _); [by left|]. right. eauto. }
    rewrite (for_in_raise _ ValueError); [done | exact Hbody |].
    assert (Hbad : exists i row, rows !! i = Some row
                     /\ (y0 = [] \/ length row <> length y0)).
    { destruct y0 as [|x y0'].
      - destruct rows as [|row rows']; [by destruct Hnot; left|].
        exists 0%nat, row. split; [done | by left].
      - assert (Hnr : ~ rectangular (length (x :: y0')) rows).
        { intros Hr. apply Hnot. right. done. }
        unfold rectangular in Hnr.
        apply not_Forall_Exists in Hnr; [|intros r; apply Nat.eq_dec].
        apply Exists_exists in Hnr as (row & Hin & Hlen).
        apply list_elem_of_lookup_1 in Hin as [i Hi].
        exists i, row. split; [done | by right]. }
    destruct Hbad as (i & row & Hrow & Hbad).
    exists i. split.
    + apply in_seq. apply lookup_lt_Some in Hrow. lia.
    + intros t. unfold _remap_y_body. rewrite Hrow.
      unfold np_interp, flipud. rewrite !length_rev.
      destruct Hbad as [-> | Hlen]; [done|].
      destruct (Nat.eqb_spec (length y0) 0); [done|].
      destruct (Nat.eqb_spec (length row) (length y0)); [lia | done].
Qed.

(** ** The triangle weights *)

Lemma for_in_ext {S : Type} (f g : nat -> S -> result S) (idxs : list nat)
    (s : S) :
  (forall i t, In i idxs -> f i t = g i t) ->
  for_in idxs f s = for_in idxs g s.
Proof.
  revert s. induction idxs as [|i idxs IH]; intros s H; [done|].
  cbn [for_in]. rewrite (H i s) by (by left).
  destruct (g i s) as [t|e]; [|done]. rewrite !bind_Ok.
  apply IH. intros k u Hk. apply H. by right.
Qed.

(** X22: the triangle weights are never applied.  For [navg >= 0],
    [_array_average] with [weighted=True] returns what it returns with
    [weighted=False], whatever the input, the mask and the sentinel: the
    weights are built and then used on no path that returns. *)
Theorem array_average_weights_unused (a0 : ndarray) (navg : Z)
    (weighted : bool) (valid : option (list f64)) (missing : option f64) :
  0 <= navg ->
  _array_average a0 navg weighted valid missing
  = _array_average a0 navg false valid missing.
Proof.
  intros Hn. unfold _array_average.
  destruct (squeeze a0) as [x|v|rows]; try done.
  destruct (navg =? 1); [done|].
  cbn [andb].
  destruct (weighted && (navg mod 2 =? 1)); [|done].
  destruct (triangle_weights_Ok navg Hn) as [w ->].
  rewrite !bind_Ok. reflexivity.
Qed.

Lemma array_average_weights_unused_witness :
  _array_average (Arr2 (map (map of_Z) [[1; 2]; [3; 4]; [5; 6]])) 3 true
    None None
  = _array_average (Arr2 (map (map of_Z) [[1; 2]; [3; 4]; [5; 6]])) 3 false
      None None.
Proof. apply array_average_weights_unused. lia. Defined.

(** ** The mask of a range of shots *)

Lemma block_take {A : Type} (l : list A) (len : nat) (navg : Z) (i : nat) :
  2 <= navg -> (i < Z.to_nat (Z.of_nat len / navg))%nat ->
  block (take len l) (Z.to_nat navg) i = block l (Z.to_nat navg) i.
Proof.
  intros Hn Hi. pose proof (block_count_bound _ _ _ Hn Hi) as Hb.
  unfold block. rewrite skipn_firstn_comm.
  rewrite take_take. f_equal. lia.
Qed.

Lemma py_slice_block_ge {A : Type} (l : list A) (len : nat) (navg : Z)
    (i : nat) :
  2 <= navg -> (len <= length l)%nat ->
  (i < Z.to_nat (Z.of_nat len / navg))%nat ->
  py_slice l (Z.of_nat i * navg) (Z.of_nat i * navg + navg - 1)
  = block l (Z.to_nat navg) i.
Proof.
  intros Hn Hlen Hi. apply py_slice_block; [done|].
  assert (Z.of_nat len / navg <= Z.of_nat (length l) / navg)
    by (apply Z.div_le_mono; lia).
  lia.
Qed.

(** The vector reduction looks at the first [length l] entries of a
    longer mask only. *)
Lemma _vector_average_mask_prefix (l valid : list f64) (navg : Z)
    (missing : option f64) :
  2 <= navg -> (length l <= length valid)%nat ->
  _vector_average (Arr1 l) navg missing (Some valid)
  = _vector_average (Arr1 l) navg missing (Some (take (length l) valid)).
Proof.
  intros Hn Hlen. unfold _vector_average.
  destruct (squeeze (Arr1 l)) as [x|l'|rows] eqn:Hsq; try done.
  assert (l' = l) as ->.
  { destruct l as [|x [|y l]]; cbn in Hsq; congruence. }
  destruct (navg =? 1); [done|]. destruct (navg =? 0); [done|].
  destruct (Z.of_nat (length l) / navg <? 0); [done|].
  cbn [default].
  erewrite for_in_ext; [reflexivity|].
  intros i t Hi. apply in_seq in Hi. unfold _vector_average_body. cbn zeta.
  rewrite (py_slice_block_ge valid (length l)) by (done || lia).
  rewrite (py_slice_block (take (length l) valid))
    by (rewrite ?length_take, ?Nat.min_l; done || lia).
  rewrite block_take by (done || lia). done.
Qed.

(** X23: the mask is not shifted with [idx].  On a file opened with a
    mask of valid profiles, [_read_var] of a vector with
    [idx = (i0, i1)] and [navg >= 2] averages the shots
    [i0 + i * navg + k] of block [i] of the range under the mask entries
    [i * navg + k], those of block [i] of the whole file: the range is
    cut out of the data, the mask is passed whole. *)
Theorem read_var_range_mask (self : Cal) (sd : SD) (var : string)
    (a : ndarray) (l valid : list f64) (navg : Z) (i0 i1 : nat)
    (missing : option f64) :
  hdf self = Some sd -> sd !! var = Some a -> squeeze a = Arr1 l ->
  valid_rms_profiles self = Some valid -> length valid = length l ->
  2 <= navg -> navg <= Z.of_nat (length l) ->
  (i0 <= i1 <= length l)%nat -> (i1 - i0 <> 1)%nat ->
  Cal1._read_var self var navg (Some (Z.of_nat i0, Z.of_nat i1)) missing
  = Ok (PyArr (Arr1
         (map (fun i => block_value missing
                          (block (take (i1 - i0) (drop i0 l))
                             (Z.to_nat navg) i)
                          (block valid (Z.to_nat navg) i))
              (seq 0 (Z.to_nat (Z.of_nat (i1 - i0) / navg))))))
  /\ forall i k,
       (i < Z.to_nat (Z.of_nat (i1 - i0) / navg))%nat ->
       (k < Z.to_nat navg - 1)%nat ->
       block (take (i1 - i0) (drop i0 l)) (Z.to_nat navg) i !! k
       = l !! (i0 + (i * Z.to_nat navg + k))%nat
       /\ block valid (Z.to_nat navg) i !! k
          = valid !! (i * Z.to_nat navg + k)%nat.
Proof.
  intros Hsd Hvar Hsq Hvalid Hlv Hn Hnl Hi Hone.
  set (data := take (i1 - i0) (drop i0 l)).
  assert (Hdata : length data = (i1 - i0)%nat).
  { unfold data. rewrite length_take, length_drop. lia. }
  split.
  - unfold Cal1._read_var, Cal1._read_sds. rewrite Hsd, Hvar.
    cbn [fmap option_fmap option_map]. rewrite Hsq.
    destruct (Z.eqb_spec navg 0); [lia|].
    cbn [Cal1.size0_opt size0]. rewrite bind_Ok.
    destruct (Z.ltb_spec (Z.of_nat (length l)) navg); [lia|].
    cbn [Cal1.slice_rows fst snd]. rewrite py_slice_range by lia.
    fold data. rewrite bind_Ok.
    destruct (Z.ltb_spec 1 navg); [|lia].
    rewrite Hvalid.
    rewrite _vector_average_mask_prefix by (rewrite ?Hdata; done || lia).
    rewrite _vector_average_blocks;
      [|done | by rewrite Hdata
       |cbn [default from_option id]; rewrite length_take; lia].
    rewrite bind_Ok, Hdata. do 3 f_equal.
    apply map_ext_in. intros i Hin. apply in_seq in Hin.
    cbn [default from_option id]. rewrite block_take by (done || lia).
    done.
  - intros i k Hib Hk.
    pose proof (block_count_bound (i1 - i0) i navg Hn Hib) as Hb.
    rewrite !block_lookup by done. split; [|done].
    unfold data. rewrite lookup_take_lt by lia.
    rewrite lookup_drop. done.
Qed.

Lemma read_var_range_mask_witness :
  Cal1._read_var
    {| hdf := Some {[ "Surface_Elevation" :=
                        Arr1 (map of_Z [1; 2; 3; 4; 5; 6]) ]};
       z := ZN;
       valid_rms_profiles := Some (map of_Z [0; 0; 1; 1; 1; 1]) |}
    "Surface_Elevation" 2 (Some (Z.of_nat 2, Z.of_nat 6)) None
  = Ok (PyArr (Arr1
         (map (fun i => block_value None
                          (block (take (6 - 2)
                                    (drop 2 (map of_Z [1; 2; 3; 4; 5; 6])))
                             (Z.to_nat 2) i)
                          (block (map of_Z [0; 0; 1; 1; 1; 1])
                             (Z.to_nat 2) i))
              (seq 0 (Z.to_nat (Z.of_nat (6 - 2) / 2)))))).
Proof.
  apply (read_var_range_mask _
           {[ "Surface_Elevation" := Arr1 (map of_Z [1; 2; 3; 4; 5; 6]) ]}
           "Surface_Elevation" (Arr1 (map of_Z [1; 2; 3; 4; 5; 6]))
           (map of_Z [1; 2; 3; 4; 5; 6]) (map of_Z [0; 0; 1; 1; 1; 1])
           2 2 6 None).
  - reflexivity.
  - reflexivity.
  - reflexivity.
  - reflexivity.
  - reflexivity.
  - lia.
  - cbn. lia.
  - cbn. lia.
  - lia.
Defined.

(** ** Reading an averaged variable *)

Lemma squeeze_Arr2 (a : ndarray) (rows : list (list f64)) :
  squeeze a = Arr2 rows -> squeeze (Arr2 rows) = Arr2 rows.
Proof.
  destruct a as [x|v|rs]; [done| |].
  - destruct v as [|x [|y v]]; done.
  - destruct rs as [|r [|r' rs]].
    + by intros [= <-].
    + destruct r as [|x [|y r]]; done.
    + rewrite squeeze_rows.
      destruct (Nat.eqb (length r) 1) eqn:E; [done|].
      intros [= <-]. by rewrite squeeze_rows, E.
Qed.

(** X24: what a level 1 accessor returns for a 2-d variable.  For
    [navg >= 2] and a file with at least [navg] shots, [_read_var]
    (and so [pressure], [temperature], [rh] and [mol]) without [idx]
    and sentinel returns one row per block of [navg] shots,
    [N / navg] rows in all: row [i] is the average of the shots of block
    [i] that are valid in the mask of the file object, column by column
    over the samples [> -999], a column without such a sample and a block
    without valid shot being [-9999]. *)
Theorem level1_read_blocks (self : Cal) (sd : SD) (var : string)
    (a : ndarray) (rows : list (list f64)) (navg : Z) :
  hdf self = Some sd -> sd !! var = Some a -> squeeze a = Arr2 rows ->
  rectangular (ncols rows) rows ->
  length (mask_of (length rows) (valid_rms_profiles self)) = length rows ->
  2 <= navg -> navg <= Z.of_nat (length rows) ->
  Cal1._read_var self var navg None None
  = Ok (PyArr (Arr2
         (map (fun i => array_block_value (ncols rows)
                          (block rows (Z.to_nat navg) i)
                          (block (mask_of (length rows)
                                    (valid_rms_profiles self))
                             (Z.to_nat navg) i))
              (seq 0 (Z.to_nat (Z.of_nat (length rows) / navg))))))
  /\ (var = "Pressure" ->
      Cal1.pressure self navg None = Cal1._read_var self var navg None None)
  /\ (var = "Temperature" ->
      Cal1.temperature self navg None
      = Cal1._read_var self var navg None None)
  /\ (var = "Relative_Humidity" ->
      Cal1.rh self navg None = Cal1._read_var self var navg None None)
  /\ (var = "Molecular_Number_Density" ->
      Cal1.mol self navg None = Cal1._read_var self var navg None None).
Proof.
  intros Hsd Hvar Hsq Hrect Hmask Hn Hlen.
  split; [|by repeat split; intros ->].
  unfold Cal1._read_var, Cal1._read_sds. rewrite Hsd, Hvar.
  cbn [fmap option_fmap option_map]. rewrite Hsq.
  destruct (Z.eqb_spec navg 0); [lia|].
  cbn [Cal1.size0_opt size0]. rewrite bind_Ok.
  destruct (Z.ltb_spec (Z.of_nat (length rows)) navg); [lia|].
  rewrite bind_Ok.
  destruct (Z.ltb_spec 1 navg); [|lia].
  unfold mask_of in *.
  rewrite _array_average_blocks;
    [done | done | by eapply squeeze_Arr2 | done | done].
Qed.

Lemma level1_read_blocks_witness :
  Cal1._read_var
    {| hdf := Some {[ "Pressure" :=
                        Arr2 (map (map of_Z) [[1; 2]; [3; 4]; [5; 6];
                                              [7; 8]]) ]};
       z := ZN; valid_rms_profiles := None |}
    "Pressure" 2 None None
  = Ok (PyArr (Arr2
         (map (fun i => array_block_value
                          (ncols (map (map of_Z) [[1; 2]; [3; 4]; [5; 6];
                                                  [7; 8]]))
                          (block (map (map of_Z) [[1; 2]; [3; 4]; [5; 6];
                                                  [7; 8]])
                             (Z.to_nat 2) i)
                          (block (mask_of
                                    (length (map (map of_Z)
                                               [[1; 2]; [3; 4]; [5; 6];
                                                [7; 8]]))
                                    None)
                             (Z.to_nat 2) i))
              (seq 0 (Z.to_nat
                        (Z.of_nat (length (map (map of_Z)
                                             [[1; 2]; [3; 4]; [5; 6];
                                              [7; 8]])) / 2)))))).
Proof.
  destruct (level1_read_blocks
              {| hdf := Some {[ "Pressure" :=
                                  Arr2 (map (map of_Z) [[1; 2]; [3; 4];
                                                        [5; 6]; [7; 8]]) ]};
                 z := ZN; valid_rms_profiles := None |}
              {[ "Pressure" := Arr2 (map (map of_Z) [[1; 2]; [3; 4]; [5; 6];
                                                     [7; 8]]) ]}
              "Pressure"
              (Arr2 (map (map of_Z) [[1; 2]; [3; 4]; [5; 6]; [7; 8]]))
              (map (map of_Z) [[1; 2]; [3; 4]; [5; 6]; [7; 8]]) 2)
    as [H _].
  - reflexivity.
  - reflexivity.
  - reflexivity.
  - repeat constructor.
  - reflexivity.
  - lia.
  - cbn. lia.
  - exact H.
Defined.

(** ** Decoding keeps the order of time *)

Lemma days_before_year_step (y y' : Z) :
  1 <= y -> y < y' ->
  days_before_year y + (if is_leap y then 366 else 365)
  <= days_before_year y'.
Proof.
  intros Hy Hlt.
  assert (Hstep : days_before_year (y + 1)
                  = days_before_year y + (if is_leap y then 366 else 365)).
  { unfold days_before_year, is_leap. cbn zeta.
    replace (y + 1 - 1) with y by lia.
    pose proof (Z.div_mod y 4 ltac:(lia)).
    pose proof (Z.mod_pos_bound y 4 ltac:(lia)).
    pose proof (Z.div_mod y 100 ltac:(lia)).
    pose proof (Z.mod_pos_bound y 100 ltac:(lia)).
    pose proof (Z.div_mod y 400 ltac:(lia)).
    pose proof (Z.mod_pos_bound y 400 ltac:(lia)).
    pose proof (Z.div_mod (y - 1) 4 ltac:(lia)).
    pose proof (Z.mod_pos_bound (y - 1) 4 ltac:(lia)).
    pose proof (Z.div_mod (y - 1) 100 ltac:(lia)).
    pose proof (Z.mod_pos_bound (y - 1) 100 ltac:(lia)).
    pose proof (Z.div_mod (y - 1) 400 ltac:(lia)).
    pose proof (Z.mod_pos_bound (y - 1) 400 ltac:(lia)).
    destruct (Z.eqb_spec (y mod 4) 0), (Z.eqb_spec (y mod 100) 0),
      (Z.eqb_spec (y mod 400) 0); cbn [andb orb negb]; lia. }
  rewrite <- Hstep. unfold days_before_year. cbn zeta.
  replace (y + 1 - 1) with y by lia.
  pose proof (Z.div_mod y 4 ltac:(lia)).
  pose proof (Z.mod_pos_bound y 4 ltac:(lia)).
  pose proof (Z.div_mod y 100 ltac:(lia)).
  pose proof (Z.mod_pos_bound y 100 ltac:(lia)).
  pose proof (Z.div_mod y 400 ltac:(lia)).
  pose proof (Z.mod_pos_bound y 400 ltac:(lia)).
  pose proof (Z.div_mod (y' - 1) 4 ltac:(lia)).
  pose proof (Z.mod_pos_bound (y' - 1) 4 ltac:(lia)).
  pose proof (Z.div_mod (y' - 1) 100 ltac:(lia)).
  pose proof (Z.mod_pos_bound (y' - 1) 100 ltac:(lia)).
  pose proof (Z.div_mod (y' - 1) 400 ltac:(lia)).
  pose proof (Z.mod_pos_bound (y' - 1) 400 ltac:(lia)).
  destruct (Z.eq_dec y' (y + 1)) as [->|Hne].
  - replace (y + 1 - 1) with y in * by lia. lia.
  - lia.
Qed.

Lemma days_before_month_step (y m m' : Z) :
  1 <= m -> m < m' -> m' <= 12 ->
  days_before_month y m + days_in_month y m <= days_before_month y m'.
Proof.
  intros Hm Hlt Hm'. unfold days_before_month.
  pose (dim := fun (leap : bool) (month : Z) =>
    if month =? 2 then (if leap then 29 else 28)
    else if (month =? 4) || (month =? 6) || (month =? 9) || (month =? 11)
         then 30
         else 31).
  assert (E : forall k, days_in_month y k = dim (is_leap y) k) by done.
  rewrite E, (map_ext _ _ E (seqZ 1 (m - 1))),
    (map_ext _ _ E (seqZ 1 (m' - 1))).
  generalize dependent (is_leap y). intros b _.
  assert (Hc : m = 1 \/ m = 2 \/ m = 3 \/ m = 4 \/ m = 5 \/ m = 6 \/ m = 7
               \/ m = 8 \/ m = 9 \/ m = 10 \/ m = 11) by lia.
  assert (Hc' : m' = 2 \/ m' = 3 \/ m' = 4 \/ m' = 5 \/ m' = 6
                \/ m' = 7 \/ m' = 8 \/ m' = 9 \/ m' = 10 \/ m' = 11
                \/ m' = 12) by lia.
  destruct b;
    (destruct Hc as [->|[->|[->|[->|[->|[->|[->|[->|[->|[->| ->]]]]]]]]]]);
    (destruct Hc' as [->|[->|[->|[->|[->|[->|[->|[->|[->|[->| ->]]]]]]]]]]);
    try lia; vm_compute; intros Hcmp; discriminate Hcmp.
Qed.

(** The ordinal of a calendar date grows with the date. *)
Lemma ymd2ord_lex (y m d y' m' d' : Z) :
  1 <= y -> 1 <= m <= 12 -> 1 <= d <= days_in_month y m ->
  1 <= m' <= 12 -> 1 <= d' <= days_in_month y' m' ->
  (y < y' \/ (y = y' /\ (m < m' \/ (m = m' /\ d <= d')))) ->
  ymd2ord y m d <= ymd2ord y' m' d'.
Proof.
  intros Hy Hm Hd Hm' Hd' Hlex. unfold ymd2ord.
  pose proof (day_of_year_bounds y m d Hm Hd) as Hdoy.
  pose proof (day_of_year_bounds y' m' d' Hm' Hd') as Hdoy'.
  destruct Hlex as [Hlt | [<- [Hlt | [<- Hle]]]].
  - pose proof (days_before_year_step y y' Hy Hlt).
    destruct (is_leap y); lia.
  - pose proof (days_before_month_step y m m' ltac:(lia) Hlt ltac:(lia)).
    lia.
  - lia.
Qed.

(** The whole part of a decimal date is made of its fields. *)
Lemma Qfloor_fields (q : Qc) :
  Qfloor q = year_of q * 10000 + month_of q * 100 + day_of q.
Proof.
  pose proof (Qfloor_le (this (remainder_of q
               + - (Q2Qc (inject_Z (month_of q)) * Q2Qc (inject_Z 100)))%Qc))
    as H0.
  pose proof (Qlt_floor (this (remainder_of q
               + - (Q2Qc (inject_Z (month_of q)) * Q2Qc (inject_Z 100)))%Qc))
    as H1.
  fold (day_of q) in H0, H1.
  unfold remainder_of in H0, H1.
  rewrite !this_plus, !this_opp, !this_mult, !this_of_Z in H0, H1.
  rewrite inject_Z_plus in H1.
  change (inject_Z 10000) with 10000%Q in *.
  change (inject_Z 100) with 100%Q in *.
  change (inject_Z 1) with 1%Q in *.
  apply Qfloor_unique.
  - rewrite !inject_Z_plus, !inject_Z_mult.
    change (inject_Z 10000) with 10000%Q.
    change (inject_Z 100) with 100%Q. lra.
  - rewrite !inject_Z_plus, !inject_Z_mult.
    change (inject_Z 10000) with 10000%Q.
    change (inject_Z 100) with 100%Q.
    change (inject_Z 1) with 1%Q. lra.
Qed.

(** X26: decoding keeps the order of time.  For two finite samples
    [u <= u'] that [datetime] decodes, the timestamp of [u] is not later
    than the timestamp of [u']: its date is earlier, or it is the same
    date and its second of the day is not later.  (Floats are exact
    rationals.) *)
Theorem datetime_body_monotone (q q' : Qc) (t t' : pydatetime) :
  leb (Fin q) (Fin q') = true ->
  Cal2.datetime_body (Fin q) = Ok t ->
  Cal2.datetime_body (Fin q') = Ok t' ->
  ordinal t < ordinal t'
  \/ (ordinal t = ordinal t' /\ second t <= second t').
Proof.
  intros Hle Ht Ht'. apply leb_fin in Hle.
  destruct (datetime_body_fin q)
    as [(e & Hbad & _)|(s & _ & Hs & Hnew & Hbody)]; [congruence|].
  destruct (datetime_body_fin q')
    as [(e & Hbad & _)|(s' & _ & Hs' & Hnew' & Hbody')]; [congruence|].
  rewrite Hbody in Ht. rewrite Hbody' in Ht'.
  injection Ht as <-. injection Ht' as <-. cbn [ordinal second].
  apply new_datetime_valid in Hnew as (Hy & Hm & Hd).
  apply new_datetime_valid in Hnew' as (Hy' & Hm' & Hd').
  pose proof (year_of_mono q q' Hle) as Hyy.
  destruct (Z.eq_dec (year_of q) (year_of q')) as [Ey|Ney].
  - pose proof (month_of_mono q q' Ey Hle) as Hmm.
    destruct (Z.eq_dec (month_of q) (month_of q')) as [Em|Nem].
    + pose proof (day_of_mono q q' Ey Em Hle) as Hdd.
      destruct (Z.eq_dec (day_of q) (day_of q')) as [Ed|Ned].
      * right. rewrite Ey, Em, Ed. split; [done|].
        subst s s'. apply Qfloor_resp_le.
        assert (Ef : Qfloor q = Qfloor q')
          by (rewrite !Qfloor_fields; congruence).
        rewrite Ef. unfold Qcle in Hle. nra.
      * assert (Hord : ymd2ord (year_of q + 2000) (month_of q) (day_of q) + 1
                       <= ymd2ord (year_of q' + 2000) (month_of q')
                            (day_of q')).
        { rewrite <- Ey, <- Em. unfold ymd2ord. lia. }
        left. lia.
    + left.
      assert (Hord : ymd2ord (year_of q + 2000) (month_of q) (day_of q)
                     < ymd2ord (year_of q' + 2000) (month_of q')
                         (day_of q')).
      { rewrite <- Ey. unfold ymd2ord.
        pose proof (days_before_month_step (year_of q + 2000) (month_of q)
                      (month_of q') ltac:(lia) ltac:(lia) ltac:(lia)).
        rewrite <- Ey in Hd'. lia. }
      exact Hord.
  - left.
    pose proof (day_of_year_bounds _ _ _ Hm Hd) as Hdoy.
    pose proof (day_of_year_bounds _ _ _ Hm' Hd') as Hdoy'.
    pose proof (days_before_year_step (year_of q + 2000)
                  (year_of q' + 2000) ltac:(lia) ltac:(lia)).
    unfold ymd2ord. destruct (is_leap (year_of q + 2000)); lia.
Qed.

Lemma datetime_body_monotone_witness :
  ordinal {| ordinal := 733787; second := 43200 |}
  < ordinal {| ordinal := 733818; second := 43200 |}
  \/ (ordinal {| ordinal := 733787; second := 43200 |}
      = ordinal {| ordinal := 733818; second := 43200 |}
      /\ second {| ordinal := 733787; second := 43200 |}
         <= second {| ordinal := 733818; second := 43200 |}).
Proof.
  apply (datetime_body_monotone (Q2Qc (1001155 # 10)) (Q2Qc (1002155 # 10))).
  - reflexivity.
  - vm_compute. reflexivity.
  - vm_compute. reflexivity.
Defined.

(** ** The standard deviation next to the average *)

(** X27: [atb_std] next to [atb] at the edges.  With [navg = 0], where
    the read of [atb] returns [[]], [atb_std] raises
    [ZeroDivisionError]; on a file with fewer than [navg] shots, where
    the read returns [None], it returns an array without rows; on a
    closed file it raises [AttributeError], not [IndexError].  For
    [2 <= navg <= N] the two give as many rows, one per block. *)
Theorem atb_std_edges (f_sqrt : f64 -> f64) (self : Cal) (sd : SD)
    (a : ndarray) (rows : list (list f64)) (navg : Z) :
  hdf self = Some sd ->
  sd !! "Total_Attenuated_Backscatter_532" = Some a ->
  squeeze a = Arr2 rows -> rectangular (ncols rows) rows ->
  length (mask_of (length rows) (valid_rms_profiles self)) = length rows ->
  (Cal1._read_var self "Total_Attenuated_Backscatter_532" 0 None None
   = Ok PyEmptyList
   /\ Cal1.atb_std f_sqrt self 0 = Raise ZeroDivisionError)
  /\ (Z.of_nat (length rows) < navg ->
      Cal1._read_var self "Total_Attenuated_Backscatter_532" navg None None
      = Ok PyNone
      /\ Cal1.atb_std f_sqrt self navg = Ok (PyArr (Arr2 [])))
  /\ (2 <= navg <= Z.of_nat (length rows) ->
      exists avg std,
        Cal1._read_var self "Total_Attenuated_Backscatter_532" navg None
          None = Ok (PyArr (Arr2 avg))
        /\ Cal1.atb_std f_sqrt self navg = Ok (PyArr (Arr2 std))
        /\ length avg = Z.to_nat (Z.of_nat (length rows) / navg)
        /\ length std = length avg)
  /\ (forall self', close self = Ok self' ->
      Cal1.atb_std f_sqrt self' navg = Raise AttributeError).
Proof.
  intros Hsd Hvar Hsq Hrect Hmask.
  pose proof (squeeze_Arr2 a rows Hsq) as Hsq2.
  assert (Hstd : forall n,
            Cal1.atb_std f_sqrt self n
            = (data ← _array_std f_sqrt (Arr2 rows) n
                        (valid_rms_profiles self);
               Ok (PyArr data))).
  { intros n. unfold Cal1.atb_std, Cal1._read_std, Cal1._read_sds.
    rewrite Hsd, Hvar. cbn [fmap option_fmap option_map]. by rewrite Hsq. }
  assert (Hread : forall n, n <> 0 ->
            Cal1._read_var self "Total_Attenuated_Backscatter_532" n None
              None
            = if Z.of_nat (length rows) <? n then Ok PyNone
              else if 1 <? n
                   then data ← _array_average (Arr2 rows) n false
                                 (valid_rms_profiles self) None;
                        Ok (PyArr data)
                   else Ok (PyArr (Arr2 rows))).
  { intros n Hn. unfold Cal1._read_var, Cal1._read_sds.
    rewrite Hsd, Hvar. cbn [fmap option_fmap option_map]. rewrite Hsq.
    destruct (Z.eqb_spec n 0); [lia|].
    cbn [Cal1.size0_opt size0]. rewrite bind_Ok.
    destruct (_ <? n); [done|]. by rewrite bind_Ok. }
  split; [|split; [|split]].
  - split; [done|]. rewrite Hstd. unfold _array_std. by rewrite Hsq2.
  - intros Hfew. rewrite Hread by lia.
    destruct (Z.ltb_spec (Z.of_nat (length rows)) navg); [|lia].
    split; [done|]. rewrite Hstd. unfold _array_std. rewrite Hsq2.
    destruct (Z.eqb_spec navg 1) as [->|];
      [destruct rows; [done | cbn in Hfew; lia]|].
    destruct (Z.eqb_spec navg 0); [lia|].
    rewrite Z.div_small by lia. done.
  - intros Hn. rewrite Hread by lia.
    destruct (Z.ltb_spec (Z.of_nat (length rows)) navg); [lia|].
    destruct (Z.ltb_spec 1 navg); [|lia].
    unfold mask_of in Hmask.
    rewrite _array_average_blocks; [|lia | done | done | done].
    rewrite Hstd, _array_std_rows; [|lia | done | done].
    do 2 eexists. split; [reflexivity|]. split; [reflexivity|].
    by rewrite !length_map, !length_seq.
  - intros self' Hclose. unfold close in Hclose. rewrite Hsd in Hclose.
    injection Hclose as <-. done.
Qed.

Lemma atb_std_edges_witness :
  Cal1._read_var
    {| hdf := Some {[ "Total_Attenuated_Backscatter_532" :=
                        Arr2 (map (map of_Z) [[1; 2]; [3; 4]]) ]};
       z := ZN; valid_rms_profiles := None |}
    "Total_Attenuated_Backscatter_532" 0 None None = Ok PyEmptyList
  /\ Cal1.atb_std (fun x => x)
       {| hdf := Some {[ "Total_Attenuated_Backscatter_532" :=
                           Arr2 (map (map of_Z) [[1; 2]; [3; 4]]) ]};
          z := ZN; valid_rms_profiles := None |} 0
     = Raise ZeroDivisionError.
Proof.
  destruct (atb_std_edges (fun x => x)
              {| hdf := Some {[ "Total_Attenuated_Backscatter_532" :=
                                  Arr2 (map (map of_Z) [[1; 2]; [3; 4]]) ]};
                 z := ZN; valid_rms_profiles := None |}
              {[ "Total_Attenuated_Backscatter_532" :=
                   Arr2 (map (map of_Z) [[1; 2]; [3; 4]]) ]}
              (Arr2 (map (map of_Z) [[1; 2]; [3; 4]]))
              (map (map of_Z) [[1; 2]; [3; 4]]) 30) as [H _].
  - reflexivity.
  - reflexivity.
  - reflexivity.
  - repeat constructor.
  - reflexivity.
  - exact H.
Defined.
